(** * dynamic_mcp: tool registry, capability matcher and API-key store

    A shallow embedding of [dynamic_mcp/registry.py], [dynamic_mcp/auth.py]
    and [dynamic_mcp/models.py], with the properties of the specification
    stated and proved over it.

    Python [str] values are modelled as [string] (characters are code points
    below 256), [dict]s as finite maps ([gmap]) where only lookup and update
    matter, and exceptions as an explicit error type. *)

From Stdlib Require Import ZArith Ascii String List Bool Lia.
From stdpp Require Import base option gmap strings list.

Open Scope string_scope.
Open Scope list_scope.

(** ** Python string helpers *)

Module PyStr.

Definition chars (s : string) : list ascii := list_ascii_of_string s.
Definition of_chars (l : list ascii) : string := string_of_list_ascii l.

Definition ord (c : ascii) : N := N_of_ascii c.

Definition ceq (a b : ascii) : bool := Ascii.eqb a b.

(** [str.isspace] restricted to code points below 256. *)
Definition isspace (c : ascii) : bool :=
  let n := ord c in
  ((9 <=? n) && (n <=? 13) || (28 <=? n) && (n <=? 32)
   || (n =? 133) || (n =? 160))%N.

Fixpoint lstrip (l : list ascii) : list ascii :=
  match l with
  | c :: l' => if isspace c then lstrip l' else l
  | [] => []
  end.

(** [s.strip()] *)
Definition strip (s : string) : string :=
  of_chars (rev (lstrip (rev (lstrip (chars s))))).

(** [s.split(sep)] for a one-character separator: never returns an empty
    list, [''.split(',') == ['']]. *)
Fixpoint split_chars (sep : ascii) (cur : list ascii) (l : list ascii)
  : list (list ascii) :=
  match l with
  | [] => [rev cur]
  | c :: l' =>
      if ceq c sep then rev cur :: split_chars sep [] l'
      else split_chars sep (c :: cur) l'
  end.

Definition split (sep : ascii) (s : string) : list string :=
  map of_chars (split_chars sep [] (chars s)).

(** Truthiness of a [str]: the empty string is falsy. *)
Definition truthy (s : string) : bool := negb (String.eqb s "").

(** Truthiness of an [Optional[str]]: [None] and [''] are falsy. *)
Definition opt_truthy (o : option string) : bool :=
  match o with
  | Some s => truthy s
  | None => false
  end.

End PyStr.

(** ** [fnmatch.fnmatch] (standard library, POSIX: [normcase] is the identity)

    [translate] turns a shell pattern into a sequence of items, one per
    regular-expression atom that [fnmatch.translate] emits; [matches] is the
    anchored match of the resulting expression ([(?s:...)\Z]). *)

Module Fnmatch.
Import PyStr.

(** One atom of the translated pattern.  [CharSet neg singles ranges] is a
    bracket expression. *)
Inductive item : Type :=
| Star
| AnyChar
| Lit (c : ascii)
| CharSet (neg : bool) (singles : list ascii) (ranges : list (ascii * ascii))
| Never.

Definition hyphen : ascii := "-"%char.
Definition bang : ascii := "!"%char.
Definition rbracket : ascii := "]"%char.

(** Index of the closing bracket: [j] in [translate], relative to the
    character after the opening bracket. *)
Fixpoint find_rbracket (l : list ascii) (j : nat) : option nat :=
  match l with
  | [] => None
  | c :: l' => if ceq c rbracket then Some j else find_rbracket l' (S j)
  end.

Definition closing (r : list ascii) : option nat :=
  let j := match r with
           | c :: _ => if ceq c bang then 1 else 0
           | [] => 0
           end in
  let j := match drop j r with
           | c :: _ => if ceq c rbracket then S j else j
           | [] => j
           end in
  find_rbracket (drop j r) j.

(** The [while True: k = pat.find('-', k, j) ...] loop: [skip] characters
    are not inspected, a hyphen found after them closes the current
    chunk and the next two characters are skipped ([k = k+3]).  The last
    chunk ([pat[i:j]]) may be empty. *)
Fixpoint split_chunks (s : list ascii) (skip : nat) (cur : list ascii)
  : list (list ascii) :=
  match s with
  | [] => [rev cur]
  | c :: s' =>
      match skip with
      | S n => split_chunks s' n (c :: cur)
      | O =>
          if ceq c hyphen then rev cur :: split_chunks s' 2 []
          else split_chunks s' 0 (c :: cur)
      end
  end.

(** [if chunk: chunks.append(chunk) else: chunks[-1] += '-'] *)
Fixpoint close_chunks (cs : list (list ascii)) : list (list ascii) :=
  match cs with
  | [] => []
  | [c] => [c]
  | [c; []] => [c ++ [hyphen]]
  | c :: cs' => c :: close_chunks cs'
  end.

Definition last_char (c : list ascii) : ascii := List.last c zero.
Definition first_char (c : list ascii) : ascii := List.hd zero c.

(** Removal of empty ranges, from the last pair of chunks to the first. *)
Fixpoint merge_ranges (cs : list (list ascii)) : list (list ascii) :=
  match cs with
  | [] => []
  | c :: rest =>
      match merge_ranges rest with
      | [] => [c]
      | d :: ds =>
          if (ord (first_char d) <? ord (last_char c))%N
          then (removelast c ++ tl d) :: ds
          else c :: d :: ds
      end
  end.

(** The characters of the set as the regular-expression parser reads
    them: escaped characters of a chunk are literals ([inl]), the hyphen
    joining two chunks is a bare hyphen ([inr tt]). *)
Fixpoint join_chunks (cs : list (list ascii)) : list (ascii + unit) :=
  match cs with
  | [] => []
  | [c] => map inl c
  | c :: cs' => map inl c ++ inr tt :: join_chunks cs'
  end.

Definition tok_char (t : ascii + unit) : ascii :=
  match t with inl c => c | inr _ => hyphen end.

(** Reading of a set body: [x-y] is a range, a bare hyphen that cannot
    form a range stands for itself. *)
Fixpoint parse_set (fuel : nat) (ts : list (ascii + unit))
  : list ascii * list (ascii * ascii) :=
  match fuel with
  | O => ([], [])
  | S fuel' =>
      match ts with
      | [] => ([], [])
      | t :: inr _ :: t2 :: rest =>
          let '(s, r) := parse_set fuel' rest in
          (s, (tok_char t, tok_char t2) :: r)
      | t :: rest =>
          let '(s, r) := parse_set fuel' rest in
          (tok_char t :: s, r)
      end
  end.

(** The item for a bracket body [stuff = pat[i:j]]. *)
Definition bracket (stuff : list ascii) : item :=
  let cs :=
    if existsb (ceq hyphen) stuff then
      let skip := match stuff with
                  | c :: _ => if ceq c bang then 2 else 1
                  | [] => 1
                  end in
      merge_ranges (close_chunks (split_chunks stuff skip []))
    else [stuff] in
  match join_chunks cs with
  | [] => Never
  | [inl c] =>
      if ceq c bang then AnyChar else CharSet false [c] []
  | inl c :: ts =>
      if ceq c bang
      then let '(s, r) := parse_set (length ts) ts in CharSet true s r
      else let '(s, r) := parse_set (S (length ts)) (inl c :: ts) in
           CharSet false s r
  | ts => let '(s, r) := parse_set (length ts) ts in CharSet false s r
  end.

(** The main loop of [fnmatch.translate]; consecutive stars are
    compressed into one. *)
Fixpoint translate_loop (fuel : nat) (pat : list ascii) (prev_star : bool)
  : list item :=
  match fuel with
  | O => []
  | S fuel' =>
      match pat with
      | [] => []
      | c :: r =>
          if ceq c "*"%char then
            if prev_star then translate_loop fuel' r true
            else Star :: translate_loop fuel' r true
          else if ceq c "?"%char then AnyChar :: translate_loop fuel' r false
          else if ceq c "["%char then
            match closing r with
            | None => Lit c :: translate_loop fuel' r false
            | Some j =>
                bracket (take j r) :: translate_loop fuel' (drop (S j) r) false
            end
          else Lit c :: translate_loop fuel' r false
      end
  end.

Definition translate (pat : string) : list item :=
  translate_loop (String.length pat) (chars pat) false.

Definition in_range (c : ascii) (r : ascii * ascii) : bool :=
  ((ord (fst r) <=? ord c) && (ord c <=? ord (snd r)))%N.

Definition item_ok (it : item) (c : ascii) : bool :=
  match it with
  | Star => true
  | AnyChar => true
  | Lit a => ceq a c
  | CharSet neg singles ranges =>
      xorb neg (existsb (ceq c) singles || existsb (in_range c) ranges)
  | Never => false
  end.

(** Anchored match of the translated pattern against the whole name. *)
Fixpoint matches (its : list item) (s : list ascii) {struct its} : bool :=
  match its with
  | [] => match s with [] => true | _ => false end
  | Star :: its' =>
      (fix star (s : list ascii) : bool :=
         matches its' s
         || match s with
            | [] => false
            | _ :: s' => star s'
            end) s
  | it :: its' =>
      match s with
      | [] => false
      | c :: s' => item_ok it c && matches its' s'
      end
  end.

(** [fnmatch(name, pat)] *)
Definition fnmatch (name pat : string) : bool :=
  matches (translate pat) (chars name).

End Fnmatch.

(** ** Values, exceptions and results *)

(** JSON-like Python values: tool arguments, return values, constraints. *)
#[warning="-register-all"] Inductive value : Type :=
| VNone
| VBool (b : bool)
| VInt (z : Z)
| VStr (s : string)
| VList (l : list value)
| VDict (kvs : list (string * value)).

(** One entry of pydantic's [ValidationError.errors()]: the kind of the
    error and the field it is located at. *)
Inductive err_kind : Type := ErrMissing | ErrType.

Record field_error : Type := FieldError {
  err_type : err_kind;
  err_loc : string
}.

Inductive detail : Type :=
| DStr (s : string)
| DErrors (errs : list field_error).

Inductive exn : Type :=
| HTTPException (status_code : Z) (d : detail)
| RuntimeError (msg : string)
| TypeError (msg : string)
| KeyError (key : string)
| OSError (msg : string)
| Raised (what : string).

Inductive result (A : Type) : Type :=
| Ok (a : A)
| Err (e : exn).
Arguments Ok {A} a.
Arguments Err {A} e.

Definition HTTP_401_UNAUTHORIZED : Z := 401.
Definition HTTP_403_FORBIDDEN : Z := 403.
Definition HTTP_422_UNPROCESSABLE_ENTITY : Z := 422.

(** ** models.py *)

Record Principal : Type := mkPrincipal {
  principal_id : string;
  capabilities : list string;
  constraints : list (string * value);
  disabled : bool
}.

(** Objects a handler can receive or return: a plain value, or the
    injected [Principal] instance. *)
Inductive pyobj : Type :=
| PVal (v : value)
| PPrincipal (p : Principal).

(** ** registry.py *)

Module Registry.
Import PyStr.

(** A type annotation, as the validator pydantic derives from it: the
    coerced value, or [None] on a type mismatch.  [Any] accepts all. *)
Definition Ann : Type := value -> option value.
Definition Any : Ann := Some.

(** One entry of [inspect.signature(fn).parameters], with
    [get_type_hints(fn).get(pname)].  Parameters are ordinary
    (keyword-capable) ones; [p_default = None] is [inspect._empty]. *)
Record Param : Type := mkParam {
  p_name : string;
  p_hint : option Ann;
  p_default : option value
}.

(** A field of a model made by [create_model]: [f_default = None] is
    the [...] marker of a required field. *)
Record Field : Type := mkField {
  f_name : string;
  f_ann : Ann;
  f_default : option value
}.

Section WithState.
(** [S] is whatever state the handlers act on. *)
Context {S : Type}.

Record Handler : Type := mkHandler {
  fn_name : string;                      (* fn.__name__ *)
  fn_doc : option string;                (* fn.__doc__ *)
  fn_params : list Param;
  fn_async : bool;
  fn_body : gmap string pyobj -> S -> result pyobj * S
}.

Record ToolDef : Type := mkToolDef {
  name : string;
  description : string;
  fn : Handler;
  input_model : list Field;
  output_model : list Field;
  required_caps : list string;
  tags : list string
}.

(** The world a call runs in: the handler invocations made so far
    (tool function and keyword arguments) and the handlers' state. *)
Record World : Type := mkWorld {
  invocations : list (string * gmap string pyobj);
  state : S
}.

(** [a or b] on strings. *)
Definition str_or (a b : string) : string := if truthy a then a else b.

Definition opt_str (o : option string) : string :=
  match o with Some s => s | None => "" end.

(** The loop over [sig.parameters.items()] in [register]. *)
Fixpoint signature_fields (ps : list Param) : list Field :=
  match ps with
  | [] => []
  | p :: ps' =>
      if String.eqb (p_name p) "user" then signature_fields ps'
      else
        {| f_name := p_name p;
           f_ann := match p_hint p with Some a => a | None => Any end;
           f_default := p_default p |} :: signature_fields ps'
  end.

(** Whether pydantic takes a name as the name of a field: a name with a
    leading underscore is none. *)
Definition is_valid_field_name (name : string) : bool :=
  negb (String.prefix "_" name).

(** [create_model(model_name, **fields)], as the fields of the model it
    makes: an entry whose name has a leading underscore is left out
    (pydantic warns and keeps it as a private attribute, which is neither
    validated nor dumped).  For a name in pydantic's protected namespace
    ["model_"] that [BaseModel] has already, such as [model_dump],
    [create_model] raises [NameError] and so does [register], which then
    stores nothing; handlers with a parameter of such a name are not
    covered here. *)
Definition create_model (fields : list Field) : list Field :=
  List.filter (fun f => is_valid_field_name (f_name f)) fields.

Definition register (tools : gmap string ToolDef) (fn : Handler)
    (name description : option string)
    (required_caps tags : option (list string))
  : ToolDef * gmap string ToolDef :=
  let tool_name := str_or (opt_str name) (fn_name fn) in
  let desc :=
    str_or (opt_str description)
      (str_or (strip (opt_str (fn_doc fn))) ("Tool " +:+ tool_name)) in
  let input_model := create_model (signature_fields (fn_params fn)) in
  let output_model :=
    create_model [ {| f_name := "value"; f_ann := Any; f_default := None |} ] in
  let req : list string :=
    match required_caps with
    | Some (c :: cs) => [] ++ (c :: cs)
    | _ => []
    end in
  let req :=
    match req with
    | [] => ["tool:" +:+ tool_name]
    | _ => req
    end in
  let tool_tags := match tags with Some l => l | None => [] end in
  let t := {| name := tool_name; description := desc; fn := fn;
              input_model := input_model; output_model := output_model;
              required_caps := req; tags := tool_tags |} in
  (t, <[tool_name := t]> tools).

Definition get (tools : gmap string ToolDef) (name : string)
  : result ToolDef :=
  match tools !! name with
  | Some t => Ok t
  | None => Err (KeyError name)
  end.

(** [_principal_has]: the loop over [principal.capabilities]. *)
Fixpoint has_capability (caps : list string) (required : string) : bool :=
  match caps with
  | [] => false
  | cap :: caps' =>
      if String.eqb cap "*" || String.eqb cap "admin:*" then true
      else if Fnmatch.fnmatch required cap || Fnmatch.fnmatch cap required
           then true
           else has_capability caps' required
  end.

Definition _principal_has (principal : Principal) (required : string)
  : bool :=
  has_capability (capabilities principal) required.

Definition authorize_action (principal : Principal) (action : string)
  : result unit :=
  if _principal_has principal action then Ok tt
  else Err (HTTPException HTTP_403_FORBIDDEN
              (DStr ("Missing capability: " +:+ action))).

(** The two loops of [enforce_tool], over [tool.required_caps] and over
    [tool.tags], each returning at the first capability the principal
    has. *)
Definition enforce_tool (principal : Principal) (tool : ToolDef)
  : result unit :=
  if existsb (fun req => _principal_has principal req) (required_caps tool)
  then Ok tt
  else if existsb (fun tag => _principal_has principal ("tag:" +:+ tag))
            (tags tool)
  then Ok tt
  else Err (HTTPException HTTP_403_FORBIDDEN
              (DStr "Not authorized for this tool")).

(** Validation of one field of a pydantic model (default
    configuration: defaults are not validated). *)
Definition validate_field (args : gmap string value) (f : Field)
  : field_error + (string * value) :=
  match args !! f_name f with
  | Some v =>
      match f_ann f v with
      | Some v' => inr (f_name f, v')
      | None => inl {| err_type := ErrType; err_loc := f_name f |}
      end
  | None =>
      match f_default f with
      | Some d => inr (f_name f, d)
      | None => inl {| err_type := ErrMissing; err_loc := f_name f |}
      end
  end.

(** [Model(args)], called with the mapping as keywords: every field is
    validated and all errors are collected; keys of [args] that name no
    field are ignored (the default [extra='ignore'] of a model made by
    [create_model]). *)
Fixpoint validate_fields (args : gmap string value) (fs : list Field)
  : list field_error * list (string * value) :=
  match fs with
  | [] => ([], [])
  | f :: fs' =>
      let '(errs, vals) := validate_fields args fs' in
      match validate_field args f with
      | inl e => (e :: errs, vals)
      | inr kv => (errs, kv :: vals)
      end
  end.

Definition validate_model (fs : list Field) (args : gmap string value)
  : list field_error + list (string * value) :=
  match validate_fields args fs with
  | ([], vals) => inr vals
  | (errs, _) => inl errs
  end.

(** [dict(parsed.model_dump())] *)
Definition model_dump (vals : list (string * value)) : gmap string pyobj :=
  list_to_map (map (fun kv => (fst kv, PVal (snd kv))) vals).

Definition declares (ps : list Param) (pname : string) : bool :=
  existsb (fun p => String.eqb (p_name p) pname) ps.

(** Binding of the keyword arguments of a call of [fn]: an unexpected
    keyword or a missing parameter without default is a
    [TypeError]; defaults fill the other missing parameters. *)
Definition bind_kwargs (ps : list Param) (kwargs : gmap string pyobj)
  : result (gmap string pyobj) :=
  if negb (forallb (declares ps) (map fst (map_to_list kwargs)))
  then Err (TypeError "got an unexpected keyword argument")
  else if negb (forallb
                  (fun p => match kwargs !! p_name p, p_default p with
                            | None, None => false
                            | _, _ => true
                            end) ps)
  then Err (TypeError "missing a required argument")
  else
    Ok (fold_right
          (fun p m => match m !! p_name p, p_default p with
                      | None, Some d => <[p_name p := PVal d]> m
                      | _, _ => m
                      end) kwargs ps).

(** The call of [tool.fn] on [kwargs], awaited when the handler is
    asynchronous:
    the invocation is recorded, then the body runs on the state. *)
Definition invoke (h : Handler) (kwargs : gmap string pyobj) (w : World)
  : result pyobj * World :=
  match bind_kwargs (fn_params h) kwargs with
  | Err e => (Err e, w)
  | Ok bound =>
      let '(r, s') := fn_body h bound (state w) in
      (r, {| invocations := invocations w ++ [(fn_name h, bound)];
             state := s' |})
  end.

(** [model_dump] of a [Principal]. *)
Definition dump_principal (p : Principal) : value :=
  VDict [ ("principal_id", VStr (principal_id p));
          ("capabilities", VList (map VStr (capabilities p)));
          ("constraints", VDict (constraints p));
          ("disabled", VBool (disabled p)) ].

(** What [model_dump] makes of the value of a field annotated [Any]: a
    pydantic object is dumped to the dict of its fields, a plain value
    is kept. *)
Definition dump_any (o : pyobj) : pyobj :=
  match o with
  | PVal v => PVal v
  | PPrincipal p => PVal (dump_principal p)
  end.

(** [call]: the result is [tool.output_model(value=value).model_dump()]. *)
Definition call (tool : ToolDef) (args : gmap string value)
    (principal : Principal) (w : World)
  : result (gmap string pyobj) * World :=
  match validate_model (input_model tool) args with
  | inl errs =>
      (Err (HTTPException HTTP_422_UNPROCESSABLE_ENTITY (DErrors errs)), w)
  | inr parsed =>
      let kwargs := model_dump parsed in
      let kwargs :=
        if declares (fn_params (fn tool)) "principal"
        then <["principal" := PPrincipal principal]> kwargs
        else if declares (fn_params (fn tool)) "user"
        then <["user" := PPrincipal principal]> kwargs
        else kwargs in
      match invoke (fn tool) kwargs w with
      | (Err e, w') => (Err e, w')
      | (Ok v, w') => (Ok {["value" := dump_any v]}, w')
      end
  end.

End WithState.

Arguments Handler : clear implicits.
Arguments ToolDef : clear implicits.
Arguments World : clear implicits.

End Registry.

(** ** [secrets.token_urlsafe] (standard library)

    [token_urlsafe(nbytes)] is the URL-safe base64 text of [nbytes] random
    bytes with the padding stripped; the random bytes are an input here. *)

Module Secrets.
Import PyStr.

Definition urlsafe_alphabet : list ascii :=
  chars "ABCDEFGHIJKLMNOPQRSTUVWXYZabcdefghijklmnopqrstuvwxyz0123456789-_".

Definition b64char (n : N) : ascii :=
  nth (N.to_nat (n mod 64)) urlsafe_alphabet "A"%char.

Definition pad : ascii := "="%char.

(** [base64.urlsafe_b64encode] *)
Fixpoint urlsafe_b64encode (l : list Byte.byte) : list ascii :=
  match l with
  | [] => []
  | [a] =>
      let n := (Byte.to_N a * 16)%N in
      [b64char (n / 64); b64char n; pad; pad]
  | [a; b] =>
      let n := ((Byte.to_N a * 256 + Byte.to_N b) * 4)%N in
      [b64char (n / 4096); b64char (n / 64); b64char n; pad]
  | a :: b :: c :: r =>
      let n := (Byte.to_N a * 65536 + Byte.to_N b * 256 + Byte.to_N c)%N in
      b64char (n / 262144) :: b64char (n / 4096) :: b64char (n / 64)
        :: b64char n :: urlsafe_b64encode r
  end.

Fixpoint lstrip_pad (l : list ascii) : list ascii :=
  match l with
  | c :: l' => if ceq c pad then lstrip_pad l' else l
  | [] => []
  end.

(** [.rstrip(b'=')] *)
Definition rstrip_pad (l : list ascii) : list ascii := rev (lstrip_pad (rev l)).

Definition token_urlsafe (random_bytes : list Byte.byte) : string :=
  of_chars (rstrip_pad (urlsafe_b64encode random_bytes)).

(** The characters of the URL-safe base64 alphabet. *)
Definition is_urlsafe (c : ascii) : bool := existsb (ceq c) urlsafe_alphabet.

End Secrets.

(** ** auth.py *)

Module Auth.
Import PyStr.

Definition APIKEY_HMAC_SECRET_ENV : string := "DYNAMIC_MCP_APIKEY_HMAC_SECRET".
Definition EXT_PRINCIPAL_HEADER : string := "X-MCP-Principal".
Definition EXT_CAPABILITIES_HEADER : string := "X-MCP-Capabilities".
Definition EXT_CONSTRAINTS_HEADER : string := "X-MCP-Constraints".

(** A [datetime]: wall-clock microseconds and, when timezone-aware, the
    UTC offset. *)
Record datetime : Type := mkDatetime {
  dt_wall : Z;
  dt_offset : option Z
}.

(** [_utcnow()] when the clock reads [t]. *)
Definition _utcnow (t : Z) : datetime := {| dt_wall := t; dt_offset := Some 0%Z |}.

(** [a < b] on datetimes; comparing a naive with an aware one raises
    [TypeError] ([None]). *)
Definition dt_lt (a b : datetime) : option bool :=
  match dt_offset a, dt_offset b with
  | Some oa, Some ob => Some (dt_wall a - oa <? dt_wall b - ob)%Z
  | None, None => Some (dt_wall a <? dt_wall b)%Z
  | _, _ => None
  end.

Record StoredKey : Type := mkStoredKey {
  key_id : string;
  token_hmac : string;
  sk_principal_id : string;
  sk_capabilities : list string;
  sk_constraints : list (string * value);
  created_at : string;
  expires_at : option string;
  revoked_at : option string;
  last_used_at : option string
}.

(** The JSON file behind an [ApiKeyStore]: the records under ["keys"], in
    file order, and whether the file can be written.  A [Store] is a file
    that [json.loads] reads. *)
Record Store : Type := mkStore {
  keys : list StoredKey;
  writable : bool
}.

Definition _hmac_secret (env_secret : string) : result string :=
  if truthy env_secret then Ok env_secret
  else Err (RuntimeError
              (APIKEY_HMAC_SECRET_ENV +:+ " must be set for apikey auth mode.")).

(** [self._write(db)]: [write_text] on a file that can be written.  The
    failure modelled is the one in which the file cannot be opened for
    writing, which leaves it as it was.  [write_text] can also fail after
    it has opened the file and so emptied it (a full disk); what is left
    then is not a file that [json.loads] reads, and no [Store] stands for
    it. *)
Definition _write (fs : Store) (ks : list StoredKey) : result Store :=
  if writable fs then Ok {| keys := ks; writable := true |}
  else Err (OSError "cannot write the key store").

Definition default_prefix : string := "mcp_live_".

Section WithLibraries.
(** Standard-library functions taken as given:
    [hmac.new(secret, msg, sha256).hexdigest()], [datetime.isoformat],
    [datetime.fromisoformat] ([None] when it raises) and [json.loads]
    ([None] when it raises). *)
Variable hmac_sha256_hexdigest : string -> string -> string.
Variable isoformat : datetime -> string.
Variable fromisoformat : string -> option datetime.
Variable json_loads : string -> option value.

Definition _hmac_digest (token secret : string) : string :=
  hmac_sha256_hexdigest secret token.

Definition mint_key (fs : Store) (env_secret : string) (now : Z)
    (random32 random10 : list Byte.byte)
    (principal_id : string) (capabilities : list string)
    (constraints : option (list (string * value)))
    (expires_at : option datetime) (prefix : string)
  : result string * Store :=
  let token := prefix +:+ Secrets.token_urlsafe random32 in
  match _hmac_secret env_secret with
  | Err e => (Err e, fs)
  | Ok secret =>
      let token_hmac := _hmac_digest token secret in
      let rec :=
        {| key_id := "k_" +:+ Secrets.token_urlsafe random10;
           token_hmac := token_hmac;
           sk_principal_id := principal_id;
           sk_capabilities := capabilities;
           sk_constraints := match constraints with
                             | Some (c :: cs) => c :: cs
                             | _ => []
                             end;
           created_at := isoformat (_utcnow now);
           expires_at := option_map isoformat expires_at;
           revoked_at := None;
           last_used_at := None |} in
      match _write fs (keys fs ++ [rec]) with
      | Err e => (Err e, fs)
      | Ok fs' => (Ok token, fs')
      end
  end.

(** [mint_api_key]: [mint_key] with its default [prefix]. *)
Definition mint_api_key (fs : Store) (env_secret : string) (now : Z)
    (random32 random10 : list Byte.byte)
    (principal_id : string) (capabilities : list string)
    (constraints : option (list (string * value)))
    (expires_at : option datetime)
  : result string * Store :=
  mint_key fs env_secret now random32 random10 principal_id capabilities
    constraints expires_at default_prefix.

Definition set_revoked (k : StoredKey) (stamp : string) : StoredKey :=
  {| key_id := key_id k; token_hmac := token_hmac k;
     sk_principal_id := sk_principal_id k;
     sk_capabilities := sk_capabilities k;
     sk_constraints := sk_constraints k;
     created_at := created_at k; expires_at := expires_at k;
     revoked_at := Some stamp; last_used_at := last_used_at k |}.

Definition set_last_used (k : StoredKey) (stamp : string) : StoredKey :=
  {| key_id := key_id k; token_hmac := token_hmac k;
     sk_principal_id := sk_principal_id k;
     sk_capabilities := sk_capabilities k;
     sk_constraints := sk_constraints k;
     created_at := created_at k; expires_at := expires_at k;
     revoked_at := revoked_at k; last_used_at := Some stamp |}.

(** The loop of [revoke]: every record is visited, there is no [break]. *)
Fixpoint revoke_loop (digest stamp : string) (ks : list StoredKey)
  : list StoredKey * bool :=
  match ks with
  | [] => ([], false)
  | k :: ks' =>
      let '(ks'', changed) := revoke_loop digest stamp ks' in
      if String.eqb (token_hmac k) digest && negb (opt_truthy (revoked_at k))
      then (set_revoked k stamp :: ks'', true)
      else (k :: ks'', changed)
  end.

Definition revoke (fs : Store) (env_secret : string) (now : Z) (token : string)
  : result bool * Store :=
  match _hmac_secret env_secret with
  | Err e => (Err e, fs)
  | Ok secret =>
      let token_hmac := _hmac_digest token secret in
      let '(ks, changed) :=
        revoke_loop token_hmac (isoformat (_utcnow now)) (keys fs) in
      if changed then
        match _write fs ks with
        | Err e => (Err e, fs)
        | Ok fs' => (Ok true, fs')
        end
      else (Ok false, fs)
  end.

Definition unauthorized {A} (msg : string) : result A :=
  Err (HTTPException HTTP_401_UNAUTHORIZED (DStr msg)).

(** The loop of [resolve]: the outcome for the first record with the
    token's digest, and the records as they are in memory afterwards
    ([last_used_at] set on that record when the outcome is a principal). *)
Fixpoint resolve_loop (digest : string) (now : Z) (ks : list StoredKey)
  : result Principal * list StoredKey :=
  match ks with
  | [] => (unauthorized "Invalid API key", [])
  | k :: ks' =>
      if negb (String.eqb (token_hmac k) digest) then
        let '(r, ks'') := resolve_loop digest now ks' in (r, k :: ks'')
      else if opt_truthy (revoked_at k) then
        (unauthorized "API key revoked", ks)
      else
        let expiry : result unit :=
          match expires_at k with
          | Some exp =>
              if truthy exp then
                match fromisoformat exp with
                | None => unauthorized "API key invalid expiry"
                | Some exp_dt =>
                    match dt_lt exp_dt (_utcnow now) with
                    | None =>
                        Err (TypeError
                          "can't compare offset-naive and offset-aware datetimes")
                    | Some true => unauthorized "API key expired"
                    | Some false => Ok tt
                    end
                end
              else Ok tt
          | None => Ok tt
          end in
        match expiry with
        | Err e => (Err e, ks)
        | Ok _ =>
            (Ok {| principal_id := sk_principal_id k;
                   capabilities := sk_capabilities k;
                   constraints := sk_constraints k;
                   disabled := false |},
             set_last_used k (isoformat (_utcnow now)) :: ks')
        end
  end.

Definition resolve (fs : Store) (env_secret : string) (now : Z) (token : string)
  : result Principal * Store :=
  match _hmac_secret env_secret with
  | Err e => (Err e, fs)
  | Ok secret =>
      let token_hmac := _hmac_digest token secret in
      match resolve_loop token_hmac now (keys fs) with
      | (Err e, _) => (Err e, fs)
      | (Ok p, ks) =>
          (* try: self._write(db) / except Exception: pass *)
          (Ok p, match _write fs ks with Ok fs' => fs' | Err _ => fs end)
      end
  end.

Definition header (headers : gmap string string) (name : string) : string :=
  default "" (headers !! name).

Definition _principal_external (headers : gmap string string)
  : result Principal :=
  let pid := strip (header headers EXT_PRINCIPAL_HEADER) in
  if negb (truthy pid) then
    unauthorized ("Missing " +:+ EXT_PRINCIPAL_HEADER)
  else
    let caps_raw := strip (header headers EXT_CAPABILITIES_HEADER) in
    let capabilities :=
      map strip (filter (fun c => truthy (strip c) = true) (split "," caps_raw)) in
    let cons_raw := strip (header headers EXT_CONSTRAINTS_HEADER) in
    let constraints : result (list (string * value)) :=
      if truthy cons_raw then
        match json_loads cons_raw with
        | None => unauthorized ("Invalid " +:+ EXT_CONSTRAINTS_HEADER)
        | Some (VDict kvs) => Ok kvs
        | Some _ => Ok []
        end
      else Ok [] in
    match constraints with
    | Err e => Err e
    | Ok constraints =>
        Ok {| principal_id := pid; capabilities := capabilities;
              constraints := constraints; disabled := false |}
    end.

End WithLibraries.

End Auth.

(** ** Notions used in the statements *)

Module Statements.
Import PyStr Registry.

(** A capability pattern grants a requested capability when it is one of
    the two unconditional markers or matches in either direction. *)
Definition grants (P R : string) : Prop :=
  P = "*" \/ P = "admin:*"
  \/ Fnmatch.fnmatch R P = true \/ Fnmatch.fnmatch P R = true.

(** A character that [fnmatch.translate] copies as a literal. *)
Definition plain_char (c : ascii) : bool :=
  negb (ceq c "*"%char || ceq c "?"%char || ceq c "["%char).

(** The test of the loop of [revoke]: the record carries the digest and
    is not revoked yet; and what the loop does to one record. *)
Definition revocable (digest : string) (k : Auth.StoredKey) : bool :=
  String.eqb (Auth.token_hmac k) digest
  && negb (opt_truthy (Auth.revoked_at k)).

Definition revoke_one (digest stamp : string) (k : Auth.StoredKey)
  : Auth.StoredKey :=
  if revocable digest k then Auth.set_revoked k stamp else k.

(** The registries that [register] can build, starting from the empty
    one of [ToolRegistry.__init__]. *)
Inductive registered {S : Type} : gmap string (ToolDef S) -> Prop :=
| registered_empty : registered ∅
| registered_register (tools : gmap string (ToolDef S)) (fn : Handler S)
    (name description : option string)
    (required_caps tags : option (list string)) :
    registered tools ->
    registered (register tools fn name description required_caps tags).2.

End Statements.

(** ** Sample handlers and data *)

Module Samples.
Import PyStr Registry.

(** [def whoami(principal): return principal.principal_id] *)
Definition whoami {S : Type} : Handler S :=
  {| fn_name := "whoami"; fn_doc := None;
     fn_params :=
       [ {| p_name := "principal"; p_hint := None; p_default := None |} ];
     fn_async := false;
     fn_body := fun kw s =>
       (match kw !! "principal" with
        | Some (PPrincipal p) => Ok (PVal (VStr (principal_id p)))
        | _ => Err (Raised "AttributeError")
        end, s) |}.

(** [def whoami_legacy(user): return user.principal_id] *)
Definition whoami_legacy {S : Type} : Handler S :=
  {| fn_name := "whoami_legacy"; fn_doc := None;
     fn_params := [ {| p_name := "user"; p_hint := None; p_default := None |} ];
     fn_async := false;
     fn_body := fun kw s =>
       (match kw !! "user" with
        | Some (PPrincipal p) => Ok (PVal (VStr (principal_id p)))
        | _ => Err (Raised "AttributeError")
        end, s) |}.

(** The validator of a hint for integers that admits an [int] and
    nothing else.  The hint is one that [get_type_hints] hands to
    [create_model] as it is, for instance a class whose pydantic core
    schema is [int_schema(strict=True)] ([get_type_hints] strips
    [Annotated], so [StrictInt] itself reaches [create_model] as plain
    [int], whose validator also converts some values of other types); on
    an integer the two validators agree. *)
Definition strict_int : Ann :=
  fun v => match v with VInt z => Some (VInt z) | _ => None end.

(** [def add(a: Int, b: Int): return a + b] for such a hint [Int],
    counting its runs in the state. *)
Definition add : Handler nat :=
  {| fn_name := "add"; fn_doc := Some "Add two numbers.";
     fn_params :=
       [ {| p_name := "a"; p_hint := Some strict_int; p_default := None |};
         {| p_name := "b"; p_hint := Some strict_int; p_default := None |} ];
     fn_async := false;
     fn_body := fun kw runs =>
       (match kw !! "a", kw !! "b" with
        | Some (PVal (VInt x)), Some (PVal (VInt y)) => Ok (PVal (VInt (x + y)))
        | _, _ => Err (Raised "TypeError")
        end, Datatypes.S runs) |}.

Definition add_tool : ToolDef nat :=
  (register ∅ add None None (Some ["tool:math:add"]) (Some ["safe"; "math"])).1.

Definition alice : Principal :=
  {| principal_id := "alice"; capabilities := ["tool:math:*"];
     constraints := []; disabled := false |}.

Definition fresh_world : World nat := {| invocations := []; state := 0 |}.

(** Stand-ins for the library functions in the examples below: a keyed
    digest, the text of the one time the examples use (midnight UTC of
    1 January 2026), its parser, and a JSON parser that knows two
    documents. *)
Definition sample_digest (secret msg : string) : string :=
  "hmac(" +:+ secret +:+ "," +:+ msg +:+ ")".

Definition sample_now : Z := 1767225600000000.

Definition sample_time : Auth.datetime := Auth._utcnow sample_now.

Definition sample_isoformat (d : Auth.datetime) : string :=
  "2026-01-01T00:00:00+00:00".

Definition sample_fromisoformat (s : string) : option Auth.datetime :=
  if String.eqb s "2026-01-01T00:00:00+00:00" then Some sample_time else None.

(** Two more times: one hour after [sample_time], and midnight of
    1 January 2030 without a timezone. *)
Definition sample_hour_later : Auth.datetime :=
  Auth._utcnow (sample_now + 3600 * 1000000).

Definition sample_naive_time : Auth.datetime :=
  {| Auth.dt_wall := 1893456000000000; Auth.dt_offset := None |}.

(** Stand-ins for [isoformat] and [fromisoformat] that know the three
    times. *)
Definition table_isoformat (d : Auth.datetime) : string :=
  match Auth.dt_offset d with
  | None => "2030-01-01T00:00:00"
  | Some _ =>
      if (Auth.dt_wall d =? sample_now + 3600 * 1000000)%Z
      then "2026-01-01T01:00:00+00:00"
      else "2026-01-01T00:00:00+00:00"
  end.

Definition table_fromisoformat (s : string) : option Auth.datetime :=
  if String.eqb s "2026-01-01T00:00:00+00:00" then Some sample_time
  else if String.eqb s "2026-01-01T01:00:00+00:00" then Some sample_hour_later
  else if String.eqb s "2030-01-01T00:00:00" then Some sample_naive_time
  else None.

Definition sample_json_loads (s : string) : option value :=
  if String.eqb s "{}" then Some (VDict [])
  else if String.eqb s "[]" then Some (VList [])
  else None.

Definition sample_random32 : list Byte.byte := repeat Byte.x5a 32.
Definition sample_random10 : list Byte.byte := repeat Byte.x17 10.

Definition sample_key (id digest pid : string) (exp rev : option string)
  : Auth.StoredKey :=
  {| Auth.key_id := id; Auth.token_hmac := digest;
     Auth.sk_principal_id := pid; Auth.sk_capabilities := ["tools:call"];
     Auth.sk_constraints := []; Auth.created_at := "2025-01-01T00:00:00+00:00";
     Auth.expires_at := exp; Auth.revoked_at := rev;
     Auth.last_used_at := None |}.

End Samples.


(** ** auth.py: configuration, store file and the resolver of a request *)

Module AuthResolver.
Import PyStr Registry Auth.

(** [str.lower] on code points below 256. *)
Definition lower_char (c : ascii) : ascii :=
  let n := ord c in
  if ((65 <=? n) && (n <=? 90)
      || (192 <=? n) && (n <=? 222) && negb (n =? 215))%N
  then ascii_of_N (n + 32)
  else c.

Definition lower (s : string) : string := of_chars (map lower_char (chars s)).

Definition AUTH_MODE_ENV : string := "DYNAMIC_MCP_AUTH_MODE".

(** [os.getenv(key, default)] on the process environment. *)
Definition getenv (env : gmap string string) (key dflt : string) : string :=
  default dflt (env !! key).

Definition get_auth_mode (env : gmap string string) : string :=
  lower (strip (getenv env AUTH_MODE_ENV "apikey")).

Definition _principal_noauth : Principal :=
  {| principal_id := "anonymous"; capabilities := ["*"];
     constraints := []; disabled := false |}.

(** The path of the key store: the file (its records) when it exists, and
    whether the path can be written. *)
Record Disk : Type := mkDisk {
  file : option (list StoredKey);
  disk_writable : bool
}.

(** [ApiKeyStore.__init__]: a missing file is created with no keys. *)
Definition ApiKeyStore (d : Disk) : result Store :=
  match file d with
  | Some ks => Ok {| keys := ks; writable := disk_writable d |}
  | None =>
      _write {| keys := []; writable := disk_writable d |} []
  end.

Definition to_disk (fs : Store) : Disk :=
  {| file := Some (keys fs); disk_writable := writable fs |}.

(** What [HTTPBearer] hands over: the scheme and the credentials of the
    [Authorization] header. *)
Record HTTPAuthorizationCredentials : Type := mkCreds {
  scheme : string;
  credentials : string
}.

Definition HTTP_500_INTERNAL_SERVER_ERROR : Z := 500.

Section WithLibraries.
Variable hmac_sha256_hexdigest : string -> string -> string.
Variable isoformat : datetime -> string.
Variable fromisoformat : string -> option datetime.
Variable json_loads : string -> option value.

Definition get_current_principal (env : gmap string string)
    (headers : gmap string string)
    (creds : option HTTPAuthorizationCredentials) (d : Disk) (now : Z)
  : result Principal * Disk :=
  let mode := get_auth_mode env in
  if String.eqb mode "none" then (Ok _principal_noauth, d)
  else if String.eqb mode "external" then
    (_principal_external json_loads headers, d)
  else if negb (String.eqb mode "apikey") then
    (Err (HTTPException HTTP_500_INTERNAL_SERVER_ERROR
            (DStr ("Unknown auth mode: " +:+ mode))), d)
  else
    let missing :=
      match creds with
      | None => true
      | Some c =>
          negb (String.eqb (lower (scheme c)) "bearer")
          || negb (truthy (credentials c))
      end in
    if missing then (unauthorized "Missing bearer token", d)
    else
      match ApiKeyStore d with
      | Err e => (Err e, d)
      | Ok store =>
          let '(r, store') :=
            resolve hmac_sha256_hexdigest isoformat fromisoformat store
              (getenv env APIKEY_HMAC_SECRET_ENV "") now
              (match creds with Some c => credentials c | None => "" end) in
          (r, to_disk store')
      end.

(** The module-level [mint_api_key]: opens the store, then [mint_key]
    with its default prefix. *)
Definition mint_api_key (env : gmap string string) (d : Disk) (now : Z)
    (random32 random10 : list Byte.byte)
    (principal_id : string) (capabilities : list string)
    (constraints : option (list (string * value)))
    (expires_at : option datetime)
  : result string * Disk :=
  match ApiKeyStore d with
  | Err e => (Err e, d)
  | Ok store =>
      let '(r, store') :=
        Auth.mint_api_key hmac_sha256_hexdigest isoformat store
          (getenv env APIKEY_HMAC_SECRET_ENV "") now random32 random10
          principal_id capabilities constraints expires_at in
      (r, to_disk store')
  end.

End WithLibraries.

End AuthResolver.

(** ** app.py: the routes *)

Module App.
Import PyStr Registry Auth AuthResolver.

Definition HTTP_400_BAD_REQUEST : Z := 400.
Definition HTTP_404_NOT_FOUND : Z := 404.

Record GetToolResponse : Type := mkGetToolResponse {
  gt_name : string;
  gt_docstring : string;
  gt_input_schema : value
}.

Record CallToolResponse : Type := mkCallToolResponse {
  ct_name : string;
  ct_result : gmap string pyobj
}.

Section Routes.
Context {S : Type}.
(** [model.model_json_schema()] of pydantic, taken as given. *)
Variable pyd_schema : list Field -> value.

(** [registry.get(req.name)] with [KeyError] turned into 404. *)
Definition lookup_tool (tools : gmap string (ToolDef S)) (name : string)
  : result (ToolDef S) :=
  match get tools name with
  | Ok t => Ok t
  | Err (KeyError _) =>
      Err (HTTPException HTTP_404_NOT_FOUND (DStr "Tool not found"))
  | Err e => Err e
  end.

(** [GET /mcp/describe_server] *)
Definition describe_server (server_name server_description : string)
    (principal : Principal) : result (string * string) :=
  match authorize_action principal "server:describe" with
  | Err e => Err e
  | Ok _ => Ok (server_name, server_description)
  end.

(** [POST /mcp/get_tool] *)
Definition get_tool (tools : gmap string (ToolDef S)) (principal : Principal)
    (req_name : string) : result GetToolResponse :=
  match authorize_action principal "tools:get" with
  | Err e => Err e
  | Ok _ =>
      match lookup_tool tools req_name with
      | Err e => Err e
      | Ok t =>
          Ok {| gt_name := name t;
                gt_docstring := opt_str (fn_doc (fn t));
                gt_input_schema := pyd_schema (input_model t) |}
      end
  end.

(** [POST /mcp/call_tool] *)
Definition call_tool (tools : gmap string (ToolDef S)) (principal : Principal)
    (req_name : string) (req_arguments : gmap string value) (w : World S)
  : result CallToolResponse * World S :=
  match authorize_action principal "tools:call" with
  | Err e => (Err e, w)
  | Ok _ =>
      match lookup_tool tools req_name with
      | Err e => (Err e, w)
      | Ok t =>
          match enforce_tool principal t with
          | Err e => (Err e, w)
          | Ok _ =>
              match call t req_arguments principal w with
              | (Err e, w') => (Err e, w')
              | (Ok out, w') =>
                  (Ok {| ct_name := name t; ct_result := out |}, w')
              end
          end
      end
  end.

End Routes.

Section Mint.
Variable hmac_sha256_hexdigest : string -> string -> string.
Variable isoformat : datetime -> string.

(** The first and the last microsecond of [datetime], midnight of
    1 January of year 1 and the end of year 9999, counted from the epoch
    as the clock readings are. *)
Definition datetime_min : Z := -62135596800000000.
Definition datetime_max : Z := 253402300799999999.

(** [datetime.now(timezone.utc) + timedelta(seconds=ttl_seconds)]: the
    sum raises [OverflowError] when it leaves the range of [datetime]
    (a [timedelta] out of its own range leaves it too). *)
Definition expiry_after (now ttl_seconds : Z) : result datetime :=
  let wall := (now + ttl_seconds * 1000000)%Z in
  if ((datetime_min <=? wall) && (wall <=? datetime_max))%Z
  then Ok {| dt_wall := wall; dt_offset := Some 0%Z |}
  else Err (Raised "OverflowError").

(** [POST /auth/mint]; the body is a [Token] with the minted key. *)
Definition mint (env : gmap string string) (d : Disk) (now : Z)
    (random32 random10 : list Byte.byte)
    (principal_id : string) (capabilities : list string)
    (ttl_seconds : Z) (admin_token : option string)
  : result string * Disk :=
  if negb (String.eqb (getenv env "DYNAMIC_MCP_ENABLE_MINT" "0") "1") then
    (Err (HTTPException HTTP_404_NOT_FOUND (DStr "Not found")), d)
  else
    let expected := getenv env "DYNAMIC_MCP_ADMIN_TOKEN" "" in
    if negb (truthy expected)
       || negb (match admin_token with
                | Some a => String.eqb a expected
                | None => false
                end)
    then (unauthorized "Unauthorized", d)
    else if negb (String.eqb (get_auth_mode env) "apikey") then
      (Err (HTTPException HTTP_400_BAD_REQUEST
              (DStr "Minting only supported in apikey mode")), d)
    else
      match expiry_after now ttl_seconds with
      | Err e => (Err e, d)
      | Ok expires_at =>
          mint_api_key hmac_sha256_hexdigest isoformat env d now
            random32 random10 principal_id capabilities None
            (Some expires_at)
      end.

End Mint.

End App.

(** ** Notions used in the statements about calls *)

Module CallStatements.
Import PyStr Registry.



End CallStatements.

(** ** Notions used in the statements about the store *)

Module StoreStatements.
Import PyStr Auth.

(** Whether the first record that carries the digest is revoked. *)
Fixpoint first_revoked (digest : string) (ks : list StoredKey) : bool :=
  match ks with
  | [] => false
  | k :: ks' =>
      if String.eqb (token_hmac k) digest then opt_truthy (revoked_at k)
      else first_revoked digest ks'
  end.

(** The fields of a record that are fixed when it is minted. *)
Definition minted_fields (k : StoredKey)
  : string * string * string * list string * list (string * value)
    * string * option string :=
  (key_id k, token_hmac k, sk_principal_id k, sk_capabilities k,
   sk_constraints k, created_at k, expires_at k).

(** Two records that [resolve] cannot tell apart: they differ at most in
    [key_id], [created_at] and [last_used_at]. *)
Definition same_decision (k k' : StoredKey) : Prop :=
  token_hmac k' = token_hmac k /\ revoked_at k' = revoked_at k
  /\ expires_at k' = expires_at k /\ sk_principal_id k' = sk_principal_id k
  /\ sk_capabilities k' = sk_capabilities k
  /\ sk_constraints k' = sk_constraints k.

(** A record and what it may have become later: the minted fields are the
    same, and a revocation, once set, is the same. *)
Definition stable (k k' : StoredKey) : Prop :=
  minted_fields k' = minted_fields k
  /\ (opt_truthy (revoked_at k) = true -> revoked_at k' = revoked_at k).

(** One use of the store, with the clock reading and the random bytes it
    consumes. *)
Inductive op : Type :=
| OpMint (now : Z) (random32 random10 : list Byte.byte)
    (principal_id : string) (capabilities : list string)
    (constraints : option (list (string * value)))
    (expires_at : option datetime) (prefix : string)
| OpRevoke (now : Z) (token : string)
| OpResolve (now : Z) (token : string).

(** The store file as the uses of the store leave it.  [write_text]
    opens the file, which empties it, writes the text and closes the
    file.  When it raises, the file is as it was (it could not be
    opened), or holds the whole new text (the failure came on closing),
    or holds nothing or a part of the text; [json.loads] reads no part of
    a text that [json.dumps] made of a dict, so every later use then
    raises in [_read]. *)
Inductive file_state : Type :=
| Readable (ks : list StoredKey)
| Unreadable.

(** How the write of a use ends, when the use writes: [write_text]
    returns; it raises and the file is as it was; it raises and the file
    holds the new text; it raises and the file is unreadable. *)
Inductive write_end : Type :=
| Written
| Refused
| Raised_after
| Cut_short.

Section Run.
Variable hmac_sha256_hexdigest : string -> string -> string.
Variable isoformat : datetime -> string.
Variable fromisoformat : string -> option datetime.

(** The store after one use. *)
Definition step (env_secret : string) (fs : Store) (o : op) : Store :=
  match o with
  | OpMint now r32 r10 pid caps cstr exp prefix =>
      (mint_key hmac_sha256_hexdigest isoformat fs env_secret now r32 r10
         pid caps cstr exp prefix).2
  | OpRevoke now token =>
      (revoke hmac_sha256_hexdigest isoformat fs env_secret now token).2
  | OpResolve now token =>
      (resolve hmac_sha256_hexdigest isoformat fromisoformat fs env_secret
         now token).2
  end.

(** Whether a use on the records [ks] reaches its [self._write(db)]:
    [mint_key] does once the secret is read, [revoke] when it changed a
    record, [resolve] when it is about to return a principal. *)
Definition writes (env_secret : string) (ks : list StoredKey) (o : op)
  : bool :=
  match _hmac_secret env_secret with
  | Err _ => false
  | Ok secret =>
      match o with
      | OpMint _ _ _ _ _ _ _ _ => true
      | OpRevoke now token =>
          (revoke_loop (_hmac_digest hmac_sha256_hexdigest token secret)
             (isoformat (_utcnow now)) ks).2
      | OpResolve now token =>
          match (resolve_loop isoformat fromisoformat
                   (_hmac_digest hmac_sha256_hexdigest token secret) now ks).1
          with
          | Ok _ => true
          | Err _ => false
          end
      end
  end.

(** The file after one use whose write, if any, ends as given.  On an
    unreadable file every use raises in [_read] (or before) and writes
    nothing. *)
Definition use (env_secret : string) (f : file_state) (ow : op * write_end)
  : file_state :=
  match f with
  | Unreadable => Unreadable
  | Readable ks =>
      if writes env_secret ks ow.1 then
        match ow.2 with
        | Written | Raised_after =>
            Readable (keys (step env_secret {| keys := ks; writable := true |}
                              ow.1))
        | Refused => Readable ks
        | Cut_short => Unreadable
        end
      else Readable ks
  end.

(** The file after a sequence of uses. *)
Definition history (env_secret : string) (f : file_state)
    (uses : list (op * write_end)) : file_state :=
  fold_left (use env_secret) uses f.

(** The result of [resolve] on the file: on an unreadable one [_read]
    raises [JSONDecodeError], once the secret has been read. *)
Definition resolve_file (env_secret : string) (f : file_state) (now : Z)
    (token : string) : result Principal :=
  match f with
  | Readable ks =>
      (resolve hmac_sha256_hexdigest isoformat fromisoformat
         {| keys := ks; writable := true |} env_secret now token).1
  | Unreadable =>
      match _hmac_secret env_secret with
      | Err e => Err e
      | Ok _ => Err (Raised "JSONDecodeError")
      end
  end.

End Run.

End StoreStatements.

(** ** Further sample data *)

Module MoreSamples.
Import PyStr Registry Auth AuthResolver Samples.

(** The environment of the example server, with the mint endpoint
    switched on. *)
Definition sample_env : gmap string string :=
  {[ "DYNAMIC_MCP_APIKEY_HMAC_SECRET" := "s3cret";
     "DYNAMIC_MCP_ENABLE_MINT" := "1";
     "DYNAMIC_MCP_ADMIN_TOKEN" := "letmein" ]}.

Definition empty_disk : Disk := {| file := None; disk_writable := true |}.

(** The validator of the hint [str]: of the values modelled here pydantic
    takes a [str] and nothing else (it turns no number into a string). *)
Definition strict_str : Ann :=
  fun v => match v with VStr s => Some (VStr s) | _ => None end.

(** [get_secret] of the example server:
    [def get_secret(key: str) -> str: return f"secret-value-for:{key}"]. *)
Definition get_secret : Handler nat :=
  {| fn_name := "get_secret"; fn_doc := Some "Fetch a secret by key (demo).";
     fn_params :=
       [ {| p_name := "key"; p_hint := Some strict_str; p_default := None |} ];
     fn_async := false;
     fn_body := fun kw runs =>
       (match kw !! "key" with
        | Some (PVal (VStr k)) => Ok (PVal (VStr ("secret-value-for:" +:+ k)))
        | _ => Err (Raised "TypeError")
        end, Datatypes.S runs) |}.

(** A registry after the example server's: [add] and [get_secret] under
    the capabilities and tags the example gives them. *)
Definition sample_tools : gmap string (ToolDef nat) :=
  (register
     (register ∅ add None (Some "Add two floats.") (Some ["tool:math:add"])
        (Some ["safe"; "math"])).2
     get_secret None (Some "Fetch a secret by key (demo).")
     (Some ["tool:secret:*"]) (Some ["dangerous"])).2.

(** A stand-in for [model_json_schema]: the names of the fields. *)
Definition sample_schema (fs : list Field) : value :=
  VList (map (fun f => VStr (f_name f)) fs).

(** The principal of the demo key of the example server. *)
Definition demo : Principal :=
  {| principal_id := "demo";
     capabilities := ["server:describe"; "tools:list"; "tools:get";
                      "tools:call"; "tool:math:*"];
     constraints := []; disabled := false |}.

End MoreSamples.
(** * Properties *)

(** ** Shell patterns *)

Module FnmatchFacts.
Import PyStr Fnmatch Statements.

Lemma matches_star (s : list ascii) : matches [Star] s = true.
Proof. induction s as [|c s IH]; simpl in *; [reflexivity | exact IH]. Qed.

(** The pattern ["*"] matches every name. *)
Lemma fnmatch_star (name : string) : fnmatch name "*" = true.
Proof. unfold fnmatch. apply matches_star. Qed.

Lemma translate_loop_plain (l : list ascii) :
  forall (fuel : nat) (b : bool),
    length l <= fuel -> forallb plain_char l = true ->
    translate_loop fuel l b = map Lit l.
Proof.
  induction l as [|c l IH]; intros fuel b Hlen Hplain.
  - now destruct fuel.
  - destruct fuel as [|fuel]; simpl in Hlen; [lia|].
    simpl in Hplain. apply andb_true_iff in Hplain as [Hc Hl].
    unfold plain_char in Hc. apply negb_true_iff in Hc.
    apply orb_false_iff in Hc as [Hc H3].
    apply orb_false_iff in Hc as [H1 H2].
    simpl. rewrite H1, H2, H3. f_equal. apply IH; [lia | exact Hl].
Qed.

Lemma matches_literal (l s : list ascii) :
  matches (map Lit l) s = true <-> s = l.
Proof.
  revert s. induction l as [|c l IH]; intros [|d s]; simpl;
    try (split; [discriminate | discriminate]); [tauto|].
  rewrite andb_true_iff, IH. unfold ceq. rewrite Ascii.eqb_eq.
  split; [intros [-> ->]; reflexivity | intros [= -> ->]; auto].
Qed.

Lemma length_chars (s : string) : length (chars s) = String.length s.
Proof. induction s as [|c s IH]; simpl; [reflexivity | now rewrite IH]. Qed.

(** A pattern without [*], [?] and the opening bracket matches itself
    only. *)
Lemma fnmatch_plain (name pat : string) :
  forallb plain_char (chars pat) = true ->
  fnmatch name pat = true <-> name = pat.
Proof.
  intros Hplain. unfold fnmatch, translate.
  rewrite translate_loop_plain;
    [| rewrite length_chars; lia | exact Hplain].
  rewrite matches_literal. unfold chars. split; [|now intros ->].
  intros H. rewrite <- (string_of_list_ascii_of_string name), H.
  apply string_of_list_ascii_of_string.
Qed.

End FnmatchFacts.

(** ** Capability matcher and tool authorization *)

Module RegistryFacts.
Import PyStr Registry Statements Samples.

Lemma has_capability_iff (caps : list string) (R : string) :
  has_capability caps R = true <-> exists P, In P caps /\ grants P R.
Proof.
  unfold grants. induction caps as [|cap caps IH]; simpl.
  - split; [discriminate | intros (P & [] & _)].
  - destruct (String.eqb cap "*") eqn:Estar; simpl.
    { apply String.eqb_eq in Estar. split; [|reflexivity].
      intros _. exists cap. auto. }
    destruct (String.eqb cap "admin:*") eqn:Eadm; simpl.
    { apply String.eqb_eq in Eadm. split; [|reflexivity].
      intros _. exists cap. auto. }
    destruct (Fnmatch.fnmatch R cap) eqn:E1; simpl.
    { split; [|reflexivity]. intros _. exists cap. auto. }
    destruct (Fnmatch.fnmatch cap R) eqn:E2; simpl.
    { split; [|reflexivity]. intros _. exists cap. auto 6. }
    rewrite IH. apply String.eqb_neq in Estar, Eadm.
    split.
    + intros (P & HP & Hg). exists P. auto.
    + intros (P & [-> | HP] & Hg); [|exists P; auto].
      destruct Hg as [? | [? | [? | ?]]]; congruence.
Qed.

Lemma star_has_everything (caps : list string) (R : string) :
  has_capability ("*" :: caps) R = true.
Proof. reflexivity. Qed.

Section Tools.
Context {S : Type}.

Lemma enforce_tool_ok_iff (p : Principal) (t : ToolDef S) :
  enforce_tool p t = Ok tt <->
  (exists r, In r (required_caps t) /\ _principal_has p r = true)
  \/ (exists T, In T (tags t) /\ _principal_has p ("tag:" +:+ T) = true).
Proof.
  unfold enforce_tool.
  destruct (existsb _ (required_caps t)) eqn:Ereq.
  - split; [|reflexivity]. intros _. left.
    apply existsb_exists in Ereq. exact Ereq.
  - destruct (existsb _ (tags t)) eqn:Etag.
    + split; [|reflexivity]. intros _. right.
      apply existsb_exists in Etag. exact Etag.
    + split; [discriminate|].
      apply not_true_iff_false in Ereq, Etag.
      intros [H | H]; exfalso; [apply Ereq | apply Etag];
        apply existsb_exists; exact H.
Qed.

Lemma enforce_tool_total (p : Principal) (t : ToolDef S) :
  enforce_tool p t = Ok tt
  \/ enforce_tool p t
     = Err (HTTPException 403 (DStr "Not authorized for this tool")).
Proof.
  unfold enforce_tool.
  destruct (existsb _ (required_caps t)); [now left|].
  destruct (existsb _ (tags t)); [now left | now right].
Qed.

(** [register] never stores an empty list of required capabilities. *)
Lemma register_required_caps (tools : gmap string (ToolDef S)) (h : Handler S)
    (nm ds : option string) (rc tg : option (list string)) :
  required_caps (register tools h nm ds rc tg).1
  = match rc with
    | Some (c :: cs) => c :: cs
    | _ => ["tool:" +:+ name (register tools h nm ds rc tg).1]
    end.
Proof. destruct rc as [[|c cs]|]; reflexivity. Qed.

Lemma register_required_caps_nonempty (tools : gmap string (ToolDef S))
    (h : Handler S) (nm ds : option string) (rc tg : option (list string)) :
  required_caps (register tools h nm ds rc tg).1 <> [].
Proof. rewrite register_required_caps. now destruct rc as [[|c cs]|]. Qed.

Lemma star_enforce_nonempty (t : ToolDef S)
    (pid : string) (cons : list (string * value)) (dis : bool) :
  required_caps t <> [] ->
  enforce_tool (mkPrincipal pid ["*"] cons dis) t = Ok tt.
Proof.
  intros Hne. apply enforce_tool_ok_iff. left.
  destruct (required_caps t) as [|r rs]; [contradiction|].
  exists r. split; [now left | reflexivity].
Qed.

(** Invariant of the registry: every stored definition has a non-empty
    list of required capabilities. *)
Lemma registered_required_caps (tools : gmap string (ToolDef S)) :
  registered tools ->
  forall (n : string) (t : ToolDef S),
    tools !! n = Some t -> required_caps t <> [].
Proof.
  induction 1 as [|tools h nm ds rc tg _ IH]; intros n t Hl.
  - rewrite lookup_empty in Hl. discriminate.
  - unfold register in Hl. cbn [snd] in Hl.
    rewrite lookup_insert in Hl. case_decide.
    + injection Hl as <-.
      apply (register_required_caps_nonempty tools h nm ds rc tg).
    + now apply (IH n).
Qed.

End Tools.

(** C1. The capability matcher grants a requested capability [R] exactly
    when some pattern [P] of the principal is ["*"] or ["admin:*"], or
    [fnmatch R P] or [fnmatch P R] succeeds.  In particular a principal
    whose only capability is ["*"] has every requested capability, is
    authorized for every action and for every tool of a registry built
    by [register], and the pattern ["tool:math:*"] grants
    ["tool:math:add"]. *)
Theorem C1_principal_has_bidirectional :
  (forall (p : Principal) (R : string),
      _principal_has p R = true <->
      exists P, In P (capabilities p) /\
        (P = "*" \/ P = "admin:*"
         \/ Fnmatch.fnmatch R P = true \/ Fnmatch.fnmatch P R = true))
  /\ (forall pid cons dis (R : string),
        _principal_has (mkPrincipal pid ["*"] cons dis) R = true
        /\ authorize_action (mkPrincipal pid ["*"] cons dis) R = Ok tt)
  /\ (forall (S : Type) (tools : gmap string (ToolDef S)) (n : string)
        (t : ToolDef S) pid cons dis,
        registered tools -> get tools n = Ok t ->
        enforce_tool (mkPrincipal pid ["*"] cons dis) t = Ok tt)
  /\ (forall pid cons dis,
        _principal_has (mkPrincipal pid ["tool:math:*"] cons dis)
          "tool:math:add" = true).
Proof.
  repeat split.
  - intros H. apply has_capability_iff in H. exact H.
  - intros H. apply has_capability_iff. exact H.
  - intros S tools n t pid cons dis Hreg Hget.
    apply star_enforce_nonempty. unfold get in Hget.
    destruct (tools !! n) as [t'|] eqn:Hl; [|discriminate].
    injection Hget as ->.
    exact (registered_required_caps tools Hreg n t Hl).
Qed.

(** The match is tried in both directions: the narrow capability
    ["tool:math:add"] satisfies the requested pattern ["tool:math:*"],
    while unrelated capabilities do not satisfy each other. *)
Example narrow_capability_satisfies_pattern :
  has_capability ["tool:math:add"] "tool:math:*" = true
  /\ has_capability ["tool:math:add"] "tool:math:mult" = false
  /\ has_capability ["admin:*"] "tool:secret:read" = true.
Proof. repeat split. Qed.

(** C3. [enforce_tool] succeeds exactly when the principal satisfies some
    pattern of the tool's required capabilities or the capability
    ["tag:T"] of some tag [T] of the tool, and fails with 403 Forbidden
    otherwise; a tool registered with tags [["safe"]] and required
    capabilities [["tool:x"]] is authorized for a principal holding only
    ["tag:safe"], who does not satisfy ["tool:x"]. *)
Theorem C3_enforce_tool_two_gates :
  (forall (S : Type) (p : Principal) (t : ToolDef S),
      (enforce_tool p t = Ok tt <->
       (exists r, In r (required_caps t) /\ _principal_has p r = true)
       \/ (exists T, In T (tags t)
                     /\ _principal_has p ("tag:" +:+ T) = true))
      /\ (enforce_tool p t <> Ok tt ->
          enforce_tool p t
          = Err (HTTPException HTTP_403_FORBIDDEN
                   (DStr "Not authorized for this tool"))))
  /\ (forall (S : Type) (tools : gmap string (ToolDef S)) (h : Handler S)
        nm ds pid cons dis,
        let t := (register tools h nm ds (Some ["tool:x"]) (Some ["safe"])).1 in
        let p := mkPrincipal pid ["tag:safe"] cons dis in
        required_caps t = ["tool:x"] /\ tags t = ["safe"]
        /\ _principal_has p "tool:x" = false
        /\ enforce_tool p t = Ok tt).
Proof.
  split.
  - intros S p t. split; [apply enforce_tool_ok_iff|].
    intros Hne. destruct (enforce_tool_total p t); [contradiction | assumption].
  - intros. repeat split.
Qed.

End RegistryFacts.

(** ** Input contracts and calls *)

Module CallFacts.
Import PyStr Registry Statements Samples.

Section Validation.
Context {S : Type}.

Lemma validate_fields_error (args : gmap string value) (fs : list Field)
    (f : Field) (e : field_error) :
  In f fs -> validate_field args f = inl e ->
  In e (validate_fields args fs).1.
Proof.
  induction fs as [|g fs IH]; simpl; [tauto|].
  intros [-> | Hin] He.
  - destruct (validate_fields args fs) as [errs vals]. rewrite He. now left.
  - specialize (IH Hin He).
    destruct (validate_fields args fs) as [errs vals].
    destruct (validate_field args g); simpl in *; auto.
Qed.

Lemma validate_model_error (args : gmap string value) (fs : list Field)
    (e : field_error) :
  In e (validate_fields args fs).1 ->
  validate_model fs args = inl (validate_fields args fs).1.
Proof.
  unfold validate_model.
  destruct (validate_fields args fs) as [[|e' errs] vals]; simpl; [tauto|].
  reflexivity.
Qed.

(** A failed validation ends the call: 422 with the error list, and the
    world (invocations and handler state) is untouched. *)
Lemma call_invalid (t : ToolDef S) (args : gmap string value) (p : Principal)
    (w : World S) (f : Field) (e : field_error) :
  In f (input_model t) -> validate_field args f = inl e ->
  exists errs,
    call t args p w
    = (Err (HTTPException HTTP_422_UNPROCESSABLE_ENTITY (DErrors errs)), w)
    /\ In e errs.
Proof.
  intros Hin He.
  pose proof (validate_fields_error args _ f e Hin He) as Herr.
  exists (validate_fields args (input_model t)).1. split; [|exact Herr].
  unfold call. now rewrite (validate_model_error _ _ _ Herr).
Qed.

Lemma validate_field_missing (args : gmap string value) (f : Field) :
  f_default f = None -> args !! f_name f = None ->
  validate_field args f
  = inl {| err_type := ErrMissing; err_loc := f_name f |}.
Proof. intros Hd Ha. unfold validate_field. now rewrite Ha, Hd. Qed.




(** The contract synthesized by [register] never has a field [user], and
    has a field for every other parameter, [principal] included. *)
Lemma signature_fields_no_user (ps : list Param) :
  ~ In "user" (map f_name (signature_fields ps)).
Proof.
  induction ps as [|q ps IH]; simpl; [tauto|].
  destruct (String.eqb (p_name q) "user") eqn:E; [exact IH|].
  apply String.eqb_neq in E. simpl. intros [H | H]; [congruence | tauto].
Qed.

Lemma signature_fields_keeps (ps : list Param) (q : Param) :
  In q ps -> p_name q <> "user" ->
  In {| f_name := p_name q;
        f_ann := match p_hint q with Some a => a | None => Any end;
        f_default := p_default q |} (signature_fields ps).
Proof.
  induction ps as [|r ps IH]; simpl; [tauto|].
  intros [-> | Hin] Hne.
  - apply String.eqb_neq in Hne. rewrite Hne. now left.
  - destruct (String.eqb (p_name r) "user"); [|right]; auto.
Qed.

End Validation.

(** C2 (the code departs from the specification).  [register] leaves
    out of the input contract the parameter [user] only: a parameter
    [principal] becomes an ordinary field of the contract.  For the handler
    [whoami(principal)] the contract has the required field [principal],
    so a call without that argument is rejected with 422 and the handler
    does not run, whereas [whoami_legacy(user)] gets an empty contract
    and is called with the injected principal.  When the caller does
    supply [principal], the injected instance replaces it. *)
Theorem C2_principal_left_in_contract :
  (forall ps : list Param, ~ In "user" (map f_name (signature_fields ps)))
  /\ (forall (ps : list Param) (q : Param),
        In q ps -> p_name q = "principal" ->
        In "principal" (map f_name (signature_fields ps)))
  /\ (forall (S : Type) (tools : gmap string (ToolDef S)) (p : Principal)
        (w : World S) (v : value),
        let t := (register tools whoami None None None None).1 in
        let t' := (register tools whoami_legacy None None None None).1 in
        map f_name (input_model t) = ["principal"]
        /\ map f_default (input_model t) = [None]
        /\ call t ∅ p w
           = (Err (HTTPException HTTP_422_UNPROCESSABLE_ENTITY
                     (DErrors [ {| err_type := ErrMissing;
                                   err_loc := "principal" |} ])), w)
        /\ call t {[ "principal" := v ]} p w
           = (Ok {[ "value" := PVal (VStr (principal_id p)) ]},
              {| invocations :=
                   invocations w
                   ++ [("whoami", {[ "principal" := PPrincipal p ]})];
                 state := state w |})
        /\ input_model t' = []
        /\ call t' ∅ p w
           = (Ok {[ "value" := PVal (VStr (principal_id p)) ]},
              {| invocations :=
                   invocations w
                   ++ [("whoami_legacy", {[ "user" := PPrincipal p ]})];
                 state := state w |})).
Proof.
  split; [apply signature_fields_no_user|]. split.
  - intros ps q Hin Hq.
    assert (Hne : p_name q <> "user") by (rewrite Hq; discriminate).
    pose proof (signature_fields_keeps ps q Hin Hne) as H.
    apply (in_map f_name) in H. simpl in H. now rewrite Hq in H.
  - intros S tools p w v. cbv zeta. repeat split.
Qed.




(** C8. When the input contract has a required field that the argument
    mapping lacks, [call] fails with 422 and an error list naming the
    field, and the handler is not invoked: no invocation is recorded and
    the handlers' state is unchanged. *)
Theorem C8_missing_required_handler_not_run
    (S : Type) (t : ToolDef S) (args : gmap string value) (p : Principal)
    (w : World S) (f : Field) :
  In f (input_model t) ->
  f_default f = None ->
  args !! f_name f = None ->
  exists errs,
    call t args p w
    = (Err (HTTPException HTTP_422_UNPROCESSABLE_ENTITY (DErrors errs)), w)
    /\ In {| err_type := ErrMissing; err_loc := f_name f |} errs
    /\ invocations (call t args p w).2 = invocations w
    /\ state (call t args p w).2 = state w.
Proof.
  intros Hin Hd Ha.
  destruct (call_invalid t args p w f
              {| err_type := ErrMissing; err_loc := f_name f |} Hin
              (validate_field_missing args f Hd Ha)) as (errs & Hc & He).
  exists errs. rewrite Hc. auto.
Qed.

(** [add] called without [b]: rejected, and [add] has not run. *)
Lemma C8_missing_required_witness :
  let b := {| f_name := "b"; f_ann := strict_int; f_default := None |} in
  let args : gmap string value := {[ "a" := VInt 1 ]} in
  In b (input_model add_tool) /\ f_default b = None /\ args !! f_name b = None
  /\ exists errs,
      call add_tool args alice fresh_world
      = (Err (HTTPException HTTP_422_UNPROCESSABLE_ENTITY (DErrors errs)),
         fresh_world)
      /\ In {| err_type := ErrMissing; err_loc := f_name b |} errs
      /\ invocations (call add_tool args alice fresh_world).2
         = invocations fresh_world
      /\ state (call add_tool args alice fresh_world).2 = state fresh_world.
Proof.
  cbv zeta.
  assert (Hin : In {| f_name := "b"; f_ann := strict_int; f_default := None |}
                  (input_model add_tool)) by (simpl; auto).
  split; [exact Hin|]. split; [reflexivity|]. split; [reflexivity|].
  apply (C8_missing_required_handler_not_run nat add_tool {[ "a" := VInt 1 ]}
           alice fresh_world _ Hin); reflexivity.
Defined.

End CallFacts.

(** ** Random tokens *)

Module SecretsFacts.
Import PyStr Secrets.

Lemma alphabet_urlsafe (i : nat) :
  (i < 64)%nat -> is_urlsafe (nth i urlsafe_alphabet "A"%char) = true.
Proof.
  intros Hi.
  do 64 (destruct i as [|i]; [reflexivity|]). lia.
Qed.

Lemma b64char_urlsafe (n : N) : is_urlsafe (b64char n) = true.
Proof.
  unfold b64char. apply alphabet_urlsafe.
  assert (n mod 64 < 64)%N by (apply N.mod_lt; discriminate). lia.
Qed.

Lemma urlsafe_not_pad (c : ascii) : is_urlsafe c = true -> ceq c pad = false.
Proof.
  intros H. destruct (ceq c pad) eqn:E; [|reflexivity].
  apply Ascii.eqb_eq in E. subst c. discriminate H.
Qed.

Lemma lstrip_pad_pads (ps l : list ascii) :
  Forall (fun c => c = pad) ps -> lstrip_pad (ps ++ l) = lstrip_pad l.
Proof. induction 1 as [|c ps -> _ IH]; simpl; [reflexivity | exact IH]. Qed.

Lemma lstrip_pad_urlsafe (l : list ascii) :
  Forall (fun c => is_urlsafe c = true) l -> lstrip_pad l = l.
Proof.
  destruct 1 as [|c l Hc _]; simpl; [reflexivity|].
  now rewrite (urlsafe_not_pad c Hc).
Qed.

Lemma rstrip_pad_body (body ps : list ascii) :
  Forall (fun c => is_urlsafe c = true) body ->
  Forall (fun c => c = pad) ps ->
  rstrip_pad (body ++ ps) = body.
Proof.
  intros Hb Hp. unfold rstrip_pad. rewrite rev_app_distr.
  rewrite lstrip_pad_pads by (apply Forall_rev; exact Hp).
  rewrite lstrip_pad_urlsafe by (apply Forall_rev; exact Hb).
  apply rev_involutive.
Qed.

Lemma list_ind3 {A : Type} (P : list A -> Prop) :
  P [] -> (forall a, P [a]) -> (forall a b, P [a; b]) ->
  (forall a b c r, P r -> P (a :: b :: c :: r)) ->
  forall l, P l.
Proof.
  intros H0 H1 H2 H3 l.
  enough (H : P l /\ (forall a, P (a :: l)) /\ (forall a b, P (a :: b :: l)))
    by apply H.
  induction l as [|x l (IH0 & IH1 & IH2)]; [now auto|].
  split; [apply IH1|]. split; [intros a; apply IH2|].
  intros a b. apply H3. exact IH0.
Qed.

(** The encoding is URL-safe characters followed by padding only. *)
Lemma urlsafe_b64encode_shape (l : list Byte.byte) :
  exists body ps,
    urlsafe_b64encode l = body ++ ps
    /\ Forall (fun c => is_urlsafe c = true) body
    /\ Forall (fun c => c = pad) ps.
Proof.
  induction l as [|a|a b|a b c r (body & ps & Heq & Hb & Hp)] using list_ind3.
  - exists [], []. now repeat constructor.
  - eexists [_; _], [pad; pad]. split; [reflexivity|].
    split; repeat constructor; apply b64char_urlsafe.
  - eexists [_; _; _], [pad]. split; [reflexivity|].
    split; repeat constructor; apply b64char_urlsafe.
  - eexists (_ :: _ :: _ :: _ :: body), ps.
    split; [simpl; now rewrite Heq|].
    split; [|exact Hp]. repeat constructor; try apply b64char_urlsafe.
    exact Hb.
Qed.

Lemma token_urlsafe_chars (random_bytes : list Byte.byte) :
  Forall (fun c => is_urlsafe c = true) (chars (token_urlsafe random_bytes)).
Proof.
  unfold token_urlsafe, chars, of_chars.
  rewrite list_ascii_of_string_of_list_ascii.
  destruct (urlsafe_b64encode_shape random_bytes) as (body & ps & -> & Hb & Hp).
  now rewrite rstrip_pad_body.
Qed.

End SecretsFacts.

(** ** API-key store *)

Module AuthFacts.
Import PyStr Auth Statements Samples.

Section Store.
Variable hmac_sha256_hexdigest : string -> string -> string.
Variable isoformat : datetime -> string.
Variable fromisoformat : string -> option datetime.

Local Abbreviation resolve_loop := (Auth.resolve_loop isoformat fromisoformat).
Local Abbreviation resolve :=
  (Auth.resolve hmac_sha256_hexdigest isoformat fromisoformat).
Local Abbreviation revoke := (Auth.revoke hmac_sha256_hexdigest isoformat).
Local Abbreviation mint_key := (Auth.mint_key hmac_sha256_hexdigest isoformat).
Local Abbreviation mint_api_key :=
  (Auth.mint_api_key hmac_sha256_hexdigest isoformat).

Lemma hmac_secret_set (env_secret : string) :
  env_secret <> "" -> _hmac_secret env_secret = Ok env_secret.
Proof.
  intros H. unfold _hmac_secret, truthy.
  apply String.eqb_neq in H. now rewrite H.
Qed.

Lemma prefix_append (p s : string) : String.prefix p (p +:+ s) = true.
Proof.
  induction p as [|a p IH]; simpl; [now destruct s|].
  destruct (ascii_dec a a); [exact IH | congruence].
Qed.

Lemma truthy_true (s : string) : truthy s = true <-> s <> "".
Proof.
  unfold truthy. rewrite negb_true_iff. apply String.eqb_neq.
Qed.

(** Records with another digest are passed over. *)
Lemma resolve_loop_skip (digest : string) (now : Z) (pre rest : list StoredKey) :
  Forall (fun k => token_hmac k <> digest) pre ->
  resolve_loop digest now (pre ++ rest)
  = ((resolve_loop digest now rest).1, pre ++ (resolve_loop digest now rest).2).
Proof.
  induction 1 as [|k pre Hk _ IH]; simpl.
  - now destruct (resolve_loop digest now rest).
  - apply String.eqb_neq in Hk. rewrite Hk. simpl. now rewrite IH.
Qed.

Lemma resolve_loop_no_match (digest : string) (now : Z) (ks : list StoredKey) :
  Forall (fun k => token_hmac k <> digest) ks ->
  resolve_loop digest now ks = (unauthorized "Invalid API key", ks).
Proof.
  intros H. rewrite <- (app_nil_r ks) at 1.
  rewrite resolve_loop_skip by exact H. simpl. now rewrite app_nil_r.
Qed.

(** The outcome at the first record that carries the digest. *)
Lemma resolve_loop_first (digest : string) (now : Z)
    (pre post : list StoredKey) (k : StoredKey) :
  Forall (fun r => token_hmac r <> digest) pre ->
  token_hmac k = digest ->
  resolve_loop digest now (pre ++ k :: post)
  = ((resolve_loop digest now [k]).1,
     pre ++ match (resolve_loop digest now [k]).1 with
            | Ok _ => set_last_used k (isoformat (_utcnow now)) :: post
            | Err _ => k :: post
            end).
Proof.
  intros Hpre Hk. rewrite resolve_loop_skip by exact Hpre.
  apply String.eqb_eq in Hk. simpl. rewrite Hk. simpl.
  destruct (opt_truthy (revoked_at k)); [reflexivity|].
  destruct (expires_at k) as [exp|]; [|reflexivity].
  destruct (truthy exp); [|reflexivity].
  destruct (fromisoformat exp) as [d|]; [|reflexivity].
  destruct (dt_lt d (_utcnow now)) as [[|]|]; reflexivity.
Qed.

Lemma resolve_at_first (fs : Store) (env_secret token : string) (now : Z)
    (pre post : list StoredKey) (k : StoredKey) :
  env_secret <> "" ->
  keys fs = pre ++ k :: post ->
  Forall (fun r => token_hmac r <> hmac_sha256_hexdigest env_secret token) pre ->
  token_hmac k = hmac_sha256_hexdigest env_secret token ->
  resolve fs env_secret now token
  = match (resolve_loop (hmac_sha256_hexdigest env_secret token) now [k]).1 with
    | Err e => (Err e, fs)
    | Ok p =>
        (Ok p,
         if writable fs
         then {| keys := pre ++ set_last_used k (isoformat (_utcnow now)) :: post;
                 writable := true |}
         else fs)
    end.
Proof.
  intros Hs Hkeys Hpre Hk. unfold Auth.resolve.
  rewrite hmac_secret_set by exact Hs. unfold _hmac_digest.
  rewrite Hkeys, (resolve_loop_first _ now pre post k Hpre Hk).
  destruct (resolve_loop _ now [k]).1; [|reflexivity].
  unfold _write. now destruct (writable fs).
Qed.

(** C5, amended.  With the HMAC secret configured, [resolve] fails with
    401 "Invalid API key" when no record carries the token's digest.
    Otherwise the first record that carries it decides: 401 "API key
    revoked" when its [revoked_at] is set; else 401 "API key invalid
    expiry" when its [expires_at] is set and is not a timestamp; else 401
    "API key expired" when that timestamp (timezone-aware) is before the
    current time; and when [expires_at] is unset, or is a timezone-aware
    time not before the current time, a [Principal] with the record's
    [principal_id], [capabilities] and [constraints] and
    [disabled = false].  In the last case [last_used_at] of that record is
    stored when the file can be written and the store is left as it was
    when it cannot: the result is the same.  Failures leave the store
    unchanged. *)
Theorem C5_resolve_outcomes
    (fs : Store) (env_secret token : string) (now : Z) :
  env_secret <> "" ->
  let digest := hmac_sha256_hexdigest env_secret token in
  (Forall (fun k => token_hmac k <> digest) (keys fs) ->
   resolve fs env_secret now token = (unauthorized "Invalid API key", fs))
  /\ (forall (pre post : list StoredKey) (k : StoredKey),
        keys fs = pre ++ k :: post ->
        Forall (fun r => token_hmac r <> digest) pre ->
        token_hmac k = digest ->
        (opt_truthy (revoked_at k) = true ->
         resolve fs env_secret now token
         = (unauthorized "API key revoked", fs))
        /\ (forall exp : string,
              opt_truthy (revoked_at k) = false ->
              expires_at k = Some exp -> exp <> "" ->
              fromisoformat exp = None ->
              resolve fs env_secret now token
              = (unauthorized "API key invalid expiry", fs))
        /\ (forall (exp : string) (d : datetime) (off : Z),
              opt_truthy (revoked_at k) = false ->
              expires_at k = Some exp -> exp <> "" ->
              fromisoformat exp = Some d -> dt_offset d = Some off ->
              (dt_wall d - off < now)%Z ->
              resolve fs env_secret now token
              = (unauthorized "API key expired", fs))
        /\ (opt_truthy (revoked_at k) = false ->
            (opt_truthy (expires_at k) = false
             \/ exists (exp : string) (d : datetime) (off : Z),
                 expires_at k = Some exp /\ fromisoformat exp = Some d
                 /\ dt_offset d = Some off /\ (now <= dt_wall d - off)%Z) ->
            resolve fs env_secret now token
            = (Ok {| principal_id := sk_principal_id k;
                     capabilities := sk_capabilities k;
                     constraints := sk_constraints k;
                     disabled := false |},
               if writable fs
               then {| keys :=
                         pre ++ set_last_used k (isoformat (_utcnow now)) :: post;
                       writable := true |}
               else fs))).
Proof.
  intros Hs digest. split.
  - intros Hnone. unfold Auth.resolve.
    rewrite hmac_secret_set by exact Hs. unfold _hmac_digest.
    fold digest. now rewrite resolve_loop_no_match.
  - intros pre post k Hkeys Hpre Hk.
    pose proof (resolve_at_first fs env_secret token now pre post k
                  Hs Hkeys Hpre Hk) as R.
    fold digest in R. apply String.eqb_eq in Hk.
    simpl in R. rewrite Hk in R. simpl in R.
    repeat split.
    + intros Hrev. now rewrite Hrev in R.
    + intros exp Hrev Hexp Hne Hparse.
      apply truthy_true in Hne. now rewrite Hrev, Hexp, Hne, Hparse in R.
    + intros exp d off Hrev Hexp Hne Hparse Hoff Hlt.
      apply truthy_true in Hne. rewrite Hrev, Hexp, Hne, Hparse in R.
      unfold dt_lt in R. rewrite Hoff in R. simpl in R.
      replace (dt_wall d - off <? now - 0)%Z with true in R
        by (symmetry; apply Z.ltb_lt; lia).
      exact R.
    + intros Hrev Hlive. rewrite Hrev in R.
      destruct Hlive as [Hnoexp | (exp & d & off & Hexp & Hparse & Hoff & Hge)].
      * destruct (expires_at k) as [exp|]; [|exact R].
        simpl in Hnoexp. now rewrite Hnoexp in R.
      * rewrite Hexp, Hparse in R. unfold dt_lt in R.
        rewrite Hoff in R. simpl in R.
        replace (dt_wall d - off <? now - 0)%Z with false in R
          by (symmetry; apply Z.ltb_ge; lia).
        now destruct (truthy exp).
Qed.

(** The round trip of C6 where the code has it: with the HMAC secret
    configured, the store writable and the digest of the new token
    carried by no earlier record, minting a credential (under any prefix)
    and then resolving the token that was returned gives a principal with
    the [principal_id] and [capabilities] given to mint, for every expiry
    that is absent or a timezone-aware time not before the time of
    resolution that [fromisoformat] reads back from its [isoformat]
    text. *)
Theorem C6_mint_resolve_roundtrip
    (fs : Store) (env_secret : string) (now now' : Z)
    (random32 random10 : list Byte.byte)
    (pid : string) (caps : list string)
    (cons : option (list (string * value))) (exp : option datetime)
    (prefix : string) :
  env_secret <> "" ->
  writable fs = true ->
  Forall (fun k => token_hmac k
                   <> hmac_sha256_hexdigest env_secret
                        (prefix +:+ Secrets.token_urlsafe random32))
    (keys fs) ->
  (forall e : datetime, exp = Some e ->
     fromisoformat (isoformat e) = Some e
     /\ exists off : Z, dt_offset e = Some off /\ (now' <= dt_wall e - off)%Z) ->
  exists (token : string) (fs1 : Store) (p : Principal) (fs2 : Store),
    mint_key fs env_secret now random32 random10 pid caps cons exp prefix
    = (Ok token, fs1)
    /\ resolve fs1 env_secret now' token = (Ok p, fs2)
    /\ principal_id p = pid
    /\ capabilities p = caps.
Proof.
  intros Hs Hw Hfresh Hexp.
  unfold Auth.mint_key.
  rewrite hmac_secret_set by exact Hs. unfold _write. rewrite Hw.
  unfold _hmac_digest.
  set (token := prefix +:+ Secrets.token_urlsafe random32) in *.
  set (rec := {| key_id := "k_" +:+ Secrets.token_urlsafe random10;
                 token_hmac := hmac_sha256_hexdigest env_secret token;
                 sk_principal_id := pid; sk_capabilities := caps;
                 sk_constraints := match cons with
                                   | Some (c :: cs) => c :: cs
                                   | _ => []
                                   end;
                 created_at := isoformat (_utcnow now);
                 expires_at := option_map isoformat exp;
                 revoked_at := None; last_used_at := None |}).
  set (fs1 := {| keys := keys fs ++ [rec]; writable := true |}).
  assert (Hloop : (resolve_loop (hmac_sha256_hexdigest env_secret token) now'
                     [rec]).1
                  = Ok {| principal_id := pid; capabilities := caps;
                          constraints := sk_constraints rec;
                          disabled := false |}).
  { simpl. rewrite String.eqb_refl. simpl.
    destruct exp as [e|]; simpl; [|reflexivity].
    destruct (Hexp e eq_refl) as (Hparse & off & Hoff & Hge).
    destruct (truthy (isoformat e)); [|reflexivity].
    rewrite Hparse. unfold dt_lt. rewrite Hoff. simpl.
    replace (dt_wall e - off <? now' - 0)%Z with false
      by (symmetry; apply Z.ltb_ge; lia).
    reflexivity. }
  pose proof (resolve_at_first fs1 env_secret token now' (keys fs) [] rec
                Hs eq_refl Hfresh eq_refl) as R.
  rewrite Hloop in R.
  eexists token, fs1, _, _. split; [reflexivity|].
  split; [exact R|]. split; reflexivity.
Qed.

(** C6 (the code departs from the specification).  [mint_key] takes any
    [datetime] as expiry and stores its [isoformat] text as it is;
    [resolve] reads the text back and compares the time with the
    timezone-aware [_utcnow()], outside the [try] that guards the
    parsing.  For an expiry without timezone the comparison raises
    [TypeError] whatever the two times are: the token that mint returned
    is resolved at no time, though its key is neither revoked nor
    expired, and the store is left as mint wrote it. *)
Theorem C6_naive_expiry_breaks_roundtrip
    (fs : Store) (env_secret : string) (now now' : Z)
    (random32 random10 : list Byte.byte)
    (pid : string) (caps : list string)
    (cons : option (list (string * value))) (e : datetime)
    (prefix : string) :
  env_secret <> "" ->
  writable fs = true ->
  Forall (fun k => token_hmac k
                   <> hmac_sha256_hexdigest env_secret
                        (prefix +:+ Secrets.token_urlsafe random32))
    (keys fs) ->
  dt_offset e = None ->
  isoformat e <> "" ->
  fromisoformat (isoformat e) = Some e ->
  exists (token : string) (fs1 : Store),
    mint_key fs env_secret now random32 random10 pid caps cons (Some e) prefix
    = (Ok token, fs1)
    /\ resolve fs1 env_secret now' token
       = (Err (TypeError
                 "can't compare offset-naive and offset-aware datetimes"),
          fs1).
Proof.
  intros Hs Hw Hfresh Hnaive Hne Hparse.
  unfold Auth.mint_key.
  rewrite hmac_secret_set by exact Hs. unfold _write. rewrite Hw.
  unfold _hmac_digest.
  set (token := prefix +:+ Secrets.token_urlsafe random32) in *.
  set (rec := {| key_id := "k_" +:+ Secrets.token_urlsafe random10;
                 token_hmac := hmac_sha256_hexdigest env_secret token;
                 sk_principal_id := pid; sk_capabilities := caps;
                 sk_constraints := match cons with
                                   | Some (c :: cs) => c :: cs
                                   | _ => []
                                   end;
                 created_at := isoformat (_utcnow now);
                 expires_at := option_map isoformat (Some e);
                 revoked_at := None; last_used_at := None |}).
  set (fs1 := {| keys := keys fs ++ [rec]; writable := true |}).
  assert (Hloop : (resolve_loop (hmac_sha256_hexdigest env_secret token) now'
                     [rec]).1
                  = Err (TypeError
                           "can't compare offset-naive and offset-aware datetimes")).
  { simpl. rewrite String.eqb_refl. simpl.
    apply truthy_true in Hne. rewrite Hne, Hparse.
    unfold dt_lt. now rewrite Hnaive. }
  pose proof (resolve_at_first fs1 env_secret token now' (keys fs) [] rec
                Hs eq_refl Hfresh eq_refl) as R.
  rewrite Hloop in R.
  exists token, fs1. split; [reflexivity | exact R].
Qed.

Lemma revoke_loop_map (digest stamp : string) (ks : list StoredKey) :
  Auth.revoke_loop digest stamp ks
  = (map (revoke_one digest stamp) ks, existsb (revocable digest) ks).
Proof.
  induction ks as [|k ks IH]; simpl; [reflexivity|].
  rewrite IH. unfold revoke_one, revocable.
  destruct (String.eqb (token_hmac k) digest && negb (opt_truthy (revoked_at k)));
    reflexivity.
Qed.

Lemma revoke_one_id (digest stamp : string) (ks : list StoredKey) :
  existsb (revocable digest) ks = false ->
  map (revoke_one digest stamp) ks = ks.
Proof.
  induction ks as [|k ks IH]; simpl; [reflexivity|].
  intros H. apply orb_false_iff in H as [Hk Hks].
  unfold revoke_one at 1. rewrite Hk. now rewrite IH.
Qed.

Lemma revocable_after (digest stamp : string) (k : StoredKey) :
  stamp <> "" -> revocable digest (revoke_one digest stamp k) = false.
Proof.
  intros Hst. unfold revoke_one.
  destruct (revocable digest k) eqn:E; [|exact E].
  unfold revocable. simpl. apply truthy_true in Hst. rewrite Hst.
  apply andb_false_r.
Qed.

Lemma nothing_revocable_after (digest stamp : string) (ks : list StoredKey) :
  stamp <> "" ->
  existsb (revocable digest) (map (revoke_one digest stamp) ks) = false.
Proof.
  intros Hst. induction ks as [|k ks IH]; simpl; [reflexivity|].
  now rewrite revocable_after, IH.
Qed.

(** Once every record with the digest is revoked, [resolve] finds either
    no record or a revoked one. *)
Lemma resolve_loop_revoked (digest : string) (now : Z) (ks : list StoredKey) :
  existsb (revocable digest) ks = false ->
  exists msg, resolve_loop digest now ks = (unauthorized msg, ks).
Proof.
  induction ks as [|k ks IH]; simpl.
  - intros _. now eexists.
  - intros H. apply orb_false_iff in H as [Hk Hks].
    unfold revocable in Hk.
    destruct (String.eqb (token_hmac k) digest); simpl in *.
    + apply negb_false_iff in Hk. rewrite Hk. now eexists.
    + destruct (IH Hks) as (msg & ->). now eexists.
Qed.

(** C7, amended.  With the HMAC secret configured (and the clock text
    non-empty), [revoke] sets [revoked_at] on every record that carries
    the token's digest and is not revoked yet, not only on the first, and
    returns whether there was one.  When there is none, because the token
    is unknown or already revoked, it returns [false] without error and
    leaves the store as it is.  After a revoke that returned, revoking the
    same token again returns [false], and resolving it fails with 401. *)
Theorem C7_revoke_every_match
    (fs : Store) (env_secret token : string) (now now2 now3 : Z) :
  env_secret <> "" ->
  isoformat (_utcnow now) <> "" ->
  let digest := hmac_sha256_hexdigest env_secret token in
  let stamp := isoformat (_utcnow now) in
  (existsb (revocable digest) (keys fs) = false ->
   revoke fs env_secret now token = (Ok false, fs))
  /\ (writable fs = true ->
      exists fs',
        revoke fs env_secret now token
        = (Ok (existsb (revocable digest) (keys fs)), fs'))
  /\ (forall (b : bool) (fs' : Store),
        revoke fs env_secret now token = (Ok b, fs') ->
        b = existsb (revocable digest) (keys fs)
        /\ keys fs' = map (revoke_one digest stamp) (keys fs)
        /\ revoke fs' env_secret now2 token = (Ok false, fs')
        /\ exists msg,
            resolve fs' env_secret now3 token = (unauthorized msg, fs')).
Proof.
  intros Hs Hst digest stamp.
  assert (Hrev : forall f : Store,
             existsb (revocable digest) (keys f) = false ->
             forall n, revoke f env_secret n token = (Ok false, f)).
  { intros f Hf n. unfold Auth.revoke.
    rewrite hmac_secret_set by exact Hs. unfold _hmac_digest. fold digest.
    rewrite revoke_loop_map, Hf. reflexivity. }
  assert (Hres : forall f : Store,
             existsb (revocable digest) (keys f) = false ->
             exists msg, resolve f env_secret now3 token = (unauthorized msg, f)).
  { intros f Hf. unfold Auth.resolve.
    rewrite hmac_secret_set by exact Hs. unfold _hmac_digest. fold digest.
    destruct (resolve_loop_revoked digest now3 (keys f) Hf) as (msg & ->).
    now exists msg. }
  split; [intros H; now apply Hrev|].
  assert (Hunf : revoke fs env_secret now token
                 = if existsb (revocable digest) (keys fs)
                   then match _write fs (map (revoke_one digest stamp) (keys fs)) with
                        | Err e => (Err e, fs)
                        | Ok fs' => (Ok true, fs')
                        end
                   else (Ok false, fs)).
  { unfold Auth.revoke. rewrite hmac_secret_set by exact Hs.
    unfold _hmac_digest. fold digest stamp. now rewrite revoke_loop_map. }
  split.
  - intros Hw. rewrite Hunf. unfold _write. rewrite Hw.
    destruct (existsb (revocable digest) (keys fs)); now eexists.
  - intros b fs' Hret. rewrite Hunf in Hret.
    destruct (existsb (revocable digest) (keys fs)) eqn:Hany.
    + unfold _write in Hret. destruct (writable fs); [|discriminate].
      injection Hret as <- <-. simpl.
      pose proof (nothing_revocable_after digest stamp (keys fs) Hst) as Hno.
      split; [reflexivity|]. split; [reflexivity|].
      split; [apply Hrev | apply Hres]; exact Hno.
    + injection Hret as <- <-.
      split; [reflexivity|]. split; [now rewrite revoke_one_id|].
      split; [apply Hrev | apply Hres]; exact Hany.
Qed.

(** C10. With the HMAC secret configured and the store writable, the
    token that [mint_key] returns under its default prefix is the literal
    ["mcp_live_"] followed by the URL-safe base64 text of the random
    bytes, every character of which is in the URL-safe alphabet; the
    record appended to the store holds the HMAC digest of that whole
    token, prefix included, and no field holds the token. *)
Theorem C10_token_prefix_and_stored_digest
    (fs : Store) (env_secret : string) (now : Z)
    (random32 random10 : list Byte.byte)
    (pid : string) (caps : list string)
    (cons : option (list (string * value))) (exp : option datetime) :
  env_secret <> "" ->
  writable fs = true ->
  exists (token : string) (fs' : Store),
    mint_api_key fs env_secret now random32 random10 pid caps cons exp
    = (Ok token, fs')
    /\ token = "mcp_live_" +:+ Secrets.token_urlsafe random32
    /\ String.prefix "mcp_live_" token = true
    /\ Forall (fun c => Secrets.is_urlsafe c = true)
         (chars (Secrets.token_urlsafe random32))
    /\ keys fs'
       = keys fs
         ++ [ {| key_id := "k_" +:+ Secrets.token_urlsafe random10;
                 token_hmac := hmac_sha256_hexdigest env_secret token;
                 sk_principal_id := pid;
                 sk_capabilities := caps;
                 sk_constraints := match cons with
                                   | Some (c :: cs) => c :: cs
                                   | _ => []
                                   end;
                 created_at := isoformat (_utcnow now);
                 expires_at := option_map isoformat exp;
                 revoked_at := None;
                 last_used_at := None |} ].
Proof.
  intros Hs Hw.
  unfold Auth.mint_api_key, Auth.mint_key.
  rewrite hmac_secret_set by exact Hs. unfold _write. rewrite Hw.
  unfold _hmac_digest, default_prefix.
  eexists _, _. split; [reflexivity|]. split; [reflexivity|].
  split; [apply prefix_append|].
  split; [apply SecretsFacts.token_urlsafe_chars | reflexivity].
Qed.

End Store.

Section External.
Variable json_loads : string -> option value.

(** C9, amended.  In external mode the resolver fails with 401 "Missing
    X-MCP-Principal" when the identity header is absent or blank (empty
    once surrounding whitespace is removed).  Otherwise it fails with 401
    "Invalid X-MCP-Constraints" when the constraints header is not blank
    and is not valid JSON; a constraints header that is absent or blank
    is not parsed.  In all other cases it returns a [Principal]: the
    trimmed identity, the trimmed non-blank entries of the comma-separated
    capabilities header, the parsed constraints when they are a JSON
    object and no constraints otherwise, [disabled = false]. *)
Theorem C9_external_principal (headers : gmap string string) :
  let pid := strip (header headers EXT_PRINCIPAL_HEADER) in
  let caps_raw := strip (header headers EXT_CAPABILITIES_HEADER) in
  let cons_raw := strip (header headers EXT_CONSTRAINTS_HEADER) in
  let caps :=
    map strip (filter (fun c => truthy (strip c) = true) (split "," caps_raw)) in
  (pid = "" ->
   _principal_external json_loads headers
   = unauthorized "Missing X-MCP-Principal")
  /\ (pid <> "" -> cons_raw <> "" -> json_loads cons_raw = None ->
      _principal_external json_loads headers
      = unauthorized "Invalid X-MCP-Constraints")
  /\ (pid <> "" -> cons_raw = "" ->
      _principal_external json_loads headers
      = Ok {| principal_id := pid; capabilities := caps;
              constraints := []; disabled := false |})
  /\ (forall v : value,
        pid <> "" -> cons_raw <> "" -> json_loads cons_raw = Some v ->
        _principal_external json_loads headers
        = Ok {| principal_id := pid; capabilities := caps;
                constraints := match v with VDict kvs => kvs | _ => [] end;
                disabled := false |}).
Proof.
  cbv zeta. unfold _principal_external. repeat split.
  - intros ->. reflexivity.
  - intros Hp Hc Hj. apply truthy_true in Hp, Hc.
    now rewrite Hp, Hc, Hj.
  - intros Hp Hc. apply truthy_true in Hp. rewrite Hp, Hc. reflexivity.
  - intros v Hp Hc Hj. apply truthy_true in Hp, Hc.
    rewrite Hp, Hc, Hj. now destruct v.
Qed.

End External.

(** C9 does not hold as the specification states it: a constraints
    header that is present and holds no JSON document (an empty value, or
    a blank one) does not make the resolver fail. *)
Lemma C9_blank_constraints_header_accepted :
  let h1 : gmap string string :=
    {[ "X-MCP-Principal" := "alice"; "X-MCP-Constraints" := "" ]} in
  let h2 : gmap string string :=
    {[ "X-MCP-Principal" := "alice"; "X-MCP-Constraints" := " " ]} in
  h1 !! EXT_CONSTRAINTS_HEADER = Some ""
  /\ h2 !! EXT_CONSTRAINTS_HEADER = Some " "
  /\ sample_json_loads "" = None
  /\ sample_json_loads " " = None
  /\ _principal_external sample_json_loads h1
     = Ok {| principal_id := "alice"; capabilities := [];
             constraints := []; disabled := false |}
  /\ _principal_external sample_json_loads h2
     = Ok {| principal_id := "alice"; capabilities := [];
             constraints := []; disabled := false |}.
Proof. cbv zeta. repeat split. Qed.

(** A constraints header that is not JSON, and a request without
    identity. *)
Lemma C9_external_principal_witness :
  let h : gmap string string :=
    {[ "X-MCP-Principal" := "alice"; "X-MCP-Constraints" := "{oops" ]} in
  (strip (header h EXT_PRINCIPAL_HEADER) <> ""
   /\ strip (header h EXT_CONSTRAINTS_HEADER) <> ""
   /\ sample_json_loads (strip (header h EXT_CONSTRAINTS_HEADER)) = None
   /\ _principal_external sample_json_loads h
      = unauthorized "Invalid X-MCP-Constraints")
  /\ (strip (header (∅ : gmap string string) EXT_PRINCIPAL_HEADER) = ""
      /\ _principal_external sample_json_loads ∅
         = unauthorized "Missing X-MCP-Principal").
Proof.
  cbv zeta.
  assert (H1 : strip (header ({[ "X-MCP-Principal" := "alice";
                                 "X-MCP-Constraints" := "{oops" ]}
                              : gmap string string) EXT_PRINCIPAL_HEADER) <> "")
    by (vm_compute; discriminate).
  assert (H2 : strip (header ({[ "X-MCP-Principal" := "alice";
                                 "X-MCP-Constraints" := "{oops" ]}
                              : gmap string string) EXT_CONSTRAINTS_HEADER) <> "")
    by (vm_compute; discriminate).
  split.
  - split; [exact H1|]. split; [exact H2|]. split; [reflexivity|].
    exact (proj1 (proj2 (C9_external_principal sample_json_loads _))
             H1 H2 eq_refl).
  - split; [reflexivity|].
    exact (proj1 (C9_external_principal sample_json_loads ∅) eq_refl).
Defined.

(** A request with identity, capabilities and constraints headers. *)
Lemma C9_external_principal_example :
  _principal_external sample_json_loads
    {[ "X-MCP-Principal" := " alice ";
       "X-MCP-Capabilities" := "tool:math:*, ,tools:call ";
       "X-MCP-Constraints" := "{}" ]}
  = Ok {| principal_id := "alice";
          capabilities := ["tool:math:*"; "tools:call"];
          constraints := []; disabled := false |}.
Proof. reflexivity. Qed.

(** Minting for ["demo"] on an empty store and resolving the token. *)
Lemma C6_mint_resolve_witness :
  let fs := {| keys := []; writable := true |} in
  "s3cret" <> "" /\ writable fs = true
  /\ exists (token : string) (fs1 : Store) (p : Principal) (fs2 : Store),
      Auth.mint_key sample_digest sample_isoformat fs "s3cret" sample_now
        sample_random32 sample_random10 "demo"
        ["tool:math:*"; "tools:call"] None (Some sample_time) default_prefix
      = (Ok token, fs1)
      /\ Auth.resolve sample_digest sample_isoformat sample_fromisoformat
           fs1 "s3cret" sample_now token = (Ok p, fs2)
      /\ principal_id p = "demo"
      /\ capabilities p = ["tool:math:*"; "tools:call"].
Proof.
  cbv zeta. split; [discriminate|]. split; [reflexivity|].
  apply (C6_mint_resolve_roundtrip sample_digest sample_isoformat
           sample_fromisoformat {| keys := []; writable := true |}
           "s3cret" sample_now sample_now sample_random32 sample_random10 "demo"
           ["tool:math:*"; "tools:call"] None (Some sample_time)
           default_prefix).
  - discriminate.
  - reflexivity.
  - apply List.Forall_nil.
  - intros e [= <-]. split; [reflexivity|].
    exists 0%Z. split; [reflexivity|]. simpl. lia.
Defined.

(** A key minted in 2026 to expire at midnight of 1 January 2030, the
    expiry given without timezone: the token is not resolved. *)
Lemma C6_naive_expiry_witness :
  let fs := {| keys := []; writable := true |} in
  "s3cret" <> "" /\ writable fs = true
  /\ dt_offset sample_naive_time = None
  /\ table_isoformat sample_naive_time = "2030-01-01T00:00:00"
  /\ table_fromisoformat "2030-01-01T00:00:00" = Some sample_naive_time
  /\ (sample_now < dt_wall sample_naive_time)%Z
  /\ exists (token : string) (fs1 : Store),
      Auth.mint_key sample_digest table_isoformat fs "s3cret" sample_now
        sample_random32 sample_random10 "demo"
        ["tool:math:*"; "tools:call"] None (Some sample_naive_time)
        default_prefix
      = (Ok token, fs1)
      /\ Auth.resolve sample_digest table_isoformat table_fromisoformat
           fs1 "s3cret" sample_now token
         = (Err (TypeError
                   "can't compare offset-naive and offset-aware datetimes"),
            fs1).
Proof.
  cbv zeta. split; [discriminate|]. split; [reflexivity|].
  split; [reflexivity|]. split; [reflexivity|]. split; [reflexivity|].
  split; [reflexivity|].
  apply (C6_naive_expiry_breaks_roundtrip sample_digest table_isoformat
           table_fromisoformat {| keys := []; writable := true |}
           "s3cret" sample_now sample_now sample_random32 sample_random10
           "demo" ["tool:math:*"; "tools:call"] None sample_naive_time
           default_prefix).
  - discriminate.
  - reflexivity.
  - apply List.Forall_nil.
  - reflexivity.
  - discriminate.
  - reflexivity.
Defined.

(** C7 does not hold as the specification states it: with two unrevoked
    records that carry the token's digest, [revoke] sets [revoked_at] on
    the second as well as on the first. *)
Lemma C7_second_match_revoked_too :
  let d := sample_digest "s3cret" "mcp_live_abc" in
  let k1 := sample_key "k_1" d "demo" None None in
  let k2 := sample_key "k_2" d "other" None None in
  let stamp := sample_isoformat (_utcnow sample_now) in
  token_hmac k1 = d /\ token_hmac k2 = d
  /\ revoked_at k1 = None /\ revoked_at k2 = None
  /\ Auth.revoke sample_digest sample_isoformat
       {| keys := [k1; k2]; writable := true |} "s3cret" sample_now "mcp_live_abc"
     = (Ok true,
        {| keys := [set_revoked k1 stamp; set_revoked k2 stamp];
           writable := true |})
  /\ revoked_at (set_revoked k2 stamp) = Some stamp.
Proof. cbv zeta. repeat split. Qed.

(** Revoking the token of the one record of a store. *)
Lemma C7_revoke_every_match_witness :
  let d := sample_digest "s3cret" "mcp_live_abc" in
  let fs := {| keys := [sample_key "k_1" d "demo" None None];
               writable := true |} in
  "s3cret" <> "" /\ sample_isoformat (_utcnow sample_now) <> ""
  /\ forall (b : bool) (fs' : Store),
      Auth.revoke sample_digest sample_isoformat fs "s3cret" sample_now "mcp_live_abc"
      = (Ok b, fs') ->
      b = true
      /\ keys fs' = map (revoke_one d (sample_isoformat (_utcnow sample_now))) (keys fs)
      /\ Auth.revoke sample_digest sample_isoformat fs' "s3cret" sample_now
           "mcp_live_abc" = (Ok false, fs')
      /\ exists msg,
          Auth.resolve sample_digest sample_isoformat sample_fromisoformat
            fs' "s3cret" sample_now "mcp_live_abc" = (unauthorized msg, fs').
Proof.
  cbv zeta.
  assert (Hs : "s3cret" <> "") by discriminate.
  assert (Ht : sample_isoformat (_utcnow sample_now) <> "") by discriminate.
  split; [exact Hs|]. split; [exact Ht|].
  exact (proj2 (proj2 (C7_revoke_every_match sample_digest sample_isoformat
                         sample_fromisoformat
                         {| keys := [sample_key "k_1"
                                       (sample_digest "s3cret" "mcp_live_abc")
                                       "demo" None None];
                            writable := true |}
                         "s3cret" "mcp_live_abc" sample_now sample_now sample_now
                         Hs Ht))).
Defined.

(** A token minted on an empty store. *)
Lemma C10_token_prefix_witness :
  let fs := {| keys := []; writable := true |} in
  "s3cret" <> "" /\ writable fs = true
  /\ exists (token : string) (fs' : Store),
      Auth.mint_api_key sample_digest sample_isoformat fs "s3cret" sample_now
        sample_random32 sample_random10 "demo" ["tools:call"] None None
      = (Ok token, fs')
      /\ token = "mcp_live_" +:+ Secrets.token_urlsafe sample_random32
      /\ String.prefix "mcp_live_" token = true
      /\ Forall (fun c => Secrets.is_urlsafe c = true)
           (chars (Secrets.token_urlsafe sample_random32))
      /\ keys fs'
         = keys fs
           ++ [ {| key_id := "k_" +:+ Secrets.token_urlsafe sample_random10;
                   token_hmac := sample_digest "s3cret" token;
                   sk_principal_id := "demo";
                   sk_capabilities := ["tools:call"];
                   sk_constraints := [];
                   created_at := sample_isoformat (_utcnow sample_now);
                   expires_at := None;
                   revoked_at := None;
                   last_used_at := None |} ].
Proof.
  cbv zeta. split; [discriminate|]. split; [reflexivity|].
  apply (C10_token_prefix_and_stored_digest sample_digest sample_isoformat
           {| keys := []; writable := true |} "s3cret" sample_now
           sample_random32 sample_random10 "demo" ["tools:call"] None None).
  - discriminate.
  - reflexivity.
Defined.

(** C5 does not hold as the specification states it: the record that
    carries the token's digest is not revoked and its [expires_at] is no
    time in the past (it is no time at all), yet [resolve] fails with 401
    instead of returning the principal. *)
Lemma C5_unparsable_expiry_rejected :
  let k := sample_key "k_1" (sample_digest "s3cret" "mcp_live_abc") "demo"
             (Some "next tuesday") None in
  let fs := {| keys := [k]; writable := true |} in
  token_hmac k = sample_digest "s3cret" "mcp_live_abc"
  /\ revoked_at k = None
  /\ sample_fromisoformat "next tuesday" = None
  /\ Auth.resolve sample_digest sample_isoformat sample_fromisoformat
       fs "s3cret" sample_now "mcp_live_abc"
     = (unauthorized "API key invalid expiry", fs).
Proof. cbv zeta. repeat split. Qed.

(** A live record resolves, and resolves to the same principal when the
    store cannot be written. *)
Lemma C5_resolve_outcomes_witness :
  let k := sample_key "k_1" (sample_digest "s3cret" "mcp_live_abc") "demo"
             None None in
  "s3cret" <> ""
  /\ forall wr : bool,
      Auth.resolve sample_digest sample_isoformat sample_fromisoformat
        {| keys := [k]; writable := wr |} "s3cret" sample_now "mcp_live_abc"
      = (Ok {| principal_id := "demo"; capabilities := ["tools:call"];
               constraints := []; disabled := false |},
         if wr
         then {| keys := [set_last_used k (sample_isoformat (_utcnow sample_now))];
                 writable := true |}
         else {| keys := [k]; writable := wr |}).
Proof.
  cbv zeta.
  assert (Hs : "s3cret" <> "") by discriminate.
  split; [exact Hs|]. intros wr.
  apply (proj2 (C5_resolve_outcomes sample_digest sample_isoformat
                  sample_fromisoformat
                  {| keys := [sample_key "k_1"
                                (sample_digest "s3cret" "mcp_live_abc")
                                "demo" None None];
                     writable := wr |} "s3cret" "mcp_live_abc" sample_now Hs)
           [] [] _ eq_refl (List.Forall_nil _) eq_refl).
  - reflexivity.
  - left. reflexivity.
Defined.

End AuthFacts.

(** * Further properties of the code *)

(** ** Registry and capability matcher *)

Module MoreRegistryFacts.
Import PyStr Registry Statements Samples.

Lemma chars_append (a b : string) : chars (a +:+ b) = chars a ++ chars b.
Proof. induction a as [|c a IH]; simpl; [reflexivity | now rewrite IH]. Qed.

Lemma chars_inj (a b : string) : chars a = chars b -> a = b.
Proof.
  intros H. rewrite <- (string_of_list_ascii_of_string a).
  rewrite <- (string_of_list_ascii_of_string b). unfold chars in H.
  now rewrite H.
Qed.

Lemma prefix_split (p s : string) :
  String.prefix p s = true -> exists r, s = p +:+ r.
Proof.
  revert s. induction p as [|a p IH]; intros s H.
  - exists s. reflexivity.
  - destruct s as [|b s]; simpl in H; [discriminate|].
    destruct (ascii_dec a b) as [->|]; [|discriminate].
    destruct (IH s H) as (r & ->). now exists r.
Qed.

Lemma translate_loop_prefix_star (l : list ascii) :
  forall fuel : nat,
    length l < fuel -> forallb plain_char l = true ->
    Fnmatch.translate_loop fuel (l ++ ["*"%char]) false
    = map Fnmatch.Lit l ++ [Fnmatch.Star].
Proof.
  induction l as [|c l IH]; intros fuel Hlen Hplain.
  - destruct fuel as [|fuel]; [simpl in Hlen; lia|].
    simpl. now destruct fuel.
  - destruct fuel as [|fuel]; simpl in Hlen; [lia|].
    simpl in Hplain. apply andb_true_iff in Hplain as [Hc Hl].
    unfold plain_char in Hc. apply negb_true_iff in Hc.
    apply orb_false_iff in Hc as [Hc H3].
    apply orb_false_iff in Hc as [H1 H2].
    simpl. rewrite H1, H2, H3. f_equal. apply IH; [lia | exact Hl].
Qed.

Lemma matches_prefix_star (l s : list ascii) :
  Fnmatch.matches (map Fnmatch.Lit l ++ [Fnmatch.Star]) (l ++ s) = true.
Proof.
  induction l as [|c l IH]; simpl.
  - apply FnmatchFacts.matches_star.
  - unfold ceq. rewrite Ascii.eqb_refl. exact IH.
Qed.

(** A plain prefix followed by a star matches every name that starts
    with the prefix. *)
Lemma fnmatch_prefix_star (p r : string) :
  forallb plain_char (chars p) = true ->
  Fnmatch.fnmatch (p +:+ r) (p +:+ "*") = true.
Proof.
  intros Hp. unfold Fnmatch.fnmatch, Fnmatch.translate.
  rewrite !chars_append. change (chars "*") with ["*"%char].
  rewrite translate_loop_prefix_star; [apply matches_prefix_star | | exact Hp].
  rewrite <- FnmatchFacts.length_chars, chars_append, length_app. simpl. lia.
Qed.

Lemma has_capability_In (caps : list string) (P R : string) :
  In P caps -> grants P R -> has_capability caps R = true.
Proof. intros HP Hg. apply RegistryFacts.has_capability_iff. eauto. Qed.

Section Tools.
Context {S : Type}.

Lemma register_insert (tools : gmap string (ToolDef S)) (h : Handler S)
    (nm ds : option string) (rc tg : option (list string)) :
  (register tools h nm ds rc tg).2
  = <[name (register tools h nm ds rc tg).1 := (register tools h nm ds rc tg).1]>
      tools.
Proof. reflexivity. Qed.

(** X1. [get] after [register] returns the definition just stored, under
    the name taken from the override or, when that is missing or empty,
    from the function; a definition stored earlier under that name is
    replaced, the other names are untouched, and a name that was never
    registered is a [KeyError]. *)
Theorem X1_register_then_get (tools : gmap string (ToolDef S)) (h : Handler S)
    (nm ds : option string) (rc tg : option (list string)) :
  let t := (register tools h nm ds rc tg).1 in
  let tools' := (register tools h nm ds rc tg).2 in
  name t = (if truthy (opt_str nm) then opt_str nm else fn_name h)
  /\ get tools' (name t) = Ok t
  /\ (forall n : string, n <> name t -> get tools' n = get tools n)
  /\ (forall n : string,
        n <> name t -> tools !! n = None -> get tools' n = Err (KeyError n))
  /\ get (∅ : gmap string (ToolDef S)) (name t) = Err (KeyError (name t)).
Proof.
  cbv zeta. split; [reflexivity|]. rewrite register_insert.
  set (t := (register tools h nm ds rc tg).1). split.
  - unfold get. now rewrite lookup_insert_eq.
  - split; [|split].
    + intros n Hn. unfold get. now rewrite lookup_insert_ne by congruence.
    + intros n Hn Hnone. unfold get.
      rewrite lookup_insert_ne by congruence. now rewrite Hnone.
    + reflexivity.
Qed.

(** X2. A tool registered without required capabilities (none given, or
    an empty list) requires ["tool:<name>"], and when its name has no
    pattern character a principal holding exactly that capability is
    authorized for it. *)
Theorem X2_default_capability_authorizes
    (tools : gmap string (ToolDef S)) (h : Handler S)
    (nm ds : option string) (rc tg : option (list string))
    (pid : string) (cstr : list (string * value)) (dis : bool) :
  rc = None \/ rc = Some [] ->
  forallb plain_char (chars (name (register tools h nm ds rc tg).1)) = true ->
  let t := (register tools h nm ds rc tg).1 in
  required_caps t = ["tool:" +:+ name t]
  /\ enforce_tool (mkPrincipal pid ["tool:" +:+ name t] cstr dis) t = Ok tt.
Proof.
  intros Hrc Hplain. cbv zeta.
  assert (Hreq : required_caps (register tools h nm ds rc tg).1
                 = ["tool:" +:+ name (register tools h nm ds rc tg).1])
    by (destruct Hrc as [-> | ->]; reflexivity).
  split; [exact Hreq|].
  apply RegistryFacts.enforce_tool_ok_iff. left.
  eexists. rewrite Hreq. split; [now left|].
  unfold _principal_has. cbn [capabilities].
  apply (has_capability_In _ ("tool:" +:+ name (register tools h nm ds rc tg).1));
    [now left|].
  right. right. left. apply FnmatchFacts.fnmatch_plain; [|reflexivity].
  rewrite chars_append. rewrite forallb_app. now rewrite Hplain.
Qed.

End Tools.

(** A tool named [add], registered with no capabilities of its own. *)
Lemma X2_default_capability_witness :
  let t := (register (∅ : gmap string (ToolDef nat)) add None None
              (Some []) None).1 in
  (Some [] : option (list string)) = Some []
  /\ forallb plain_char (chars (name t)) = true
  /\ required_caps t = ["tool:add"]
  /\ enforce_tool (mkPrincipal "bob" ["tool:add"] [] false) t = Ok tt.
Proof.
  cbv zeta. split; [reflexivity|]. split; [reflexivity|].
  exact (X2_default_capability_authorizes ∅ add None None (Some []) None
           "bob" [] false (or_intror eq_refl) eq_refl).
Defined.

(** X3. Because the match is also tried from the capability to the
    request, the requested capability ["*"] is granted to every principal
    that holds any capability at all, and to no principal without
    capabilities; so a tool that requires ["*"] is open to every
    principal with a non-empty capability list. *)
Theorem X3_star_request_granted_to_any_holder :
  (forall caps : list string, has_capability caps "*" = true <-> caps <> [])
  /\ (forall (S : Type) (t : ToolDef S) (p : Principal),
        In "*" (required_caps t) -> capabilities p <> [] ->
        enforce_tool p t = Ok tt)
  /\ (forall R : string, has_capability [] R = false).
Proof.
  assert (H : forall caps : list string,
             has_capability caps "*" = true <-> caps <> []).
  { intros [|c caps]; simpl; [split; [discriminate | congruence]|].
    split; [discriminate|]. intros _.
    destruct (String.eqb c "*" || String.eqb c "admin:*"); [reflexivity|].
    now rewrite (FnmatchFacts.fnmatch_star c), orb_true_r. }
  split; [exact H|]. split; [|reflexivity].
  intros S t p Hin Hne. apply RegistryFacts.enforce_tool_ok_iff. left.
  exists "*". split; [exact Hin|]. now apply H.
Qed.

(** X4. The matcher looks at the capabilities as a set: a principal whose
    capabilities include those of another is granted whatever the other
    is, for requested capabilities and for tools, and two capability
    lists with the same elements (in any order, with any repetitions)
    are granted the same. *)
Theorem X4_capabilities_monotone :
  (forall (caps caps' : list string) (R : string),
      (forall c, In c caps -> In c caps') ->
      has_capability caps R = true -> has_capability caps' R = true)
  /\ (forall (caps caps' : list string) (R : string),
        (forall c, In c caps <-> In c caps') ->
        has_capability caps R = has_capability caps' R)
  /\ (forall (S : Type) (t : ToolDef S) (p p' : Principal),
        (forall c, In c (capabilities p) -> In c (capabilities p')) ->
        enforce_tool p t = Ok tt -> enforce_tool p' t = Ok tt).
Proof.
  assert (Hmono : forall (caps caps' : list string) (R : string),
             (forall c, In c caps -> In c caps') ->
             has_capability caps R = true -> has_capability caps' R = true).
  { intros caps caps' R Hincl H.
    apply RegistryFacts.has_capability_iff in H as (P & HP & Hg).
    apply RegistryFacts.has_capability_iff. exists P. auto. }
  split; [exact Hmono|]. split.
  - intros caps caps' R Heq.
    destruct (has_capability caps R) eqn:E1, (has_capability caps' R) eqn:E2;
      try reflexivity.
    + rewrite (Hmono caps caps' R) in E2; [discriminate | apply Heq | exact E1].
    + rewrite (Hmono caps' caps R) in E1; [discriminate | apply Heq | exact E2].
  - intros S t p p' Hincl H.
    apply RegistryFacts.enforce_tool_ok_iff in H.
    apply RegistryFacts.enforce_tool_ok_iff.
    destruct H as [(r & Hr & Hh) | (T & HT & Hh)]; [left | right];
      eexists; (split; [eassumption|]);
      unfold _principal_has in *; eapply Hmono; eauto.
Qed.

(** X5. Without pattern characters the matcher is plain membership: when
    neither the requested capability nor any capability held contains
    [*], [?] or an opening bracket, the request is granted exactly when
    it is one of the capabilities held. *)
Theorem X5_plain_capabilities_exact (caps : list string) (R : string) :
  forallb plain_char (chars R) = true ->
  Forall (fun c => forallb plain_char (chars c) = true) caps ->
  has_capability caps R = true <-> In R caps.
Proof.
  intros HR Hcaps. rewrite RegistryFacts.has_capability_iff. split.
  - intros (P & HP & Hg).
    assert (HPp : forallb plain_char (chars P) = true)
      by (rewrite Forall_forall in Hcaps; apply Hcaps;
          now apply list_elem_of_In).
    destruct Hg as [-> | [-> | [Hm | Hm]]]; try discriminate HPp.
    + apply FnmatchFacts.fnmatch_plain in Hm; [now subst | exact HPp].
    + apply FnmatchFacts.fnmatch_plain in Hm; [now subst | exact HR].
  - intros Hin. exists R. split; [exact Hin|].
    right. right. left. now apply FnmatchFacts.fnmatch_plain.
Qed.

(** A principal with two plain capabilities. *)
Lemma X5_plain_capabilities_witness :
  forallb plain_char (chars "tools:call") = true
  /\ Forall (fun c => forallb plain_char (chars c) = true)
       ["tools:list"; "tools:call"]
  /\ (has_capability ["tools:list"; "tools:call"] "tools:call" = true
      <-> In "tools:call" ["tools:list"; "tools:call"]).
Proof.
  assert (H1 : forallb plain_char (chars "tools:call") = true) by reflexivity.
  assert (H2 : Forall (fun c => forallb plain_char (chars c) = true)
                 ["tools:list"; "tools:call"])
    by (repeat constructor).
  split; [exact H1|]. split; [exact H2|].
  exact (X5_plain_capabilities_exact ["tools:list"; "tools:call"]
           "tools:call" H1 H2).
Defined.

(** X6. Prefix grants: a capability made of a plain prefix and a final
    star grants every requested capability that starts with the prefix;
    in particular a principal holding ["tag:*"] is authorized for every
    tool that has at least one tag. *)
Theorem X6_prefix_star_grants (caps : list string) (P R : string) :
  forallb plain_char (chars P) = true ->
  In (P +:+ "*") caps ->
  String.prefix P R = true ->
  has_capability caps R = true
  /\ (forall (S : Type) (t : ToolDef S) pid cstr dis,
        P = "tag:" -> tags t <> [] ->
        enforce_tool (mkPrincipal pid caps cstr dis) t = Ok tt).
Proof.
  intros HP Hin Hpre.
  assert (Hall : forall r : string, has_capability caps (P +:+ r) = true).
  { intros r. apply (has_capability_In caps (P +:+ "*")); [exact Hin|].
    right. right. left. now apply fnmatch_prefix_star. }
  split.
  - destruct (prefix_split P R Hpre) as (r & ->). apply Hall.
  - intros S t pid cstr dis -> Htags.
    apply RegistryFacts.enforce_tool_ok_iff. right.
    destruct (tags t) as [|T Ts]; [contradiction|].
    exists T. split; [now left|]. apply Hall.
Qed.

(** The demo key's capability ["tool:math:*"] and the request
    ["tool:math:div"]. *)
Lemma X6_prefix_star_witness :
  forallb plain_char (chars "tool:math:") = true
  /\ In ("tool:math:" +:+ "*") ["tools:call"; "tool:math:*"]
  /\ String.prefix "tool:math:" "tool:math:div" = true
  /\ has_capability ["tools:call"; "tool:math:*"] "tool:math:div" = true.
Proof.
  assert (H1 : forallb plain_char (chars "tool:math:") = true) by reflexivity.
  assert (H2 : In ("tool:math:" +:+ "*") ["tools:call"; "tool:math:*"])
    by (simpl; auto).
  assert (H3 : String.prefix "tool:math:" "tool:math:div" = true)
    by reflexivity.
  split; [exact H1|]. split; [exact H2|]. split; [exact H3|].
  exact (proj1 (X6_prefix_star_grants ["tools:call"; "tool:math:*"]
                  "tool:math:" "tool:math:div" H1 H2 H3)).
Defined.

End MoreRegistryFacts.

(** ** Calls: binding and injection *)

Module MoreCallFacts.
Import PyStr Registry Statements CallStatements Samples.

Section Calls.
Context {S : Type}.

Lemma model_dump_cons (kv : string * value) (vals : list (string * value)) :
  model_dump (kv :: vals) = <[kv.1 := PVal kv.2]> (model_dump vals).
Proof. reflexivity. Qed.

Lemma model_dump_absent (k : string) (vals : list (string * value)) :
  ~ In k (map fst vals) -> model_dump vals !! k = None.
Proof.
  induction vals as [|kv vals IH]; intros Hk; [apply lookup_empty|].
  rewrite model_dump_cons. simpl in Hk.
  rewrite lookup_insert_ne by tauto. apply IH. tauto.
Qed.



Lemma validate_fields_keys (args : gmap string value) (fs : list Field)
    (k : string) :
  In k (map fst (validate_fields args fs).2) -> In k (map f_name fs).
Proof.
  induction fs as [|f fs IH]; simpl; [tauto|].
  destruct (validate_fields args fs) as [errs vals].
  unfold validate_field.
  destruct (args !! f_name f) as [v|].
  - destruct (f_ann f v); simpl in *; [intros [H|H]|]; auto.
  - destruct (f_default f); simpl in *; [intros [H|H]|]; auto.
Qed.


Lemma validate_model_ok (fs : list Field) (args : gmap string value)
    (parsed : list (string * value)) :
  validate_model fs args = inr parsed ->
  (validate_fields args fs).1 = [] /\ parsed = (validate_fields args fs).2.
Proof.
  unfold validate_model.
  destruct (validate_fields args fs) as [[|e errs] vals]; [|discriminate].
  intros [= <-]. auto.
Qed.

Lemma signature_fields_names (ps : list Param) (k : string) :
  In k (map f_name (signature_fields ps))
  <-> In k (map p_name ps) /\ k <> "user".
Proof.
  induction ps as [|q ps IH]; simpl; [tauto|].
  destruct (String.eqb (p_name q) "user") eqn:E.
  - apply String.eqb_eq in E. rewrite IH. split; [tauto|].
    intros [[H|H] Hne]; [congruence | tauto].
  - apply String.eqb_neq in E. simpl. rewrite IH. split.
    + intros [H | [H Hne]]; [subst k|]; tauto.
    + tauto.
Qed.

Lemma create_model_names (fs : list Field) (k : string) :
  In k (map f_name (create_model fs))
  <-> In k (map f_name fs) /\ is_valid_field_name k = true.
Proof.
  unfold create_model. rewrite !in_map_iff. split.
  - intros (f & <- & Hf). apply List.filter_In in Hf as [Hin Hv].
    split; [|exact Hv]. now exists f.
  - intros [(f & <- & Hin) Hv]. exists f. split; [reflexivity|].
    apply List.filter_In. now split.
Qed.


(** The defaults added by the binding leave the keywords given as they
    are. *)
Lemma fill_defaults_keeps (ps : list Param) (kwargs : gmap string pyobj)
    (k : string) (o : pyobj) :
  kwargs !! k = Some o ->
  fold_right
    (fun p m => match m !! p_name p, p_default p with
                | None, Some d => <[p_name p := PVal d]> m
                | _, _ => m
                end) kwargs ps !! k = Some o.
Proof.
  intros Hk. induction ps as [|q ps IH]; simpl; [exact Hk|].
  destruct (fold_right _ kwargs ps !! p_name q) eqn:E; [exact IH|].
  destruct (p_default q); [|exact IH].
  rewrite lookup_insert_ne; [exact IH|]. intros Heq. congruence.
Qed.


Lemma bind_kwargs_keeps (ps : list Param) (kwargs bound : gmap string pyobj)
    (k : string) (o : pyobj) :
  bind_kwargs ps kwargs = Ok bound -> kwargs !! k = Some o ->
  bound !! k = Some o.
Proof.
  unfold bind_kwargs.
  destruct (negb (forallb _ _)); [discriminate|].
  destruct (negb (forallb _ ps)); [discriminate|].
  intros [= <-]. apply fill_defaults_keeps.
Qed.


(** X7. A call runs the handler at most once, and a handler that
    declares [principal] (or, failing that, [user]) always receives the
    principal of the request under that name, whatever the caller put in
    the arguments under the same name. *)
Theorem X7_injected_principal_not_spoofable (t : ToolDef S)
    (args : gmap string value) (p : Principal) (w : World S) :
  (call t args p w).2 = w
  \/ exists bound : gmap string pyobj,
      invocations (call t args p w).2
      = invocations w ++ [(fn_name (fn t), bound)]
      /\ (declares (fn_params (fn t)) "principal" = true ->
          bound !! "principal" = Some (PPrincipal p))
      /\ (declares (fn_params (fn t)) "principal" = false ->
          declares (fn_params (fn t)) "user" = true ->
          bound !! "user" = Some (PPrincipal p)).
Proof.
  unfold call. destruct (validate_model (input_model t) args) as [errs|parsed];
    [now left|].
  set (kwargs := if declares (fn_params (fn t)) "principal" then _ else _).
  unfold invoke.
  destruct (bind_kwargs (fn_params (fn t)) kwargs) as [bound|e] eqn:Hb;
    [|now left].
  right. exists bound.
  destruct (fn_body (fn t) bound (state w)) as [[v|e] s'] eqn:Hbody;
    (split; [reflexivity|]); split.
  all: intros Hd; try intros Hu;
    apply (bind_kwargs_keeps _ kwargs bound _ _ Hb); subst kwargs;
    rewrite Hd; try rewrite Hu; apply lookup_insert_eq.
Qed.

(** X8. A handler that declares both [principal] and a [user] parameter
    without default cannot be called through the registry: [user] is left
    out of the contract and is not injected either, so every call ends in
    an error and the handler does not run. *)
Theorem X8_both_reserved_names_uncallable
    (tools : gmap string (ToolDef S)) (h : Handler S)
    (nm ds : option string) (rc tg : option (list string)) (q : Param)
    (args : gmap string value) (p : Principal) (w : World S) :
  declares (fn_params h) "principal" = true ->
  In q (fn_params h) -> p_name q = "user" -> p_default q = None ->
  exists e : exn,
    call (register tools h nm ds rc tg).1 args p w = (Err e, w).
Proof.
  intros Hd Hq Hname Hdef. unfold call.
  change (input_model (register tools h nm ds rc tg).1)
    with (create_model (signature_fields (fn_params h))).
  change (fn (register tools h nm ds rc tg).1) with h.
  destruct (validate_model (create_model (signature_fields (fn_params h))) args)
    as [errs|parsed] eqn:Hv; [now eexists|].
  rewrite Hd. unfold invoke, bind_kwargs.
  destruct (negb (forallb _ _)); [now eexists|].
  assert (Huser : <["principal" := PPrincipal p]> (model_dump parsed) !! "user"
                  = None).
  { rewrite lookup_insert_ne by discriminate. apply model_dump_absent.
    apply validate_model_ok in Hv as [_ ->]. intros Hin.
    apply validate_fields_keys, create_model_names in Hin as [Hin _].
    apply signature_fields_names in Hin. tauto. }
  assert (H2 : forallb
                 (fun p0 =>
                    match <["principal" := PPrincipal p]> (model_dump parsed)
                          !! p_name p0, p_default p0 with
                    | None, None => false
                    | _, _ => true
                    end) (fn_params h) = false).
  { apply not_true_iff_false. intros Hall.
    rewrite forallb_forall in Hall. specialize (Hall q Hq).
    now rewrite Hname, Huser, Hdef in Hall. }
  rewrite H2. now eexists.
Qed.


End Calls.


(** [def both(principal, user): ...] *)
Lemma X8_both_reserved_names_witness :
  let both : Handler nat :=
    {| fn_name := "both"; fn_doc := None;
       fn_params :=
         [ {| p_name := "principal"; p_hint := None; p_default := None |};
           {| p_name := "user"; p_hint := None; p_default := None |} ];
       fn_async := false;
       fn_body := fun _ s => (Ok (PVal VNone), Datatypes.S s) |} in
  let q := {| p_name := "user"; p_hint := None; p_default := None |} in
  declares (fn_params both) "principal" = true
  /\ In q (fn_params both) /\ p_name q = "user" /\ p_default q = None
  /\ exists e : exn,
      call (register ∅ both None None None None).1
        {[ "principal" := VStr "mallory" ]} alice fresh_world
      = (Err e, fresh_world).
Proof.
  cbv zeta.
  split; [reflexivity|]. split; [simpl; auto|]. split; [reflexivity|].
  split; [reflexivity|].
  apply (X8_both_reserved_names_uncallable ∅ _ None None None None
           {| p_name := "user"; p_hint := None; p_default := None |});
    [reflexivity | simpl; auto | reflexivity | reflexivity].
Defined.

End MoreCallFacts.

(** ** The key store over time *)

Module MoreAuthFacts.
Import PyStr Auth Statements StoreStatements Samples.

Section Store.
Variable hmac_sha256_hexdigest : string -> string -> string.
Variable isoformat : datetime -> string.
Variable fromisoformat : string -> option datetime.

Local Abbreviation resolve_loop := (Auth.resolve_loop isoformat fromisoformat).
Local Abbreviation resolve :=
  (Auth.resolve hmac_sha256_hexdigest isoformat fromisoformat).
Local Abbreviation revoke := (Auth.revoke hmac_sha256_hexdigest isoformat).
Local Abbreviation mint_key := (Auth.mint_key hmac_sha256_hexdigest isoformat).
Local Abbreviation step :=
  (StoreStatements.step hmac_sha256_hexdigest isoformat fromisoformat).
Local Abbreviation use :=
  (StoreStatements.use hmac_sha256_hexdigest isoformat fromisoformat).
Local Abbreviation history :=
  (StoreStatements.history hmac_sha256_hexdigest isoformat fromisoformat).
Local Abbreviation resolve_file :=
  (StoreStatements.resolve_file hmac_sha256_hexdigest isoformat fromisoformat).

(** X10. Without the HMAC secret in the environment, minting, revoking
    and resolving all fail with [RuntimeError] and leave the store as it
    is: no key is ever stored or looked up under an empty secret. *)
Theorem X10_no_secret_no_store_access (fs : Store) (now : Z)
    (random32 random10 : list Byte.byte) (pid token prefix : string)
    (caps : list string) (cstr : option (list (string * value)))
    (exp : option datetime) :
  exists msg : string,
    mint_key fs "" now random32 random10 pid caps cstr exp prefix
    = (Err (RuntimeError msg), fs)
    /\ revoke fs "" now token = (Err (RuntimeError msg), fs)
    /\ resolve fs "" now token = (Err (RuntimeError msg), fs).
Proof. eexists. repeat split. Qed.

(** The first record that carries the digest decides alone. *)
Lemma resolve_loop_head (d : string) (now : Z) (k : StoredKey)
    (post : list StoredKey) :
  String.eqb (token_hmac k) d = true ->
  (resolve_loop d now (k :: post)).1 = (resolve_loop d now [k]).1.
Proof.
  intros E. apply String.eqb_eq in E.
  pose proof (AuthFacts.resolve_loop_first isoformat fromisoformat d now []
                post k (List.Forall_nil _) E) as H.
  cbn [app] in H. now rewrite H.
Qed.

Lemma same_decision_refl (k : StoredKey) : same_decision k k.
Proof. unfold same_decision. tauto. Qed.

Lemma same_decision_touch (k : StoredKey) (stamp : string) :
  same_decision k (set_last_used k stamp).
Proof. unfold same_decision. simpl. tauto. Qed.

Lemma Forall2_same_refl (ks : list StoredKey) : Forall2 same_decision ks ks.
Proof. induction ks; constructor; auto using same_decision_refl. Qed.

(** [resolve] reads the digest, the revocation, the expiry and the
    principal's fields of a record, nothing else. *)
Lemma resolve_loop_same_decision (digest : string) (now : Z)
    (ks ks' : list StoredKey) :
  Forall2 same_decision ks ks' ->
  (resolve_loop digest now ks').1 = (resolve_loop digest now ks).1.
Proof.
  induction 1 as [|k k' ks ks' (Hh & Hr & He & Hp & Hc & Hs) _ IH]; simpl;
    [reflexivity|].
  rewrite Hh, Hr, He, Hp, Hc, Hs.
  destruct (String.eqb (token_hmac k) digest); simpl.
  - destruct (opt_truthy (revoked_at k)); [reflexivity|].
    destruct (expires_at k) as [e|]; [|reflexivity].
    destruct (truthy e); [|reflexivity].
    destruct (fromisoformat e) as [d|]; [|reflexivity].
    destruct (dt_lt d (_utcnow now)) as [[|]|]; reflexivity.
  - destruct (resolve_loop digest now ks), (resolve_loop digest now ks').
    simpl in *. exact IH.
Qed.

Lemma resolve_loop_touches (digest : string) (now : Z) (ks : list StoredKey) :
  Forall2 same_decision ks (resolve_loop digest now ks).2.
Proof.
  induction ks as [|k ks IH]; simpl; [constructor|].
  destruct (String.eqb (token_hmac k) digest); simpl.
  - destruct (opt_truthy (revoked_at k)); [apply Forall2_same_refl|].
    destruct (expires_at k) as [e|].
    + destruct (truthy e).
      * destruct (fromisoformat e) as [d|]; [|apply Forall2_same_refl].
        destruct (dt_lt d (_utcnow now)) as [[|]|];
          try apply Forall2_same_refl.
        constructor; [apply same_decision_touch | apply Forall2_same_refl].
      * constructor; [apply same_decision_touch | apply Forall2_same_refl].
    + constructor; [apply same_decision_touch | apply Forall2_same_refl].
  - destruct (resolve_loop digest now ks). simpl in *.
    constructor; [apply same_decision_refl | exact IH].
Qed.

Lemma resolve_keys_same_decision (fs : Store) (env_secret token : string)
    (now : Z) :
  Forall2 same_decision (keys fs) (keys (resolve fs env_secret now token).2).
Proof.
  unfold Auth.resolve. destruct (_hmac_secret env_secret) as [secret|e];
    [|apply Forall2_same_refl].
  pose proof (resolve_loop_touches (_hmac_digest hmac_sha256_hexdigest token secret)
                now (keys fs)) as H.
  destruct (resolve_loop _ now (keys fs)) as [[p|e] ks]; simpl in *;
    [|apply Forall2_same_refl].
  unfold _write. destruct (writable fs); [exact H | apply Forall2_same_refl].
Qed.

Lemma resolve_result (fs : Store) (env_secret token : string) (now : Z) :
  (resolve fs env_secret now token).1
  = match _hmac_secret env_secret with
    | Err e => Err e
    | Ok secret =>
        (resolve_loop (hmac_sha256_hexdigest secret token) now (keys fs)).1
    end.
Proof.
  unfold Auth.resolve, _hmac_digest.
  destruct (_hmac_secret env_secret) as [secret|e]; [|reflexivity].
  now destruct (resolve_loop _ now (keys fs)) as [[p|e] ks].
Qed.

(** X11. Using a token does not disturb the store's answers.  On a store
    whose file can be written, so that the write of [last_used_at]
    succeeds, after any [resolve] every later [resolve], of any token at
    any time and whether or not the file can still be written then, gives
    the result it would have given before. *)
Theorem X11_resolve_leaves_answers_unchanged
    (fs : Store) (env_secret token token' : string) (now now' : Z)
    (later : bool) :
  writable fs = true ->
  (resolve {| keys := keys (resolve fs env_secret now token).2;
              writable := later |} env_secret now' token').1
  = (resolve fs env_secret now' token').1.
Proof.
  intros _. rewrite !resolve_result.
  destruct (_hmac_secret env_secret) as [secret|e]; [|reflexivity].
  apply resolve_loop_same_decision, resolve_keys_same_decision.
Qed.

Lemma revoke_keys (fs : Store) (env_secret token : string) (now : Z) :
  keys (revoke fs env_secret now token).2 = keys fs
  \/ exists secret,
      _hmac_secret env_secret = Ok secret
      /\ keys (revoke fs env_secret now token).2
         = map (revoke_one (hmac_sha256_hexdigest secret token)
                  (isoformat (_utcnow now))) (keys fs).
Proof.
  unfold Auth.revoke, _hmac_digest.
  destruct (_hmac_secret env_secret) as [secret|e]; [|now left].
  rewrite AuthFacts.revoke_loop_map.
  destruct (existsb _ (keys fs)); [|now left].
  unfold _write. destruct (writable fs); [|now left].
  right. now exists secret.
Qed.

Lemma revoke_one_other (d d' stamp : string) (k : StoredKey) :
  token_hmac k = d -> d <> d' -> revoke_one d' stamp k = k.
Proof.
  intros Hk Hne. unfold revoke_one, revocable.
  replace (String.eqb (token_hmac k) d') with false; [reflexivity|].
  symmetry. apply String.eqb_neq. congruence.
Qed.

Lemma revoke_one_hmac (d stamp : string) (k : StoredKey) :
  token_hmac (revoke_one d stamp k) = token_hmac k.
Proof. unfold revoke_one. now destruct (revocable d k). Qed.

Lemma resolve_loop_revoke_other (d d' stamp : string) (now : Z)
    (ks : list StoredKey) :
  d <> d' ->
  (resolve_loop d now (map (revoke_one d' stamp) ks)).1
  = (resolve_loop d now ks).1.
Proof.
  intros Hne. induction ks as [|k ks IH]; [reflexivity|].
  cbn [map]. destruct (String.eqb (token_hmac k) d) eqn:E.
  - rewrite (revoke_one_other d d' stamp k (proj1 (String.eqb_eq _ _) E) Hne).
    now rewrite (resolve_loop_head d now k (map (revoke_one d' stamp) ks) E),
      (resolve_loop_head d now k ks E).
  - cbn [Auth.resolve_loop]. rewrite revoke_one_hmac, E. cbn [negb].
    destruct (resolve_loop d now ks),
      (resolve_loop d now (map (revoke_one d' stamp) ks)).
    simpl in *. exact IH.
Qed.

(** X12. Revoking one token leaves the others alone: after a [revoke]
    that returned (it wrote the store, or found nothing to revoke and
    wrote nothing), [resolve] gives for every token whose digest differs
    from that of the revoked one the result it gave before, whether or
    not the file can still be written then. *)
Theorem X12_revoke_isolated
    (fs fs1 : Store) (env_secret revoked other : string) (now now' : Z)
    (changed later : bool) :
  hmac_sha256_hexdigest env_secret other
  <> hmac_sha256_hexdigest env_secret revoked ->
  revoke fs env_secret now revoked = (Ok changed, fs1) ->
  (resolve {| keys := keys fs1; writable := later |} env_secret now' other).1
  = (resolve fs env_secret now' other).1.
Proof.
  intros Hne Hrev. rewrite !resolve_result. cbn [keys].
  replace fs1 with (revoke fs env_secret now revoked).2 by now rewrite Hrev.
  destruct (revoke_keys fs env_secret revoked now)
    as [-> | (secret & Hs & ->)];
    [reflexivity|].
  rewrite Hs. unfold _hmac_secret in Hs.
  destruct (truthy env_secret); [|discriminate]. injection Hs as <-.
  now apply resolve_loop_revoke_other.
Qed.

Lemma resolve_loop_app_other (d : string) (now : Z)
    (ks more : list StoredKey) :
  Forall (fun r => token_hmac r <> d) more ->
  (resolve_loop d now (ks ++ more)).1 = (resolve_loop d now ks).1.
Proof.
  intros Hmore. induction ks as [|k ks IH].
  - simpl. now rewrite AuthFacts.resolve_loop_no_match.
  - destruct (String.eqb (token_hmac k) d) eqn:E.
    + cbn [app].
      now rewrite (resolve_loop_head d now k (ks ++ more) E),
        (resolve_loop_head d now k ks E).
    + simpl. rewrite E. simpl.
      destruct (resolve_loop d now ks), (resolve_loop d now (ks ++ more)).
      simpl in *. exact IH.
Qed.

Lemma resolve_loop_app_shadowed (d : string) (now : Z)
    (ks more : list StoredKey) :
  existsb (fun r => String.eqb (token_hmac r) d) ks = true ->
  (resolve_loop d now (ks ++ more)).1 = (resolve_loop d now ks).1.
Proof.
  induction ks as [|k ks IH]; [discriminate|].
  cbn [existsb app]. destruct (String.eqb (token_hmac k) d) eqn:E.
  - intros _.
    now rewrite (resolve_loop_head d now k (ks ++ more) E),
      (resolve_loop_head d now k ks E).
  - intros H. specialize (IH H). simpl. rewrite E. simpl.
    destruct (resolve_loop d now ks), (resolve_loop d now (ks ++ more)).
    simpl in *. exact IH.
Qed.

Lemma mint_keys (fs : Store) (env_secret : string) (now : Z)
    (random32 random10 : list Byte.byte) (pid prefix : string)
    (caps : list string) (cstr : option (list (string * value)))
    (exp : option datetime) :
  keys (mint_key fs env_secret now random32 random10 pid caps cstr exp
          prefix).2 = keys fs
  \/ exists r : StoredKey,
      keys (mint_key fs env_secret now random32 random10 pid caps cstr exp
              prefix).2 = keys fs ++ [r]
      /\ token_hmac r
         = hmac_sha256_hexdigest env_secret
             (prefix +:+ Secrets.token_urlsafe random32)
      /\ revoked_at r = None.
Proof.
  unfold Auth.mint_key, _hmac_digest, _hmac_secret.
  destruct (truthy env_secret); [|now left].
  unfold _write. destruct (writable fs); [|now left].
  right. eexists. simpl. split; [reflexivity|]. split; reflexivity.
Qed.

(** X13. Minting a key leaves the other tokens alone: after a
    [mint_key] that returned a token (so its write succeeded), [resolve]
    gives the result it gave before for every token whose digest differs
    from the new key's, and also for every token that some record
    already carried (the earlier record is found first, so a new key
    never shadows an old one), whether or not the file can still be
    written then. *)
Theorem X13_mint_isolated
    (fs fs1 : Store) (env_secret : string) (now now' : Z)
    (random32 random10 : list Byte.byte) (pid prefix other minted : string)
    (caps : list string) (cstr : option (list (string * value)))
    (exp : option datetime) (later : bool) :
  hmac_sha256_hexdigest env_secret other
  <> hmac_sha256_hexdigest env_secret
       (prefix +:+ Secrets.token_urlsafe random32)
  \/ existsb (fun r => String.eqb (token_hmac r)
                         (hmac_sha256_hexdigest env_secret other))
       (keys fs) = true ->
  mint_key fs env_secret now random32 random10 pid caps cstr exp prefix
  = (Ok minted, fs1) ->
  (resolve {| keys := keys fs1; writable := later |} env_secret now' other).1
  = (resolve fs env_secret now' other).1.
Proof.
  intros Hcase Hmint. rewrite !resolve_result. cbn [keys].
  replace fs1
    with (mint_key fs env_secret now random32 random10 pid caps cstr exp
            prefix).2 by now rewrite Hmint.
  destruct (mint_keys fs env_secret now random32 random10 pid prefix caps
              cstr exp) as [-> | (r & -> & Hr & _)]; [reflexivity|].
  unfold _hmac_secret. destruct (truthy env_secret); [|reflexivity].
  destruct Hcase as [Hne | Hex].
  - apply resolve_loop_app_other. constructor; [|constructor]. congruence.
  - now apply resolve_loop_app_shadowed.
Qed.

Lemma first_revoked_same_decision (d : string) (ks ks' : list StoredKey) :
  Forall2 same_decision ks ks' -> first_revoked d ks' = first_revoked d ks.
Proof.
  induction 1 as [|k k' ks ks' (Hh & Hr & _) _ IH]; simpl; [reflexivity|].
  now rewrite Hh, Hr, IH.
Qed.

Lemma first_revoked_app (d : string) (ks more : list StoredKey) :
  first_revoked d ks = true -> first_revoked d (ks ++ more) = true.
Proof.
  induction ks as [|k ks IH]; simpl; [discriminate|].
  now destruct (String.eqb (token_hmac k) d).
Qed.

Lemma first_revoked_revoke_one (d d' stamp : string) (ks : list StoredKey) :
  first_revoked d ks = true ->
  first_revoked d (map (revoke_one d' stamp) ks) = true.
Proof.
  induction ks as [|k ks IH]; simpl; [discriminate|].
  rewrite revoke_one_hmac.
  destruct (String.eqb (token_hmac k) d); [|exact IH].
  intros Hr. unfold revoke_one, revocable. rewrite Hr.
  now rewrite andb_false_r.
Qed.

Lemma first_revoked_step (d env_secret : string) (fs : Store) (o : op) :
  first_revoked d (keys fs) = true ->
  first_revoked d (keys (step env_secret fs o)) = true.
Proof.
  intros H. destruct o as [now r32 r10 pid caps cstr exp prefix|now tok|now tok];
    unfold StoreStatements.step.
  - destruct (mint_keys fs env_secret now r32 r10 pid prefix caps cstr exp)
      as [-> | (r & -> & _)]; [exact H | now apply first_revoked_app].
  - destruct (revoke_keys fs env_secret tok now) as [-> | (s & _ & ->)];
      [exact H | now apply first_revoked_revoke_one].
  - rewrite (first_revoked_same_decision d (keys fs)); [exact H|].
    apply resolve_keys_same_decision.
Qed.

(** A use that does not reach its write leaves the records as they are,
    also where the write would succeed. *)
Lemma writes_false_keeps (env_secret : string) (ks : list StoredKey) (o : op) :
  writes hmac_sha256_hexdigest isoformat fromisoformat env_secret ks o = false ->
  keys (step env_secret {| keys := ks; writable := true |} o) = ks.
Proof.
  unfold StoreStatements.writes, StoreStatements.step.
  destruct o as [now r32 r10 pid caps cstr exp prefix|now tok|now tok].
  - unfold Auth.mint_key. now destruct (_hmac_secret env_secret).
  - unfold Auth.revoke. destruct (_hmac_secret env_secret); [|reflexivity].
    cbn [keys]. destruct (Auth.revoke_loop _ _ ks) as [ks' [|]];
      [discriminate | reflexivity].
  - unfold Auth.resolve. destruct (_hmac_secret env_secret); [|reflexivity].
    cbn [keys]. destruct (resolve_loop _ now ks) as [[p|e] ks'];
      [discriminate | reflexivity].
Qed.

(** What one use can make of a readable file. *)
Lemma use_cases (env_secret : string) (ks : list StoredKey)
    (ow : op * write_end) :
  use env_secret (Readable ks) ow = Readable ks
  \/ use env_secret (Readable ks) ow
     = Readable (keys (step env_secret {| keys := ks; writable := true |} ow.1))
  \/ (use env_secret (Readable ks) ow = Unreadable /\ ow.2 = Cut_short).
Proof.
  unfold StoreStatements.use.
  destruct (writes _ _ _ env_secret ks ow.1); [|now left].
  destruct ow.2; auto.
Qed.

Lemma history_unreadable (env_secret : string) (uses : list (op * write_end)) :
  history env_secret Unreadable uses = Unreadable.
Proof. induction uses as [|ow uses IH]; [reflexivity | exact IH]. Qed.

Lemma first_revoked_history (d env_secret : string)
    (uses : list (op * write_end)) :
  forall ks : list StoredKey,
    first_revoked d ks = true ->
    history env_secret (Readable ks) uses = Unreadable
    \/ exists ks', history env_secret (Readable ks) uses = Readable ks'
                   /\ first_revoked d ks' = true.
Proof.
  induction uses as [|ow uses IH]; intros ks H; [right; now exists ks|].
  change (history env_secret (Readable ks) (ow :: uses))
    with (history env_secret (use env_secret (Readable ks) ow) uses).
  destruct (use_cases env_secret ks ow) as [-> | [-> | [-> _]]].
  - now apply IH.
  - apply IH.
    exact (first_revoked_step d env_secret {| keys := ks; writable := true |}
             ow.1 H).
  - left. apply history_unreadable.
Qed.

Lemma first_revoked_resolve (d : string) (now : Z) (ks : list StoredKey) :
  first_revoked d ks = true ->
  resolve_loop d now ks = (unauthorized "API key revoked", ks).
Proof.
  induction ks as [|k ks IH]; simpl; [discriminate|].
  destruct (String.eqb (token_hmac k) d); simpl.
  - now intros ->.
  - intros H. now rewrite (IH H).
Qed.

Lemma first_revoked_after_revoke (d stamp : string) (ks : list StoredKey) :
  stamp <> "" -> existsb (revocable d) ks = true ->
  first_revoked d (map (revoke_one d stamp) ks) = true.
Proof.
  intros Hst. induction ks as [|k ks IH]; simpl; [discriminate|].
  rewrite revoke_one_hmac.
  destruct (String.eqb (token_hmac k) d) eqn:Eh.
  - intros _. unfold revoke_one, revocable. rewrite Eh. simpl.
    destruct (opt_truthy (revoked_at k)) eqn:E; simpl; [exact E|].
    now apply AuthFacts.truthy_true.
  - unfold revocable at 1. rewrite Eh. simpl. exact IH.
Qed.

(** X14. Revocation is permanent.  Once [revoke] has returned [true] for
    a token, no later [resolve] returns a principal for it, after any
    further sequence of mints, revokes and resolves, whatever tokens,
    times and random bytes they use and however their writes end.  While
    the file is readable [resolve] fails with 401 "API key revoked": the
    store offers no way to reinstate a key, and a later key with the same
    digest stays behind the revoked record.  Once a write that failed
    part-way has left the file unreadable, [resolve] raises the
    [JSONDecodeError] of [_read]. *)
Theorem X14_revocation_permanent
    (fs fs1 : Store) (env_secret token : string) (now now' : Z)
    (uses : list (op * write_end)) :
  env_secret <> "" ->
  isoformat (_utcnow now) <> "" ->
  revoke fs env_secret now token = (Ok true, fs1) ->
  resolve_file env_secret (history env_secret (Readable (keys fs1)) uses)
    now' token
  = match history env_secret (Readable (keys fs1)) uses with
    | Readable _ => unauthorized "API key revoked"
    | Unreadable => Err (Raised "JSONDecodeError")
    end.
Proof.
  intros Hs Hst Hrev.
  assert (H1 : first_revoked (hmac_sha256_hexdigest env_secret token)
                 (keys fs1) = true).
  { unfold Auth.revoke in Hrev.
    rewrite (AuthFacts.hmac_secret_set env_secret Hs) in Hrev.
    unfold _hmac_digest in Hrev. rewrite AuthFacts.revoke_loop_map in Hrev.
    destruct (existsb _ (keys fs)) eqn:Hany; [|discriminate].
    unfold _write in Hrev. destruct (writable fs); [|discriminate].
    injection Hrev as <-. simpl. now apply first_revoked_after_revoke. }
  destruct (first_revoked_history _ env_secret uses (keys fs1) H1)
    as [-> | (ks' & -> & H2)].
  - unfold StoreStatements.resolve_file.
    now rewrite (AuthFacts.hmac_secret_set env_secret Hs).
  - unfold StoreStatements.resolve_file, Auth.resolve.
    rewrite (AuthFacts.hmac_secret_set env_secret Hs).
    unfold _hmac_digest. cbn [keys].
    now rewrite (first_revoked_resolve _ now' _ H2).
Qed.

Lemma stable_refl (k : StoredKey) : stable k k.
Proof. split; auto. Qed.

Lemma stable_trans (a b c : StoredKey) : stable a b -> stable b c -> stable a c.
Proof.
  intros [Hm1 Hr1] [Hm2 Hr2]. split; [congruence|].
  intros Ha. rewrite Hr2; [auto|]. now rewrite Hr1.
Qed.

Lemma Forall2_stable_refl (ks : list StoredKey) : Forall2 stable ks ks.
Proof. induction ks; constructor; auto using stable_refl. Qed.

Lemma Forall2_stable_trans (a b c : list StoredKey) :
  Forall2 stable a b -> Forall2 stable b c -> Forall2 stable a c.
Proof.
  intros Hab. revert c. induction Hab as [|x y a b Hxy _ IH]; intros c Hbc;
    inversion Hbc; subst; constructor; eauto using stable_trans.
Qed.

Lemma stable_revoke_one (d stamp : string) (k : StoredKey) :
  stable k (revoke_one d stamp k).
Proof.
  unfold revoke_one, revocable.
  destruct (String.eqb (token_hmac k) d); simpl; [|apply stable_refl].
  destruct (opt_truthy (revoked_at k)) eqn:E; simpl; [apply stable_refl|].
  split; [reflexivity|]. congruence.
Qed.

Lemma same_decision_stable (ks ks' : list StoredKey) :
  Forall2 same_decision ks ks' ->
  Forall2 (fun k k' => key_id k' = key_id k /\ created_at k' = created_at k)
    ks ks' ->
  Forall2 stable ks ks'.
Proof.
  induction 1 as [|k k' ks ks' (Hh & Hr & He & Hp & Hc & Hs) _ IH];
    intros H2; inversion H2 as [|? ? ? ? [Hid Hcr] H2']; subst; constructor;
    [|auto].
  split; [|auto]. unfold minted_fields. congruence.
Qed.

Lemma resolve_loop_ids (digest : string) (now : Z) (ks : list StoredKey) :
  Forall2 (fun k k' => key_id k' = key_id k /\ created_at k' = created_at k)
    ks (resolve_loop digest now ks).2.
Proof.
  assert (Hrefl : forall l : list StoredKey,
             Forall2 (fun k k' => key_id k' = key_id k
                                  /\ created_at k' = created_at k) l l)
    by (induction l; constructor; auto).
  induction ks as [|k ks IH]; simpl; [constructor|].
  destruct (String.eqb (token_hmac k) digest); simpl.
  - destruct (opt_truthy (revoked_at k)); [apply Hrefl|].
    destruct (match expires_at k with Some _ => _ | None => _ end);
      [constructor; [now split | apply Hrefl] | apply Hrefl].
  - destruct (resolve_loop digest now ks). simpl in *.
    constructor; [now split | exact IH].
Qed.

Lemma step_stable (env_secret : string) (fs : Store) (o : op) :
  exists kept added : list StoredKey,
    keys (step env_secret fs o) = kept ++ added
    /\ Forall2 stable (keys fs) kept.
Proof.
  destruct o as [now r32 r10 pid caps cstr exp prefix|now tok|now tok];
    unfold StoreStatements.step.
  - destruct (mint_keys fs env_secret now r32 r10 pid prefix caps cstr exp)
      as [-> | (r & -> & _)].
    + exists (keys fs), []. rewrite app_nil_r. auto using Forall2_stable_refl.
    + exists (keys fs), [r]. auto using Forall2_stable_refl.
  - destruct (revoke_keys fs env_secret tok now) as [-> | (s & _ & ->)].
    + exists (keys fs), []. rewrite app_nil_r. auto using Forall2_stable_refl.
    + eexists _, []. rewrite app_nil_r. split; [reflexivity|].
      induction (keys fs); constructor; auto using stable_revoke_one.
  - eexists _, []. rewrite app_nil_r. split; [reflexivity|].
    apply same_decision_stable; [apply resolve_keys_same_decision|].
    unfold Auth.resolve.
    assert (Hrefl : forall l : list StoredKey,
               Forall2 (fun k k' => key_id k' = key_id k
                                    /\ created_at k' = created_at k) l l)
      by (induction l; constructor; auto).
    destruct (_hmac_secret env_secret) as [secret|e]; [|apply Hrefl].
    pose proof (resolve_loop_ids (_hmac_digest hmac_sha256_hexdigest tok secret)
                  now (keys fs)) as H.
    destruct (resolve_loop _ now (keys fs)) as [[p|e] ks]; simpl in *;
      [|apply Hrefl].
    unfold _write. destruct (writable fs); [exact H | apply Hrefl].
Qed.

(** X15. The store only grows.  After any sequence of mints, revokes and
    resolves, however their writes end, the file is in one of two states.
    Either it is readable, and then the records that were there are
    still there, in the same order and before any new one, each with the
    key id, digest, principal, capabilities, constraints, creation time
    and expiry it was minted with, and with its revocation time if it
    had one: no use deletes, reorders, re-binds or un-revokes a record.
    Or it is unreadable, and then one of the writes failed part-way:
    that is the only way records are lost, and it loses all of them. *)
Theorem X15_store_append_only (env_secret : string)
    (uses : list (op * write_end)) :
  forall ks : list StoredKey,
    (exists kept added : list StoredKey,
        history env_secret (Readable ks) uses = Readable (kept ++ added)
        /\ Forall2 stable ks kept
        /\ map minted_fields kept = map minted_fields ks)
    \/ (history env_secret (Readable ks) uses = Unreadable
        /\ In Cut_short (map snd uses)).
Proof.
  assert (Hmf : forall a b, Forall2 stable a b ->
                            map minted_fields b = map minted_fields a).
  { induction 1 as [|x y a b [Hxy _] _ IH]; simpl; [reflexivity|].
    now rewrite Hxy, IH. }
  induction uses as [|ow uses IH]; intros ks.
  - left. exists ks, []. rewrite app_nil_r. auto using Forall2_stable_refl.
  - change (history env_secret (Readable ks) (ow :: uses))
      with (history env_secret (use env_secret (Readable ks) ow) uses).
    destruct (use_cases env_secret ks ow) as [-> | [-> | [-> Hcut]]].
    + destruct (IH ks) as [H | [H Hin]]; [now left | right].
      split; [exact H | now right].
    + destruct (step_stable env_secret {| keys := ks; writable := true |} ow.1)
        as (kept1 & added1 & Hk1 & Hs1).
      cbn [keys] in Hs1. rewrite Hk1.
      destruct (IH (kept1 ++ added1))
        as [(kept2 & added2 & Hk2 & Hs2 & _) | [H Hin]].
      * left. apply Forall2_app_inv_l in Hs2 as (ka & kb & Ha & Hb & ->).
        exists ka, (kb ++ added2).
        assert (Hst : Forall2 stable ks ka)
          by (eapply Forall2_stable_trans; eauto).
        split; [|split; [exact Hst | now apply Hmf]].
        now rewrite Hk2, app_assoc.
      * right. split; [exact H | now right].
    + right. split; [apply history_unreadable | now left].
Qed.

Lemma dt_lt_later (d : datetime) (now now' : Z) :
  (now <= now')%Z -> dt_lt d (_utcnow now) = Some true ->
  dt_lt d (_utcnow now') = Some true.
Proof.
  unfold dt_lt. simpl. destruct (dt_offset d) as [off|]; [|discriminate].
  intros Hle [= H]. f_equal. apply Z.ltb_lt in H. apply Z.ltb_lt. lia.
Qed.

Lemma resolve_loop_error_later (d : string) (now now' : Z) (e : exn)
    (ks : list StoredKey) :
  (now <= now')%Z ->
  (resolve_loop d now ks).1 = Err e ->
  resolve_loop d now' ks = (Err e, ks).
Proof.
  intros Hle. induction ks as [|k ks IH]; simpl; [now intros [= <-]|].
  destruct (String.eqb (token_hmac k) d); simpl.
  - destruct (opt_truthy (revoked_at k)); [now intros [= <-]|].
    destruct (expires_at k) as [x|]; [|discriminate].
    destruct (truthy x); [|discriminate].
    destruct (fromisoformat x) as [t0|]; [|now intros [= <-]].
    destruct (dt_lt t0 (_utcnow now)) as [[|]|] eqn:E.
    + rewrite (dt_lt_later t0 now now' Hle E). now intros [= <-].
    + discriminate.
    + assert (E' : dt_lt t0 (_utcnow now') = None)
        by (unfold dt_lt in *; simpl in *; now destruct (dt_offset t0)).
      rewrite E'. now intros [= <-].
  - destruct (resolve_loop d now ks) as [r ks1] eqn:E1. simpl.
    intros ->. now rewrite (IH eq_refl).
Qed.

(** X16. Time never revives a token: when [resolve] rejects a token
    (unknown, revoked, expired or with an unreadable expiry), it rejects
    it in the same way at every later time, as long as the store is the
    same; and a rejection leaves the store the same. *)
Theorem X16_rejection_persists_in_time
    (fs : Store) (env_secret token : string) (now now' : Z) (e : exn) :
  (now <= now')%Z ->
  (resolve fs env_secret now token).1 = Err e ->
  resolve fs env_secret now token = (Err e, fs)
  /\ resolve fs env_secret now' token = (Err e, fs).
Proof.
  intros Hle. rewrite resolve_result. unfold Auth.resolve, _hmac_digest.
  destruct (_hmac_secret env_secret) as [secret|e0];
    [|intros [= <-]; now split].
  intros H. rewrite (resolve_loop_error_later _ now now' e (keys fs) Hle H).
  rewrite (resolve_loop_error_later _ now now e (keys fs) (Z.le_refl _) H).
  now split.
Qed.

(** X17. A key minted with an expiry that is already past, or that passes
    later, is rejected from then on: with the secret configured, the
    store writable and the new digest carried by no earlier record,
    [resolve] of the minted token fails with 401 "API key expired" at
    every time after the expiry. *)
Theorem X17_minted_key_expires
    (fs : Store) (env_secret : string) (now now' : Z)
    (random32 random10 : list Byte.byte) (pid prefix : string)
    (caps : list string) (cstr : option (list (string * value)))
    (e : datetime) (off : Z) :
  env_secret <> "" ->
  writable fs = true ->
  Forall (fun k => token_hmac k
                   <> hmac_sha256_hexdigest env_secret
                        (prefix +:+ Secrets.token_urlsafe random32))
    (keys fs) ->
  isoformat e <> "" ->
  fromisoformat (isoformat e) = Some e ->
  dt_offset e = Some off ->
  (dt_wall e - off < now')%Z ->
  exists (token : string) (fs1 : Store),
    mint_key fs env_secret now random32 random10 pid caps cstr (Some e) prefix
    = (Ok token, fs1)
    /\ resolve fs1 env_secret now' token
       = (unauthorized "API key expired", fs1).
Proof.
  intros Hs Hw Hfresh Hne Hparse Hoff Hlt.
  unfold Auth.mint_key. rewrite (AuthFacts.hmac_secret_set env_secret Hs).
  unfold _write. rewrite Hw. unfold _hmac_digest.
  eexists _, _. split; [reflexivity|].
  match goal with
  | |- resolve {| keys := keys fs ++ [?r]; writable := true |} _ _ ?tok = _ =>
      pose proof (AuthFacts.resolve_at_first hmac_sha256_hexdigest isoformat
                    fromisoformat
                    {| keys := keys fs ++ [r]; writable := true |}
                    env_secret tok now' (keys fs) [] r Hs eq_refl Hfresh
                    eq_refl) as R
  end.
  rewrite R. simpl. rewrite String.eqb_refl. simpl.
  apply AuthFacts.truthy_true in Hne. rewrite Hne, Hparse.
  unfold dt_lt. rewrite Hoff. simpl.
  replace (dt_wall e - off <? now' - 0)%Z with true
    by (symmetry; apply Z.ltb_lt; lia).
  reflexivity.
Qed.

End Store.

(** A token is used on a writable store; the other token resolves
    afterwards as before, also when the file has become read-only. *)
Lemma X11_resolve_leaves_answers_witness :
  let k1 := sample_key "k_1" (sample_digest "s3cret" "mcp_live_abc") "demo"
              None None in
  let k2 := sample_key "k_2" (sample_digest "s3cret" "mcp_live_xyz") "other"
              None None in
  let fs := {| keys := [k1; k2]; writable := true |} in
  writable fs = true
  /\ (Auth.resolve sample_digest sample_isoformat sample_fromisoformat
        {| keys := keys (Auth.resolve sample_digest sample_isoformat
                           sample_fromisoformat fs "s3cret" sample_now
                           "mcp_live_abc").2;
           writable := false |} "s3cret" sample_now "mcp_live_xyz").1
     = Ok {| principal_id := "other"; capabilities := ["tools:call"];
             constraints := []; disabled := false |}.
Proof.
  cbv zeta. split; [reflexivity|].
  rewrite (X11_resolve_leaves_answers_unchanged sample_digest sample_isoformat
             sample_fromisoformat
             {| keys := [sample_key "k_1"
                           (sample_digest "s3cret" "mcp_live_abc")
                           "demo" None None;
                         sample_key "k_2"
                           (sample_digest "s3cret" "mcp_live_xyz")
                           "other" None None];
                writable := true |}
             "s3cret" "mcp_live_abc" "mcp_live_xyz" sample_now sample_now
             false eq_refl).
  reflexivity.
Defined.

(** One of two keys is revoked; the other resolves as before. *)
Lemma X12_revoke_isolated_witness :
  let k1 := sample_key "k_1" (sample_digest "s3cret" "mcp_live_abc") "demo"
              None None in
  let k2 := sample_key "k_2" (sample_digest "s3cret" "mcp_live_xyz") "other"
              None None in
  let fs := {| keys := [k1; k2]; writable := true |} in
  let fs1 := {| keys := [set_revoked k1 (sample_isoformat (_utcnow sample_now));
                         k2];
                writable := true |} in
  sample_digest "s3cret" "mcp_live_xyz" <> sample_digest "s3cret" "mcp_live_abc"
  /\ Auth.revoke sample_digest sample_isoformat fs "s3cret" sample_now
       "mcp_live_abc" = (Ok true, fs1)
  /\ (Auth.resolve sample_digest sample_isoformat sample_fromisoformat
        {| keys := keys fs1; writable := true |} "s3cret" sample_now
        "mcp_live_xyz").1
     = Ok {| principal_id := "other"; capabilities := ["tools:call"];
             constraints := []; disabled := false |}.
Proof.
  cbv zeta.
  assert (Hne : sample_digest "s3cret" "mcp_live_xyz"
                <> sample_digest "s3cret" "mcp_live_abc") by discriminate.
  split; [exact Hne|]. split; [reflexivity|].
  rewrite (X12_revoke_isolated sample_digest sample_isoformat
             sample_fromisoformat
             {| keys := [sample_key "k_1"
                           (sample_digest "s3cret" "mcp_live_abc")
                           "demo" None None;
                         sample_key "k_2"
                           (sample_digest "s3cret" "mcp_live_xyz")
                           "other" None None];
                writable := true |}
             _ "s3cret" "mcp_live_abc" "mcp_live_xyz" sample_now sample_now
             true true Hne eq_refl).
  reflexivity.
Defined.

(** A key minted beside an existing one. *)
Lemma X13_mint_isolated_witness :
  let k1 := sample_key "k_1" (sample_digest "s3cret" "mcp_live_abc") "demo"
              None None in
  let fs := {| keys := [k1]; writable := true |} in
  existsb (fun r => String.eqb (token_hmac r)
                      (sample_digest "s3cret" "mcp_live_abc")) (keys fs) = true
  /\ exists (minted : string) (fs1 : Store),
      Auth.mint_key sample_digest sample_isoformat fs "s3cret" sample_now
        sample_random32 sample_random10 "eve" ["*"] None None default_prefix
      = (Ok minted, fs1)
      /\ length (keys fs1) = 2
      /\ (Auth.resolve sample_digest sample_isoformat sample_fromisoformat
            {| keys := keys fs1; writable := true |} "s3cret" sample_now
            "mcp_live_abc").1
         = Ok {| principal_id := "demo"; capabilities := ["tools:call"];
                 constraints := []; disabled := false |}.
Proof.
  cbv zeta.
  assert (Hex : existsb (fun r => String.eqb (token_hmac r)
                                    (sample_digest "s3cret" "mcp_live_abc"))
                  [sample_key "k_1" (sample_digest "s3cret" "mcp_live_abc")
                     "demo" None None] = true) by reflexivity.
  split; [exact Hex|].
  eexists _, _. split; [reflexivity|]. split; [reflexivity|].
  rewrite (X13_mint_isolated sample_digest sample_isoformat
             sample_fromisoformat
             {| keys := [sample_key "k_1"
                           (sample_digest "s3cret" "mcp_live_abc")
                           "demo" None None];
                writable := true |} _
             "s3cret" sample_now sample_now sample_random32 sample_random10
             "eve" default_prefix "mcp_live_abc" _ ["*"] None None true
             (or_intror Hex) eq_refl).
  reflexivity.
Defined.

(** A key is revoked; then a key is minted though its write raises on
    closing, the revoked token is presented and revoked again, and the
    file stays readable; the token is refused as revoked.  When the
    write of a further mint fails part-way, the token is refused with
    the error of [_read]. *)
Lemma X14_revocation_permanent_witness :
  let k1 := sample_key "k_1" (sample_digest "s3cret" "mcp_live_abc") "demo"
              None None in
  let fs := {| keys := [k1]; writable := true |} in
  let fs1 := {| keys := [set_revoked k1 (sample_isoformat (_utcnow sample_now))];
                writable := true |} in
  let mint := OpMint sample_now sample_random32 sample_random10 "demo"
                ["*"] None None "mcp_live_" in
  let uses := [ (mint, Raised_after);
                (OpResolve sample_now "mcp_live_abc", Written);
                (OpRevoke sample_now "mcp_live_abc", Refused) ] in
  "s3cret" <> "" /\ sample_isoformat (_utcnow sample_now) <> ""
  /\ Auth.revoke sample_digest sample_isoformat fs "s3cret" sample_now
       "mcp_live_abc" = (Ok true, fs1)
  /\ StoreStatements.resolve_file sample_digest sample_isoformat
       sample_fromisoformat "s3cret"
       (StoreStatements.history sample_digest sample_isoformat
          sample_fromisoformat "s3cret" (Readable (keys fs1)) uses)
       (sample_now + 1) "mcp_live_abc"
     = unauthorized "API key revoked"
  /\ StoreStatements.resolve_file sample_digest sample_isoformat
       sample_fromisoformat "s3cret"
       (StoreStatements.history sample_digest sample_isoformat
          sample_fromisoformat "s3cret" (Readable (keys fs1))
          (uses ++ [(mint, Cut_short)]))
       (sample_now + 1) "mcp_live_abc"
     = Err (Raised "JSONDecodeError").
Proof.
  cbv zeta.
  assert (Hs : "s3cret" <> "") by discriminate.
  assert (Ht : sample_isoformat (_utcnow sample_now) <> "") by discriminate.
  split; [exact Hs|]. split; [exact Ht|]. split; [reflexivity|].
  pose proof (fun uses =>
    X14_revocation_permanent sample_digest sample_isoformat
      sample_fromisoformat
      {| keys := [sample_key "k_1"
                    (sample_digest "s3cret" "mcp_live_abc")
                    "demo" None None];
         writable := true |} _ "s3cret" "mcp_live_abc" sample_now
      (sample_now + 1) uses Hs Ht eq_refl) as H.
  split; [exact (H _) | exact (H _)].
Defined.

(** An unknown token is rejected now and later. *)
Lemma X16_rejection_persists_witness :
  let fs := {| keys := []; writable := true |} in
  (sample_now <= sample_now + 60)%Z
  /\ (Auth.resolve sample_digest sample_isoformat sample_fromisoformat fs
        "s3cret" sample_now "mcp_live_abc").1
     = unauthorized "Invalid API key"
  /\ Auth.resolve sample_digest sample_isoformat sample_fromisoformat fs
       "s3cret" (sample_now + 60) "mcp_live_abc"
     = (unauthorized "Invalid API key", fs).
Proof.
  cbv zeta.
  assert (Hle : (sample_now <= sample_now + 60)%Z) by lia.
  split; [exact Hle|]. split; [reflexivity|].
  exact (proj2 (X16_rejection_persists_in_time sample_digest sample_isoformat
                  sample_fromisoformat {| keys := []; writable := true |}
                  "s3cret" "mcp_live_abc" sample_now (sample_now + 60)
                  _ Hle eq_refl)).
Defined.

(** A key minted to expire at the sample time, resolved a microsecond
    later. *)
Lemma X17_minted_key_expires_witness :
  let fs := {| keys := []; writable := true |} in
  "s3cret" <> "" /\ writable fs = true
  /\ sample_isoformat sample_time <> ""
  /\ sample_fromisoformat (sample_isoformat sample_time) = Some sample_time
  /\ dt_offset sample_time = Some 0%Z
  /\ (dt_wall sample_time - 0 < sample_now + 1)%Z
  /\ exists (token : string) (fs1 : Store),
      Auth.mint_key sample_digest sample_isoformat fs "s3cret" sample_now
        sample_random32 sample_random10 "demo" ["tools:call"] None
        (Some sample_time) default_prefix = (Ok token, fs1)
      /\ Auth.resolve sample_digest sample_isoformat sample_fromisoformat
           fs1 "s3cret" (sample_now + 1) token
         = (unauthorized "API key expired", fs1).
Proof.
  cbv zeta.
  assert (Hs : "s3cret" <> "") by discriminate.
  assert (Ht : sample_isoformat sample_time <> "") by discriminate.
  assert (Hlt : (dt_wall sample_time - 0 < sample_now + 1)%Z)
    by (simpl; lia).
  split; [exact Hs|]. split; [reflexivity|]. split; [exact Ht|].
  split; [reflexivity|]. split; [reflexivity|]. split; [exact Hlt|].
  exact (X17_minted_key_expires sample_digest sample_isoformat
           sample_fromisoformat {| keys := []; writable := true |}
           "s3cret" sample_now (sample_now + 1) sample_random32
           sample_random10 "demo" default_prefix ["tools:call"] None
           sample_time 0 Hs eq_refl (List.Forall_nil _) Ht eq_refl eq_refl
           Hlt).
Defined.

End MoreAuthFacts.

(** ** Length of the random tokens *)

Module MoreSecretsFacts.
Import PyStr Secrets Auth.

Lemma length_of_chars (l : list ascii) : String.length (of_chars l) = length l.
Proof. induction l as [|c l IH]; simpl; [reflexivity | now rewrite IH]. Qed.

Lemma length_append (a b : string) :
  String.length (a +:+ b) = String.length a + String.length b.
Proof. induction a as [|c a IH]; simpl; [reflexivity | now rewrite IH]. Qed.

Lemma urlsafe_b64encode_body (l : list Byte.byte) :
  exists body ps,
    urlsafe_b64encode l = body ++ ps
    /\ Forall (fun c => is_urlsafe c = true) body
    /\ Forall (fun c => c = pad) ps
    /\ length body = (4 * length l + 2) / 3.
Proof.
  induction l as [|a|a b|a b c r (body & ps & Heq & Hb & Hp & Hlen)]
    using SecretsFacts.list_ind3.
  - exists [], []. now repeat constructor.
  - eexists [_; _], [pad; pad]. split; [reflexivity|].
    split; [repeat constructor; apply SecretsFacts.b64char_urlsafe|].
    split; [repeat constructor | reflexivity].
  - eexists [_; _; _], [pad]. split; [reflexivity|].
    split; [repeat constructor; apply SecretsFacts.b64char_urlsafe|].
    split; [repeat constructor | reflexivity].
  - eexists (_ :: _ :: _ :: _ :: body), ps.
    split; [simpl; now rewrite Heq|].
    split; [repeat constructor; try apply SecretsFacts.b64char_urlsafe;
            exact Hb|].
    split; [exact Hp|].
    cbn [length]. rewrite Hlen.
    replace (4 * S (S (S (length r))) + 2) with (4 * length r + 2 + 4 * 3)
      by lia.
    rewrite Nat.div_add by discriminate. lia.
Qed.

Lemma token_urlsafe_length (random_bytes : list Byte.byte) :
  String.length (token_urlsafe random_bytes)
  = (4 * length random_bytes + 2) / 3.
Proof.
  unfold token_urlsafe. rewrite length_of_chars.
  destruct (urlsafe_b64encode_body random_bytes)
    as (body & ps & -> & Hb & Hp & Hlen).
  now rewrite SecretsFacts.rstrip_pad_body.
Qed.

(** X18. The random part of a token has a length fixed by the number of
    random bytes, [ceil(4n/3)] characters for [n] bytes: a key minted
    from 32 random bytes is its prefix followed by exactly 43 characters,
    and its [key_id], from 10 random bytes, is ["k_"] followed by 14. *)
Theorem X18_token_length
    (hmac_sha256_hexdigest : string -> string -> string)
    (isoformat : datetime -> string)
    (fs fs' : Store) (env_secret : string) (now : Z)
    (random32 random10 : list Byte.byte) (pid prefix token : string)
    (caps : list string) (cstr : option (list (string * value)))
    (exp : option datetime) :
  length random32 = 32 -> length random10 = 10 ->
  mint_key hmac_sha256_hexdigest isoformat fs env_secret now random32
    random10 pid caps cstr exp prefix = (Ok token, fs') ->
  String.length token = String.length prefix + 43
  /\ exists r : StoredKey,
      keys fs' = keys fs ++ [r] /\ String.length (key_id r) = 16.
Proof.
  intros H32 H10. unfold mint_key.
  destruct (_hmac_secret env_secret) as [secret|e]; [|discriminate].
  unfold _write. destruct (writable fs); [|discriminate].
  intros [= <- <-]. split.
  - now rewrite length_append, token_urlsafe_length, H32.
  - eexists. split; [reflexivity|].
    change (String.length ("k_" +:+ token_urlsafe random10) = 16).
    now rewrite length_append, token_urlsafe_length, H10.
Qed.

(** The demo mint. *)
Lemma X18_token_length_witness :
  let fs := {| keys := []; writable := true |} in
  length Samples.sample_random32 = 32 /\ length Samples.sample_random10 = 10
  /\ exists token fs',
      mint_key Samples.sample_digest Samples.sample_isoformat fs "s3cret"
        Samples.sample_now Samples.sample_random32 Samples.sample_random10
        "demo" [] None None default_prefix = (Ok token, fs')
      /\ String.length token = 52.
Proof.
  cbv zeta. split; [reflexivity|]. split; [reflexivity|].
  eexists _, _. split; [reflexivity|].
  exact (proj1 (X18_token_length Samples.sample_digest
                  Samples.sample_isoformat
                  {| keys := []; writable := true |} _ "s3cret"
                  Samples.sample_now Samples.sample_random32
                  Samples.sample_random10 "demo" default_prefix _ [] None None
                  eq_refl eq_refl eq_refl)).
Defined.

Lemma alphabet_NoDup : NoDup urlsafe_alphabet.
Proof. apply (bool_decide_unpack _). vm_compute. exact I. Qed.

Lemma b64char_inj (n m : N) :
  b64char n = b64char m -> (n mod 64 = m mod 64)%N.
Proof.
  unfold b64char. intros H.
  assert (Hn : (n mod 64 < 64)%N) by (apply N.mod_lt; discriminate).
  assert (Hm : (m mod 64 < 64)%N) by (apply N.mod_lt; discriminate).
  apply N2Nat.inj.
  apply (proj1 (List.NoDup_nth urlsafe_alphabet "A"%char)
           (proj1 (NoDup_ListNoDup _) alphabet_NoDup));
    [change (length urlsafe_alphabet) with 64; lia
    |change (length urlsafe_alphabet) with 64; lia
    |exact H].
Qed.

Lemma sextets_inj (n m : N) :
  (n < 16777216)%N -> (m < 16777216)%N ->
  ((n / 262144) mod 64 = (m / 262144) mod 64)%N ->
  ((n / 4096) mod 64 = (m / 4096) mod 64)%N ->
  ((n / 64) mod 64 = (m / 64) mod 64)%N ->
  (n mod 64 = m mod 64)%N -> n = m.
Proof.
  intros Hn Hm.
  change 262144%N with (64 * 64 * 64)%N. change 4096%N with (64 * 64)%N.
  rewrite <- !N.Div0.div_div.
  set (a := (n / 64)%N). set (b := (m / 64)%N).
  set (a2 := (a / 64)%N). set (b2 := (b / 64)%N).
  intros H3 H2 H1 H0.
  assert (Ha : (a2 / 64 < 64)%N)
    by (subst a2 a; rewrite !N.Div0.div_div;
        apply N.Div0.div_lt_upper_bound; exact Hn).
  assert (Hb : (b2 / 64 < 64)%N)
    by (subst b2 b; rewrite !N.Div0.div_div;
        apply N.Div0.div_lt_upper_bound; exact Hm).
  rewrite !N.mod_small in H3 by assumption.
  assert (E2 : a2 = b2)
    by (rewrite (N.div_mod a2 64), (N.div_mod b2 64) by discriminate;
        congruence).
  assert (E1 : a = b)
    by (rewrite (N.div_mod a 64), (N.div_mod b 64) by discriminate;
        fold a2 b2; congruence).
  rewrite (N.div_mod n 64), (N.div_mod m 64) by discriminate.
  fold a b. congruence.
Qed.

Lemma to_N_lt (b : Byte.byte) : (Byte.to_N b < 256)%N.
Proof. pose proof (Byte.to_N_bounded b). lia. Qed.

Lemma to_N_inj (a b : Byte.byte) : Byte.to_N a = Byte.to_N b -> a = b.
Proof.
  intros H. pose proof (Byte.of_to_N a) as Ha. rewrite H in Ha.
  rewrite Byte.of_to_N in Ha. congruence.
Qed.

(** The text of a token, three bytes at a time. *)
Lemma rstrip_encode_nil : rstrip_pad (urlsafe_b64encode []) = [].
Proof. reflexivity. Qed.

Lemma rstrip_encode_1 (a : Byte.byte) :
  rstrip_pad (urlsafe_b64encode [a])
  = [b64char (Byte.to_N a * 16 / 64); b64char (Byte.to_N a * 16)].
Proof.
  apply (SecretsFacts.rstrip_pad_body [_; _] [pad; pad]);
    repeat constructor; apply SecretsFacts.b64char_urlsafe.
Qed.

Lemma rstrip_encode_2 (a b : Byte.byte) :
  rstrip_pad (urlsafe_b64encode [a; b])
  = [b64char ((Byte.to_N a * 256 + Byte.to_N b) * 4 / 4096);
     b64char ((Byte.to_N a * 256 + Byte.to_N b) * 4 / 64);
     b64char ((Byte.to_N a * 256 + Byte.to_N b) * 4)].
Proof.
  apply (SecretsFacts.rstrip_pad_body [_; _; _] [pad]);
    repeat constructor; apply SecretsFacts.b64char_urlsafe.
Qed.

Lemma rstrip_encode_3 (a b c : Byte.byte) (r : list Byte.byte) :
  rstrip_pad (urlsafe_b64encode (a :: b :: c :: r))
  = b64char ((Byte.to_N a * 65536 + Byte.to_N b * 256 + Byte.to_N c) / 262144)
    :: b64char ((Byte.to_N a * 65536 + Byte.to_N b * 256 + Byte.to_N c) / 4096)
    :: b64char ((Byte.to_N a * 65536 + Byte.to_N b * 256 + Byte.to_N c) / 64)
    :: b64char (Byte.to_N a * 65536 + Byte.to_N b * 256 + Byte.to_N c)
    :: rstrip_pad (urlsafe_b64encode r).
Proof.
  destruct (SecretsFacts.urlsafe_b64encode_shape r) as (body & ps & Heq & Hb & Hp).
  cbn [urlsafe_b64encode]. rewrite Heq.
  rewrite (SecretsFacts.rstrip_pad_body body ps Hb Hp).
  apply (SecretsFacts.rstrip_pad_body (_ :: _ :: _ :: _ :: body) ps);
    [|exact Hp].
  repeat constructor; try apply SecretsFacts.b64char_urlsafe. exact Hb.
Qed.

Lemma rstrip_encode_inj (l l' : list Byte.byte) :
  rstrip_pad (urlsafe_b64encode l) = rstrip_pad (urlsafe_b64encode l') ->
  l = l'.
Proof.
  revert l'.
  induction l as [|a|a b|a b c r IH] using SecretsFacts.list_ind3;
    intros [|a' [|b' [|c' r']]];
    rewrite ?rstrip_encode_nil, ?rstrip_encode_1, ?rstrip_encode_2,
      ?rstrip_encode_3;
    try discriminate; try reflexivity.
  - intros [= H1 H0]. apply b64char_inj in H1, H0. f_equal.
    pose proof (to_N_lt a). pose proof (to_N_lt a').
    apply to_N_inj.
    enough (Byte.to_N a * 16 = Byte.to_N a' * 16)%N by lia.
    apply sextets_inj; try lia; try assumption;
      rewrite !N.div_small by lia; reflexivity.
  - intros [= H2 H1 H0]. apply b64char_inj in H2, H1, H0.
    pose proof (to_N_lt a). pose proof (to_N_lt a').
    pose proof (to_N_lt b). pose proof (to_N_lt b').
    enough (E : ((Byte.to_N a * 256 + Byte.to_N b) * 4
                 = (Byte.to_N a' * 256 + Byte.to_N b') * 4)%N).
    { assert (Byte.to_N a = Byte.to_N a' /\ Byte.to_N b = Byte.to_N b')
        as [Ea Eb] by lia.
      apply to_N_inj in Ea, Eb. now subst. }
    apply sextets_inj; try lia; try assumption.
    rewrite !N.div_small by lia. reflexivity.
  - intros [= H3 H2 H1 H0 Hrest]. apply b64char_inj in H3, H2, H1, H0.
    pose proof (to_N_lt a). pose proof (to_N_lt a').
    pose proof (to_N_lt b). pose proof (to_N_lt b').
    pose proof (to_N_lt c). pose proof (to_N_lt c').
    assert (E : (Byte.to_N a * 65536 + Byte.to_N b * 256 + Byte.to_N c
                 = Byte.to_N a' * 65536 + Byte.to_N b' * 256 + Byte.to_N c')%N)
      by (apply sextets_inj; try lia; assumption).
    assert (Byte.to_N a = Byte.to_N a' /\ Byte.to_N b = Byte.to_N b'
            /\ Byte.to_N c = Byte.to_N c') as (Ea & Eb & Ec) by lia.
    apply to_N_inj in Ea, Eb, Ec. subst. f_equal. f_equal. f_equal.
    now apply IH.
Qed.

Lemma of_chars_inj (l l' : list ascii) : of_chars l = of_chars l' -> l = l'.
Proof.
  intros H. rewrite <- (list_ascii_of_string_of_list_ascii l).
  rewrite <- (list_ascii_of_string_of_list_ascii l'). unfold of_chars in H.
  now rewrite H.
Qed.

Lemma append_inj_r (p a b : string) : p +:+ a = p +:+ b -> a = b.
Proof. induction p as [|c p IH]; simpl; [auto | intros [= H]; auto]. Qed.

(** X19. Tokens are as distinct as the random bytes they are made from:
    [token_urlsafe] is injective, so two mints under the same prefix that
    return the same token drew the same random bytes. *)
Theorem X19_distinct_random_bytes_distinct_tokens :
  (forall r r' : list Byte.byte,
      token_urlsafe r = token_urlsafe r' -> r = r')
  /\ (forall (hmac_sha256_hexdigest : string -> string -> string)
        (isoformat : datetime -> string)
        (fs1 fs2 fs1' fs2' : Store) (s1 s2 : string) (now1 now2 : Z)
        (r32 r32' r10 r10' : list Byte.byte) (pid1 pid2 prefix token : string)
        (caps1 caps2 : list string)
        (cstr1 cstr2 : option (list (string * value)))
        (exp1 exp2 : option datetime),
        mint_key hmac_sha256_hexdigest isoformat fs1 s1 now1 r32 r10 pid1
          caps1 cstr1 exp1 prefix = (Ok token, fs1') ->
        mint_key hmac_sha256_hexdigest isoformat fs2 s2 now2 r32' r10' pid2
          caps2 cstr2 exp2 prefix = (Ok token, fs2') ->
        r32 = r32').
Proof.
  assert (Hinj : forall r r' : list Byte.byte,
             token_urlsafe r = token_urlsafe r' -> r = r')
    by (intros r r' H; apply rstrip_encode_inj, of_chars_inj; exact H).
  split; [exact Hinj|].
  intros hm iso fs1 fs2 fs1' fs2' s1 s2 now1 now2 r32 r32' r10 r10' pid1 pid2
    prefix token caps1 caps2 cstr1 cstr2 exp1 exp2 H1 H2.
  unfold mint_key in H1, H2.
  destruct (_hmac_secret s1); [|discriminate].
  destruct (_hmac_secret s2); [|discriminate].
  unfold _write in *.
  destruct (writable fs1); [|discriminate].
  destruct (writable fs2); [|discriminate].
  injection H1 as H1 _. injection H2 as H2 _.
  apply Hinj, (append_inj_r prefix). congruence.
Qed.

End MoreSecretsFacts.

(** ** The resolver of a request *)

Module MoreResolverFacts.
Import PyStr Registry Auth AuthResolver Statements Samples.

Lemma lstrip_app_spaces (l : list ascii) :
  exists sp, l = sp ++ lstrip l /\ forallb isspace sp = true.
Proof.
  induction l as [|c l (sp & Heq & Hsp)]; [now exists []|].
  simpl. destruct (isspace c) eqn:E.
  - exists (c :: sp). simpl. rewrite E, Hsp. split; [congruence | reflexivity].
  - now exists [].
Qed.

Lemma lstrip_head (l : list ascii) (c : ascii) (l' : list ascii) :
  lstrip l = c :: l' -> isspace c = false.
Proof.
  induction l as [|d l IH]; simpl; [discriminate|].
  destruct (isspace d) eqn:E; [exact IH|]. now intros [= <- _].
Qed.

Lemma lstrip_fixed (l : list ascii) :
  match l with c :: _ => isspace c = false | [] => True end -> lstrip l = l.
Proof. destruct l as [|c l]; simpl; [reflexivity | now intros ->]. Qed.

Lemma lstrip_idem (l : list ascii) : lstrip (lstrip l) = lstrip l.
Proof.
  apply lstrip_fixed. destruct (lstrip l) as [|c l'] eqn:E; [exact I|].
  exact (lstrip_head l c l' E).
Qed.

(** The characters of [s.strip()] begin and end with no space. *)
Lemma strip_chars_fixed (l : list ascii) :
  let n := rev (lstrip (rev (lstrip l))) in
  lstrip n = n /\ lstrip (rev n) = rev n.
Proof.
  cbv zeta. split.
  - apply lstrip_fixed.
    destruct (lstrip_app_spaces (rev (lstrip l))) as (sp & Heq & Hsp).
    destruct (rev (lstrip (rev (lstrip l)))) as [|c n'] eqn:En; [exact I|].
    assert (Hm : lstrip l = (c :: n') ++ rev sp).
    { rewrite <- En, <- rev_app_distr, <- Heq. now rewrite rev_involutive. }
    simpl in Hm. exact (lstrip_head l c _ Hm).
  - rewrite rev_involutive. apply lstrip_idem.
Qed.

(** [strip] is idempotent. *)
Lemma strip_idem (s : string) : strip (strip s) = strip s.
Proof.
  unfold strip, chars, of_chars.
  rewrite list_ascii_of_string_of_list_ascii.
  destruct (strip_chars_fixed (list_ascii_of_string s)) as [H1 H2].
  rewrite H1, H2. now rewrite rev_involutive.
Qed.

Lemma filter_truthy_Forall (l : list string) :
  Forall (fun c => truthy (strip c) = true)
    (filter (fun c => truthy (strip c) = true) l).
Proof.
  induction l as [|c l IH]; [constructor|].
  rewrite filter_cons. case_decide; [constructor|]; assumption.
Qed.

Section External.
Variable json_loads : string -> option value.

(** X20. A principal accepted in external mode is well formed: its
    identity is not empty and carries no surrounding whitespace, each of
    its capabilities is not empty and carries no surrounding whitespace
    (blank entries between commas are dropped), and it is not disabled. *)
Theorem X20_external_principal_trimmed (headers : gmap string string)
    (p : Principal) :
  _principal_external json_loads headers = Ok p ->
  principal_id p <> "" /\ strip (principal_id p) = principal_id p
  /\ Forall (fun c => c <> "" /\ strip c = c) (capabilities p)
  /\ disabled p = false.
Proof.
  unfold _principal_external.
  destruct (truthy (strip (header headers EXT_PRINCIPAL_HEADER))) eqn:Hpid;
    simpl; [|discriminate].
  set (caps := map strip _).
  assert (Hcaps : Forall (fun c => c <> "" /\ strip c = c) caps).
  { subst caps. apply Forall_forall. intros c Hin.
    apply list_elem_of_In, in_map_iff in Hin as (c0 & <- & Hin).
    pose proof (filter_truthy_Forall
                  (split "," (strip (header headers EXT_CAPABILITIES_HEADER))))
      as HF.
    rewrite Forall_forall in HF. apply list_elem_of_In, HF in Hin.
    split; [now apply AuthFacts.truthy_true | apply strip_idem]. }
  destruct (truthy (strip (header headers EXT_CONSTRAINTS_HEADER))).
  - destruct (json_loads _) as [[]|]; try discriminate;
      intros [= <-]; simpl;
      (split; [now apply AuthFacts.truthy_true|]);
      (split; [apply strip_idem|]); split; auto.
  - intros [= <-]. simpl. split; [now apply AuthFacts.truthy_true|].
    split; [apply strip_idem|]. split; auto.
Qed.

(** X21. In external mode a request whose capabilities header is absent
    or blank yields a principal without capabilities, and such a
    principal is refused every action (403) whatever the action is. *)
Theorem X21_external_without_capabilities_denied
    (headers : gmap string string) (p : Principal) (action : string) :
  strip (header headers EXT_CAPABILITIES_HEADER) = "" ->
  _principal_external json_loads headers = Ok p ->
  capabilities p = []
  /\ authorize_action p action
     = Err (HTTPException HTTP_403_FORBIDDEN
              (DStr ("Missing capability: " +:+ action))).
Proof.
  intros Hcaps. unfold _principal_external. rewrite Hcaps.
  destruct (truthy (strip (header headers EXT_PRINCIPAL_HEADER)));
    simpl; [|discriminate].
  assert (E : forall q, capabilities q = [] ->
                        authorize_action q action
                        = Err (HTTPException HTTP_403_FORBIDDEN
                                 (DStr ("Missing capability: " +:+ action)))).
  { intros q Hq. unfold authorize_action, _principal_has. now rewrite Hq. }
  destruct (truthy (strip (header headers EXT_CONSTRAINTS_HEADER))).
  - destruct (json_loads _) as [[]|]; try discriminate;
      intros [= <-]; split; try reflexivity; now apply E.
  - intros [= <-]. split; [reflexivity | now apply E].
Qed.

End External.

(** A request of an upstream proxy, with padded header values. *)
Lemma X20_external_principal_witness :
  let h : gmap string string :=
    {[ "X-MCP-Principal" := " alice ";
       "X-MCP-Capabilities" := "tool:math:*, ,tools:call " ]} in
  let p := {| principal_id := "alice";
              capabilities := ["tool:math:*"; "tools:call"];
              constraints := []; disabled := false |} in
  _principal_external sample_json_loads h = Ok p
  /\ principal_id p <> "" /\ strip (principal_id p) = principal_id p
  /\ Forall (fun c => c <> "" /\ strip c = c) (capabilities p)
  /\ disabled p = false.
Proof.
  cbv zeta.
  assert (H : _principal_external sample_json_loads
                ({[ "X-MCP-Principal" := " alice ";
                    "X-MCP-Capabilities" := "tool:math:*, ,tools:call " ]}
                 : gmap string string)
              = Ok {| principal_id := "alice";
                      capabilities := ["tool:math:*"; "tools:call"];
                      constraints := []; disabled := false |})
    by reflexivity.
  split; [exact H|].
  exact (X20_external_principal_trimmed sample_json_loads _ _ H).
Defined.

(** A request with an identity and nothing else. *)
Lemma X21_external_without_capabilities_witness :
  let h : gmap string string := {[ "X-MCP-Principal" := "alice" ]} in
  let p := {| principal_id := "alice"; capabilities := [];
              constraints := []; disabled := false |} in
  strip (header h EXT_CAPABILITIES_HEADER) = ""
  /\ _principal_external sample_json_loads h = Ok p
  /\ authorize_action p "tools:list"
     = Err (HTTPException HTTP_403_FORBIDDEN
              (DStr "Missing capability: tools:list")).
Proof.
  cbv zeta.
  assert (H1 : strip (header ({[ "X-MCP-Principal" := "alice" ]}
                              : gmap string string) EXT_CAPABILITIES_HEADER)
               = "") by reflexivity.
  assert (H2 : _principal_external sample_json_loads
                 ({[ "X-MCP-Principal" := "alice" ]} : gmap string string)
               = Ok {| principal_id := "alice"; capabilities := [];
                       constraints := []; disabled := false |})
    by reflexivity.
  split; [exact H1|]. split; [exact H2|].
  exact (proj2 (X21_external_without_capabilities_denied sample_json_loads
                  _ _ "tools:list" H1 H2)).
Defined.

End MoreResolverFacts.

(** ** Authentication modes and routes *)

Module MoreAppFacts.
Import PyStr Registry Auth AuthResolver App Statements Samples MoreSamples.

Section Resolver.
Variable hmac_sha256_hexdigest : string -> string -> string.
Variable isoformat : datetime -> string.
Variable fromisoformat : string -> option datetime.
Variable json_loads : string -> option value.

Local Abbreviation get_current_principal :=
  (AuthResolver.get_current_principal hmac_sha256_hexdigest isoformat
     fromisoformat json_loads).
Local Abbreviation mint := (App.mint hmac_sha256_hexdigest isoformat).

(** X22. In mode [none] every request, with or without credentials or
    headers, is the anonymous principal holding ["*"]; the key store is
    not touched, and that principal is authorized for every action and
    for every tool of a registry built by [register]. *)
Theorem X22_mode_none_is_wide_open (env headers : gmap string string)
    (creds : option HTTPAuthorizationCredentials) (d : Disk) (now : Z) :
  get_auth_mode env = "none" ->
  get_current_principal env headers creds d now = (Ok _principal_noauth, d)
  /\ (forall action : string,
        authorize_action _principal_noauth action = Ok tt)
  /\ (forall (S : Type) (tools : gmap string (ToolDef S)) (n : string)
        (t : ToolDef S),
        registered tools -> get tools n = Ok t ->
        enforce_tool _principal_noauth t = Ok tt).
Proof.
  intros Hmode. unfold AuthResolver.get_current_principal. rewrite Hmode.
  split; [reflexivity|]. split; [reflexivity|].
  intros S tools n t Hreg Hget.
  apply RegistryFacts.star_enforce_nonempty. unfold get in Hget.
  destruct (tools !! n) as [t'|] eqn:Hl; [|discriminate].
  injection Hget as ->.
  exact (RegistryFacts.registered_required_caps tools Hreg n t Hl).
Qed.

(** X23. In mode [apikey], which is also the mode when the environment
    does not name one, a request without credentials, with a scheme other
    than bearer (in any letter case) or with empty credentials fails with
    401 "Missing bearer token"; the key store is not opened, so no store
    file is created. *)
Theorem X23_apikey_needs_bearer (env headers : gmap string string)
    (creds : option HTTPAuthorizationCredentials) (d : Disk) (now : Z) :
  env !! AUTH_MODE_ENV = None \/ get_auth_mode env = "apikey" ->
  match creds with
  | None => True
  | Some c => lower (scheme c) <> "bearer" \/ credentials c = ""
  end ->
  get_auth_mode env = "apikey"
  /\ get_current_principal env headers creds d now
     = (unauthorized "Missing bearer token", d).
Proof.
  intros Hmode Hcreds.
  assert (Hm : get_auth_mode env = "apikey").
  { destruct Hmode as [Hnone | H]; [|exact H].
    unfold get_auth_mode, getenv. now rewrite Hnone. }
  split; [exact Hm|].
  unfold AuthResolver.get_current_principal. rewrite Hm. simpl.
  destruct creds as [c|]; [|reflexivity].
  destruct Hcreds as [Hs | Hc].
  - apply String.eqb_neq in Hs. now rewrite Hs.
  - rewrite Hc. now rewrite orb_true_r.
Qed.

(** X24. A mode other than [none], [external] and [apikey] (after
    trimming and lowering), such as the empty string of a variable that
    is set but empty, makes every request fail with 500 "Unknown auth
    mode", before credentials or headers are looked at. *)
Theorem X24_unknown_mode_fails_every_request
    (env headers : gmap string string)
    (creds : option HTTPAuthorizationCredentials) (d : Disk) (now : Z) :
  get_auth_mode env <> "none" ->
  get_auth_mode env <> "external" ->
  get_auth_mode env <> "apikey" ->
  get_current_principal env headers creds d now
  = (Err (HTTPException HTTP_500_INTERNAL_SERVER_ERROR
            (DStr ("Unknown auth mode: " +:+ get_auth_mode env))), d).
Proof.
  intros H1 H2 H3. unfold AuthResolver.get_current_principal.
  apply String.eqb_neq in H1, H2, H3. now rewrite H1, H2, H3.
Qed.

(** X25. The first bearer request on a machine without a key store
    creates the store file with no keys and is rejected with 401 "Invalid
    API key", whatever the token; when the file cannot be created the
    request fails with [OSError] instead. *)
Theorem X25_missing_store_file (env headers : gmap string string)
    (c : HTTPAuthorizationCredentials) (d : Disk) (now : Z) :
  get_auth_mode env = "apikey" ->
  getenv env APIKEY_HMAC_SECRET_ENV "" <> "" ->
  lower (scheme c) = "bearer" -> credentials c <> "" ->
  file d = None ->
  get_current_principal env headers (Some c) d now
  = if disk_writable d
    then (unauthorized "Invalid API key",
          {| file := Some []; disk_writable := true |})
    else (Err (OSError "cannot write the key store"), d).
Proof.
  intros Hm Hs Hsch Hc Hf. unfold AuthResolver.get_current_principal.
  rewrite Hm, Hsch. simpl.
  apply AuthFacts.truthy_true in Hc. rewrite Hc. simpl.
  unfold ApiKeyStore. rewrite Hf. unfold _write. simpl.
  destruct (disk_writable d); [|reflexivity].
  unfold resolve. rewrite (AuthFacts.hmac_secret_set _ Hs). reflexivity.
Qed.

(** X26. The mint endpoint is closed unless it is switched on and the
    caller knows the admin token: a key is returned, or the store file
    changed, only when [DYNAMIC_MCP_ENABLE_MINT] is ["1"], the configured
    admin token is not empty and equals the one supplied, and the mode is
    [apikey].  In particular an empty configured admin token admits
    nobody, not even a caller who supplies the empty string. *)
Theorem X26_mint_endpoint_gated (env : gmap string string) (d : Disk)
    (now : Z) (random32 random10 : list Byte.byte) (pid : string)
    (caps : list string) (ttl_seconds : Z) (admin_token : option string) :
  (exists token : string,
      (mint env d now random32 random10 pid caps ttl_seconds admin_token).1
      = Ok token)
  \/ (mint env d now random32 random10 pid caps ttl_seconds admin_token).2
     <> d ->
  getenv env "DYNAMIC_MCP_ENABLE_MINT" "0" = "1"
  /\ getenv env "DYNAMIC_MCP_ADMIN_TOKEN" "" <> ""
  /\ admin_token = Some (getenv env "DYNAMIC_MCP_ADMIN_TOKEN" "")
  /\ get_auth_mode env = "apikey".
Proof.
  unfold App.mint.
  destruct (String.eqb (getenv env "DYNAMIC_MCP_ENABLE_MINT" "0") "1") eqn:E1;
    simpl; [|intros [[tok H] | H]; [discriminate | contradiction]].
  destruct (truthy (getenv env "DYNAMIC_MCP_ADMIN_TOKEN" "")) eqn:E2;
    simpl; [|intros [[tok H] | H]; [discriminate | contradiction]].
  destruct admin_token as [a|]; simpl;
    [|intros [[tok H] | H]; [discriminate | contradiction]].
  destruct (String.eqb a (getenv env "DYNAMIC_MCP_ADMIN_TOKEN" "")) eqn:E3;
    simpl; [|intros [[tok H] | H]; [discriminate | contradiction]].
  destruct (String.eqb (get_auth_mode env) "apikey") eqn:E4;
    simpl; [|intros [[tok H] | H]; [discriminate | contradiction]].
  intros _. apply String.eqb_eq in E1, E3, E4.
  apply AuthFacts.truthy_true in E2. subst a. auto.
Qed.

Lemma expiry_after_in_range (now ttl_seconds : Z) :
  (datetime_min <= now + ttl_seconds * 1000000 <= datetime_max)%Z ->
  expiry_after now ttl_seconds
  = Ok {| dt_wall := now + ttl_seconds * 1000000; dt_offset := Some 0%Z |}.
Proof.
  intros [Hlo Hhi]. unfold expiry_after.
  apply Z.leb_le in Hlo, Hhi. now rewrite Hlo, Hhi.
Qed.

(** X27. End to end: a key minted through the endpoint with a time to
    live that keeps the expiry within the range of [datetime], presented
    as a bearer credential at any time up to that expiry, is resolved to
    a principal with the identity and capabilities given to the endpoint
    and no constraints.  It needs the endpoint open (as in X26), the HMAC
    secret configured, the store writable, the new digest carried by no
    earlier record, and [fromisoformat] reading back the expiry. *)
Theorem X27_minted_key_authenticates (env headers : gmap string string)
    (d : Disk) (now now' : Z) (random32 random10 : list Byte.byte)
    (pid scheme0 : string) (caps : list string) (ttl_seconds : Z) :
  let secret := getenv env APIKEY_HMAC_SECRET_ENV "" in
  let ks := match file d with Some ks => ks | None => [] end in
  let exp := {| dt_wall := now + ttl_seconds * 1000000;
                dt_offset := Some 0%Z |} in
  getenv env "DYNAMIC_MCP_ENABLE_MINT" "0" = "1" ->
  getenv env "DYNAMIC_MCP_ADMIN_TOKEN" "" <> "" ->
  get_auth_mode env = "apikey" ->
  secret <> "" ->
  disk_writable d = true ->
  Forall (fun k => token_hmac k
                   <> hmac_sha256_hexdigest secret
                        (default_prefix +:+ Secrets.token_urlsafe random32))
    ks ->
  (datetime_min <= now + ttl_seconds * 1000000 <= datetime_max)%Z ->
  fromisoformat (isoformat exp) = Some exp ->
  (now' <= now + ttl_seconds * 1000000)%Z ->
  lower scheme0 = "bearer" ->
  exists (token : string) (d1 : Disk) (p : Principal) (d2 : Disk),
    mint env d now random32 random10 pid caps ttl_seconds
      (Some (getenv env "DYNAMIC_MCP_ADMIN_TOKEN" "")) = (Ok token, d1)
    /\ get_current_principal env headers
         (Some {| scheme := scheme0; credentials := token |}) d1 now'
       = (Ok p, d2)
    /\ principal_id p = pid /\ capabilities p = caps /\ constraints p = [].
Proof.
  cbv zeta. intros He Ha Hm Hs Hw Hfresh Hrange Hparse Hle Hsch.
  set (secret := getenv env APIKEY_HMAC_SECRET_ENV "") in *.
  set (ks := match file d with Some ks => ks | None => [] end) in *.
  set (token := default_prefix +:+ Secrets.token_urlsafe random32) in *.
  set (exp := {| dt_wall := now + ttl_seconds * 1000000;
                 dt_offset := Some 0%Z |}) in *.
  set (rec := {| key_id := "k_" +:+ Secrets.token_urlsafe random10;
                 token_hmac := hmac_sha256_hexdigest secret token;
                 sk_principal_id := pid; sk_capabilities := caps;
                 sk_constraints := [];
                 created_at := isoformat (_utcnow now);
                 expires_at := Some (isoformat exp);
                 revoked_at := None; last_used_at := None |}).
  assert (Hopen : ApiKeyStore d = Ok {| keys := ks; writable := true |}).
  { unfold ApiKeyStore, ks. destruct (file d); rewrite Hw; reflexivity. }
  assert (Hmint : mint env d now random32 random10 pid caps ttl_seconds
                    (Some (getenv env "DYNAMIC_MCP_ADMIN_TOKEN" ""))
                  = (Ok token,
                     {| file := Some (ks ++ [rec]); disk_writable := true |})).
  { unfold App.mint. rewrite He. simpl.
    apply AuthFacts.truthy_true in Ha. rewrite Ha, String.eqb_refl. simpl.
    rewrite Hm. simpl. rewrite (expiry_after_in_range now ttl_seconds Hrange).
    unfold AuthResolver.mint_api_key. rewrite Hopen.
    unfold Auth.mint_api_key, Auth.mint_key. fold secret.
    rewrite (AuthFacts.hmac_secret_set secret Hs). reflexivity. }
  assert (Hloop : (resolve_loop isoformat fromisoformat
                     (hmac_sha256_hexdigest secret token) now' [rec]).1
                  = Ok {| principal_id := pid; capabilities := caps;
                          constraints := []; disabled := false |}).
  { simpl. rewrite String.eqb_refl. simpl.
    destruct (truthy (isoformat exp)); [|reflexivity].
    rewrite Hparse. unfold dt_lt. simpl.
    replace (now + ttl_seconds * 1000000 - 0 <? now' - 0)%Z with false
      by (symmetry; apply Z.ltb_ge; lia).
    reflexivity. }
  pose proof (AuthFacts.resolve_at_first hmac_sha256_hexdigest isoformat
                fromisoformat {| keys := ks ++ [rec]; writable := true |}
                secret token now' ks [] rec Hs eq_refl Hfresh eq_refl) as R.
  rewrite Hloop in R. simpl in R.
  eexists token, _, _, _. split; [exact Hmint|]. split.
  - unfold AuthResolver.get_current_principal. rewrite Hm.
    cbn [scheme credentials]. rewrite Hsch. simpl.
    fold secret. unfold ApiKeyStore. simpl. rewrite R. reflexivity.
  - auto.
Qed.

(** X30. A time to live that carries the expiry out of the range of
    [datetime] (beyond year 9999, or before year 1) makes the open mint
    endpoint raise [OverflowError] when it computes the expiry: no key is
    minted and the store file is not touched, not even created. *)
Theorem X30_mint_ttl_out_of_range (env : gmap string string) (d : Disk)
    (now : Z) (random32 random10 : list Byte.byte) (pid : string)
    (caps : list string) (ttl_seconds : Z) :
  getenv env "DYNAMIC_MCP_ENABLE_MINT" "0" = "1" ->
  getenv env "DYNAMIC_MCP_ADMIN_TOKEN" "" <> "" ->
  get_auth_mode env = "apikey" ->
  (now + ttl_seconds * 1000000 < datetime_min
   \/ datetime_max < now + ttl_seconds * 1000000)%Z ->
  mint env d now random32 random10 pid caps ttl_seconds
    (Some (getenv env "DYNAMIC_MCP_ADMIN_TOKEN" ""))
  = (Err (Raised "OverflowError"), d).
Proof.
  intros He Ha Hm Hout. unfold App.mint. rewrite He. simpl.
  apply AuthFacts.truthy_true in Ha. rewrite Ha, String.eqb_refl. simpl.
  rewrite Hm. simpl. unfold expiry_after.
  destruct (datetime_min <=? now + ttl_seconds * 1000000)%Z eqn:Elo;
    [|reflexivity].
  destruct (now + ttl_seconds * 1000000 <=? datetime_max)%Z eqn:Ehi;
    [|reflexivity].
  apply Z.leb_le in Elo, Ehi. lia.
Qed.

End Resolver.

Section Routes.
Context {S : Type}.
Variable pyd_schema : list Field -> value.

Local Abbreviation get_tool := (App.get_tool (S := S) pyd_schema).

(** X28. The call route runs a handler only for a caller who holds both
    gates: whenever the world changed, the principal has ["tools:call"],
    the tool exists and [enforce_tool] accepted the principal.  A caller
    without ["tools:call"] gets 403 whether or not the tool exists, and
    an unknown tool is 404 only for a caller who has it. *)
Theorem X28_call_tool_is_guarded (tools : gmap string (ToolDef S))
    (p : Principal) (req_name : string) (req_arguments : gmap string value)
    (w : World S) :
  (_principal_has p "tools:call" = false ->
   call_tool tools p req_name req_arguments w
   = (Err (HTTPException HTTP_403_FORBIDDEN
             (DStr "Missing capability: tools:call")), w))
  /\ (_principal_has p "tools:call" = true -> tools !! req_name = None ->
      call_tool tools p req_name req_arguments w
      = (Err (HTTPException HTTP_404_NOT_FOUND (DStr "Tool not found")), w))
  /\ ((call_tool tools p req_name req_arguments w).2 <> w ->
      _principal_has p "tools:call" = true
      /\ exists t : ToolDef S,
          tools !! req_name = Some t /\ enforce_tool p t = Ok tt).
Proof.
  unfold call_tool, authorize_action, lookup_tool, get.
  destruct (_principal_has p "tools:call");
    [|split; [reflexivity|]; split; [discriminate | simpl; contradiction]].
  split; [discriminate|]. split; [now intros _ ->|].
  destruct (tools !! req_name) as [t|]; [|simpl; contradiction].
  destruct (enforce_tool p t) as [[]|e] eqn:He; [|simpl; contradiction].
  intros _. split; [reflexivity|]. now exists t.
Qed.

(** X29. Reading a tool's schema needs ["tools:get"] and nothing else:
    a principal with that capability gets the name, docstring and input
    schema of every registered tool, also of a tool that [enforce_tool]
    would refuse it, for which the call route answers 403 and runs
    nothing. *)
Theorem X29_schema_readable_without_tool_capability
    (tools : gmap string (ToolDef S)) (p : Principal) (req_name : string)
    (t : ToolDef S) (req_arguments : gmap string value) (w : World S) :
  _principal_has p "tools:get" = true ->
  tools !! req_name = Some t ->
  get_tool tools p req_name
  = Ok {| gt_name := name t; gt_docstring := opt_str (fn_doc (fn t));
          gt_input_schema := pyd_schema (input_model t) |}
  /\ (enforce_tool p t <> Ok tt ->
      exists msg : string,
        call_tool tools p req_name req_arguments w
        = (Err (HTTPException HTTP_403_FORBIDDEN (DStr msg)), w)).
Proof.
  intros Hget Hl. split.
  - unfold App.get_tool, authorize_action, lookup_tool, get.
    now rewrite Hget, Hl.
  - intros Hne. unfold call_tool, authorize_action, lookup_tool, get.
    destruct (_principal_has p "tools:call"); [|now eexists].
    rewrite Hl.
    destruct (RegistryFacts.enforce_tool_total p t) as [H | H];
      [contradiction|].
    rewrite H. now eexists.
Qed.

End Routes.

(** The mode written with capitals and spaces. *)
Lemma X22_mode_none_witness :
  let env : gmap string string := {[ "DYNAMIC_MCP_AUTH_MODE" := " None " ]} in
  get_auth_mode env = "none"
  /\ AuthResolver.get_current_principal sample_digest sample_isoformat
       sample_fromisoformat sample_json_loads env ∅ None empty_disk sample_now
     = (Ok _principal_noauth, empty_disk)
  /\ authorize_action _principal_noauth "tools:call" = Ok tt.
Proof.
  cbv zeta.
  assert (Hm : get_auth_mode ({[ "DYNAMIC_MCP_AUTH_MODE" := " None " ]}
                              : gmap string string) = "none")
    by reflexivity.
  split; [exact Hm|].
  destruct (X22_mode_none_is_wide_open sample_digest sample_isoformat
              sample_fromisoformat sample_json_loads _ ∅ None empty_disk
              sample_now Hm) as (H1 & H2 & _).
  split; [exact H1 | apply H2].
Defined.

(** A request with basic credentials, no mode in the environment. *)
Lemma X23_apikey_needs_bearer_witness :
  let c := {| scheme := "Basic"; credentials := "YWxpY2U6cHc" |} in
  (∅ : gmap string string) !! AUTH_MODE_ENV = None
  /\ lower (scheme c) <> "bearer"
  /\ AuthResolver.get_current_principal sample_digest sample_isoformat
       sample_fromisoformat sample_json_loads ∅ ∅ (Some c) empty_disk
       sample_now
     = (unauthorized "Missing bearer token", empty_disk).
Proof.
  cbv zeta.
  assert (H1 : (∅ : gmap string string) !! AUTH_MODE_ENV = None)
    by reflexivity.
  assert (H2 : lower "Basic" <> "bearer") by (vm_compute; discriminate).
  split; [exact H1|]. split; [exact H2|].
  exact (proj2 (X23_apikey_needs_bearer sample_digest sample_isoformat
                  sample_fromisoformat sample_json_loads ∅ ∅
                  (Some {| scheme := "Basic"; credentials := "YWxpY2U6cHc" |})
                  empty_disk sample_now (or_introl H1) (or_introl H2))).
Defined.

(** The mode variable set to the empty string. *)
Lemma X24_unknown_mode_witness :
  let env : gmap string string := {[ "DYNAMIC_MCP_AUTH_MODE" := "" ]} in
  get_auth_mode env = ""
  /\ AuthResolver.get_current_principal sample_digest sample_isoformat
       sample_fromisoformat sample_json_loads env ∅ None empty_disk sample_now
     = (Err (HTTPException HTTP_500_INTERNAL_SERVER_ERROR
               (DStr ("Unknown auth mode: " +:+ get_auth_mode env))),
        empty_disk).
Proof.
  cbv zeta. split; [reflexivity|].
  apply (X24_unknown_mode_fails_every_request sample_digest sample_isoformat
           sample_fromisoformat sample_json_loads
           ({[ "DYNAMIC_MCP_AUTH_MODE" := "" ]} : gmap string string)
           ∅ None empty_disk sample_now);
    vm_compute; discriminate.
Defined.

(** A bearer request before any key was minted. *)
Lemma X25_missing_store_file_witness :
  let c := {| scheme := "Bearer"; credentials := "mcp_live_abc" |} in
  get_auth_mode sample_env = "apikey"
  /\ getenv sample_env APIKEY_HMAC_SECRET_ENV "" <> ""
  /\ lower (scheme c) = "bearer" /\ credentials c <> ""
  /\ file empty_disk = None
  /\ AuthResolver.get_current_principal sample_digest sample_isoformat
       sample_fromisoformat sample_json_loads sample_env ∅ (Some c)
       empty_disk sample_now
     = (unauthorized "Invalid API key",
        {| file := Some []; disk_writable := true |}).
Proof.
  cbv zeta.
  assert (H1 : get_auth_mode sample_env = "apikey") by reflexivity.
  assert (H2 : getenv sample_env APIKEY_HMAC_SECRET_ENV "" <> "")
    by (vm_compute; discriminate).
  assert (H3 : lower "Bearer" = "bearer") by reflexivity.
  assert (H4 : "mcp_live_abc" <> "") by discriminate.
  split; [exact H1|]. split; [exact H2|]. split; [exact H3|].
  split; [exact H4|]. split; [reflexivity|].
  exact (X25_missing_store_file sample_digest sample_isoformat
           sample_fromisoformat sample_json_loads sample_env ∅
           {| scheme := "Bearer"; credentials := "mcp_live_abc" |}
           empty_disk sample_now H1 H2 H3 H4 eq_refl).
Defined.

(** A mint with the right admin token. *)
Lemma X26_mint_endpoint_gated_witness :
  (exists token : string,
      (App.mint sample_digest sample_isoformat sample_env empty_disk
         sample_now sample_random32 sample_random10 "demo" ["tools:call"]
         3600 (Some "letmein")).1 = Ok token)
  /\ getenv sample_env "DYNAMIC_MCP_ENABLE_MINT" "0" = "1"
  /\ getenv sample_env "DYNAMIC_MCP_ADMIN_TOKEN" "" <> ""
  /\ Some "letmein" = Some (getenv sample_env "DYNAMIC_MCP_ADMIN_TOKEN" "")
  /\ get_auth_mode sample_env = "apikey".
Proof.
  assert (H : exists token : string,
             (App.mint sample_digest sample_isoformat sample_env empty_disk
                sample_now sample_random32 sample_random10 "demo"
                ["tools:call"] 3600 (Some "letmein")).1 = Ok token)
    by (eexists; reflexivity).
  split; [exact H|].
  exact (X26_mint_endpoint_gated sample_digest sample_isoformat sample_env
           empty_disk sample_now sample_random32 sample_random10 "demo"
           ["tools:call"] 3600 (Some "letmein") (or_introl H)).
Defined.

(** A key minted for one hour and used at once. *)
Lemma X27_minted_key_authenticates_witness :
  let exp := {| dt_wall := sample_now + 3600 * 1000000;
                dt_offset := Some 0%Z |} in
  getenv sample_env "DYNAMIC_MCP_ENABLE_MINT" "0" = "1"
  /\ getenv sample_env "DYNAMIC_MCP_ADMIN_TOKEN" "" <> ""
  /\ get_auth_mode sample_env = "apikey"
  /\ getenv sample_env APIKEY_HMAC_SECRET_ENV "" <> ""
  /\ disk_writable empty_disk = true
  /\ (datetime_min <= sample_now + 3600 * 1000000 <= datetime_max)%Z
  /\ table_fromisoformat (table_isoformat exp) = Some exp
  /\ (sample_now <= sample_now + 3600 * 1000000)%Z
  /\ lower "BEARER" = "bearer"
  /\ exists (token : string) (d1 : Disk) (p : Principal) (d2 : Disk),
      App.mint sample_digest table_isoformat sample_env empty_disk
        sample_now sample_random32 sample_random10 "demo"
        ["tools:call"; "tool:math:*"] 3600
        (Some (getenv sample_env "DYNAMIC_MCP_ADMIN_TOKEN" ""))
      = (Ok token, d1)
      /\ AuthResolver.get_current_principal sample_digest table_isoformat
           table_fromisoformat sample_json_loads sample_env ∅
           (Some {| scheme := "BEARER"; credentials := token |}) d1
           sample_now = (Ok p, d2)
      /\ principal_id p = "demo"
      /\ capabilities p = ["tools:call"; "tool:math:*"]
      /\ constraints p = [].
Proof.
  cbv zeta.
  assert (H1 : getenv sample_env "DYNAMIC_MCP_ENABLE_MINT" "0" = "1")
    by reflexivity.
  assert (H2 : getenv sample_env "DYNAMIC_MCP_ADMIN_TOKEN" "" <> "")
    by (vm_compute; discriminate).
  assert (H3 : get_auth_mode sample_env = "apikey") by reflexivity.
  assert (H4 : getenv sample_env APIKEY_HMAC_SECRET_ENV "" <> "")
    by (vm_compute; discriminate).
  assert (H5 : (datetime_min <= sample_now + 3600 * 1000000 <= datetime_max)%Z)
    by (unfold datetime_min, datetime_max, sample_now; lia).
  assert (H6 : table_fromisoformat
                 (table_isoformat
                    {| dt_wall := sample_now + 3600 * 1000000;
                       dt_offset := Some 0%Z |})
               = Some {| dt_wall := sample_now + 3600 * 1000000;
                         dt_offset := Some 0%Z |}) by reflexivity.
  assert (H7 : (sample_now <= sample_now + 3600 * 1000000)%Z) by lia.
  assert (H8 : lower "BEARER" = "bearer") by reflexivity.
  split; [exact H1|]. split; [exact H2|]. split; [exact H3|].
  split; [exact H4|]. split; [reflexivity|]. split; [exact H5|].
  split; [exact H6|]. split; [exact H7|]. split; [exact H8|].
  exact (X27_minted_key_authenticates sample_digest table_isoformat
           table_fromisoformat sample_json_loads sample_env ∅ empty_disk
           sample_now sample_now sample_random32 sample_random10 "demo"
           "BEARER" ["tools:call"; "tool:math:*"] 3600 H1 H2 H3 H4 eq_refl
           (List.Forall_nil _) H5 H6 H7 H8).
Defined.

(** A time to live of a million million seconds, on a machine without a
    key store. *)
Lemma X30_mint_ttl_out_of_range_witness :
  getenv sample_env "DYNAMIC_MCP_ENABLE_MINT" "0" = "1"
  /\ getenv sample_env "DYNAMIC_MCP_ADMIN_TOKEN" "" <> ""
  /\ get_auth_mode sample_env = "apikey"
  /\ (datetime_max < sample_now + 1000000000000 * 1000000)%Z
  /\ App.mint sample_digest sample_isoformat sample_env empty_disk sample_now
       sample_random32 sample_random10 "demo" ["tools:call"] 1000000000000
       (Some (getenv sample_env "DYNAMIC_MCP_ADMIN_TOKEN" ""))
     = (Err (Raised "OverflowError"), empty_disk).
Proof.
  assert (H1 : getenv sample_env "DYNAMIC_MCP_ENABLE_MINT" "0" = "1")
    by reflexivity.
  assert (H2 : getenv sample_env "DYNAMIC_MCP_ADMIN_TOKEN" "" <> "")
    by (vm_compute; discriminate).
  assert (H3 : get_auth_mode sample_env = "apikey") by reflexivity.
  assert (H4 : (datetime_max < sample_now + 1000000000000 * 1000000)%Z)
    by (unfold datetime_max, sample_now; lia).
  split; [exact H1|]. split; [exact H2|]. split; [exact H3|].
  split; [exact H4|].
  exact (X30_mint_ttl_out_of_range sample_digest sample_isoformat sample_env
           empty_disk sample_now sample_random32 sample_random10 "demo"
           ["tools:call"] 1000000000000 H1 H2 H3 (or_intror H4)).
Defined.

(** The demo principal may read the schema of [get_secret] and may not
    call it. *)
Lemma X29_schema_readable_witness :
  let t := (register (∅ : gmap string (ToolDef nat)) get_secret None
              (Some "Fetch a secret by key (demo).")
              (Some ["tool:secret:*"]) (Some ["dangerous"])).1 in
  _principal_has demo "tools:get" = true
  /\ sample_tools !! "get_secret" = Some t
  /\ enforce_tool demo t <> Ok tt
  /\ App.get_tool sample_schema sample_tools demo "get_secret"
     = Ok {| gt_name := "get_secret";
             gt_docstring := "Fetch a secret by key (demo).";
             gt_input_schema := VList [VStr "key"] |}
  /\ exists msg : string,
      call_tool sample_tools demo "get_secret" {[ "key" := VStr "db" ]}
        fresh_world
      = (Err (HTTPException HTTP_403_FORBIDDEN (DStr msg)), fresh_world).
Proof.
  cbv zeta.
  assert (H1 : _principal_has demo "tools:get" = true) by reflexivity.
  assert (H2 : sample_tools !! "get_secret"
               = Some (register (∅ : gmap string (ToolDef nat)) get_secret
                         None (Some "Fetch a secret by key (demo).")
                         (Some ["tool:secret:*"]) (Some ["dangerous"])).1)
    by reflexivity.
  assert (H3 : enforce_tool demo
                 (register (∅ : gmap string (ToolDef nat)) get_secret None
                    (Some "Fetch a secret by key (demo).")
                    (Some ["tool:secret:*"]) (Some ["dangerous"])).1
               <> Ok tt) by (vm_compute; discriminate).
  split; [exact H1|]. split; [exact H2|]. split; [exact H3|].
  destruct (X29_schema_readable_without_tool_capability sample_schema
              sample_tools demo "get_secret" _ {[ "key" := VStr "db" ]}
              fresh_world H1 H2) as [Hget Hcall].
  split; [exact Hget | exact (Hcall H3)].
Defined.

End MoreAppFacts.
